(** * weather-dashboard.py: a shallow embedding and its checked properties

    The program is one class, [WeatherDashboard], and a [main] entry point.
    Its methods mutate the object and talk to the outside world (HTTP,
    standard output, the wall clock, files).  The embedding keeps both the
    object and the world explicit and threads them through a small
    state-and-exception monad; a raised exception leaves the mutations made
    so far in place, as in Python. *)

From Stdlib Require Import ZArith List String Ascii Bool Lia.
From Stdlib Require Import Floats.SpecFloat.
From Stdlib Require Import Permutation.
From Stdlib Require DecimalString.
Import ListNotations.
Open Scope string_scope.
Open Scope Z_scope.

Set Implicit Arguments.
Set Warnings "-register-all".

(** ** Python values, as [response.json()] produces them *)

Module Py.

(** A Python [float] is an IEEE binary64; [spec_float] is the standard
    library's specification type for it. *)
Definition prec : Z := 53.
Definition emax : Z := 1024.

Inductive value : Type :=
| PyNone
| PyBool (b : bool)
| PyInt (i : Z)
| PyFloat (f : spec_float)
| PyStr (s : string)
| PyList (items : list value)
| PyDict (entries : list (string * value)).

(** Keys used in subscripts: [data['main']] and [data['weather'][0]]. *)
Inductive key : Type :=
| KStr (s : string)
| KInt (i : Z).

(** The exception classes that the modelled code can raise.  [ValueError]
    carries the message given in the source; [TimestampError] stands for
    what [datetime.fromtimestamp] raises for a number it cannot convert
    ([ValueError], [OverflowError] or [OSError], depending on the value and
    the platform). *)
Inductive exn : Type :=
| KeyError (k : key)
| IndexError
| TypeError
| ValueError (msg : string)
| AttributeError (attr : string)
| TimestampError
| OverflowError
| JSONDecodeError
| ConnectionError
| LibraryError (tag : string).

Inductive result (A : Type) : Type :=
| Ok (a : A)
| Raise (e : exn).

Arguments Ok {A} a.
Arguments Raise {A} e.

Definition rbind {A B} (r : result A) (k : A -> result B) : result B :=
  match r with
  | Ok a => k a
  | Raise e => Raise e
  end.

Definition is_ok {A} (r : result A) : bool :=
  match r with Ok _ => true | Raise _ => false end.

(** [mapM f l]: run [f] on the items of [l] from left to right and stop at
    the first exception; the shape of a [for] loop that appends one record
    per item. *)
Fixpoint mapM {A B} (f : A -> result B) (l : list A) : result (list B) :=
  match l with
  | [] => Ok []
  | a :: l' =>
      match f a with
      | Raise e => Raise e
      | Ok b =>
          match mapM f l' with
          | Raise e => Raise e
          | Ok bs => Ok (b :: bs)
          end
      end
  end.

(** Lookup in a [dict] with string keys: the first binding of the key. *)
Fixpoint lookup {V} (k : string) (d : list (string * V)) : option V :=
  match d with
  | [] => None
  | (k', v) :: d' => if String.eqb k k' then Some v else lookup k d'
  end.

(** [d[k] = v] on an insertion-ordered [dict]: an existing key keeps its
    position and takes the new value, a new key goes to the end. *)
Fixpoint setitem {V} (k : string) (v : V) (d : list (string * V))
  : list (string * V) :=
  match d with
  | [] => [(k, v)]
  | (k', v') :: d' =>
      if String.eqb k k' then (k', v) :: d' else (k', v') :: setitem k v d'
  end.

Definition keys {V} (d : list (string * V)) : list string := map fst d.

(** A string as the sequence of its one-character strings. *)
Fixpoint chars (s : string) : list string :=
  match s with
  | EmptyString => []
  | String c s' => String c EmptyString :: chars s'
  end.

(** [seq[i]] for a list: negative indices count from the end. *)
Definition index {A} (l : list A) (i : Z) : option A :=
  let n := Z.of_nat (List.length l) in
  let j := if i <? 0 then i + n else i in
  if (0 <=? j) && (j <? n) then nth_error l (Z.to_nat j) else None.

(** The subscript [v[k]].  Dictionaries decoded from JSON have string keys
    only, so an integer subscript on one is always a [KeyError]. *)
Definition getitem (v : value) (k : key) : result value :=
  match v, k with
  | PyDict d, KStr s =>
      match lookup s d with
      | Some x => Ok x
      | None => Raise (KeyError k)
      end
  | PyDict _, KInt _ => Raise (KeyError k)
  | PyList l, KInt i =>
      match index l i with
      | Some x => Ok x
      | None => Raise IndexError
      end
  | PyList _, KStr _ => Raise TypeError
  | PyStr s, KInt i =>
      match index (chars s) i with
      | Some c => Ok (PyStr c)
      | None => Raise IndexError
      end
  | PyStr _, KStr _ => Raise TypeError
  | _, _ => Raise TypeError
  end.

(** [v[k1][k2]...]: subscripts applied from left to right. *)
Fixpoint getpath (v : value) (p : list key) : result value :=
  match p with
  | [] => Ok v
  | k :: p' => rbind (getitem v k) (fun x => getpath x p')
  end.

(** The items a [for] loop sees when iterating over [v]. *)
Definition iter (v : value) : result (list value) :=
  match v with
  | PyList l => Ok l
  | PyDict d => Ok (map PyStr (keys d))
  | PyStr s => Ok (map PyStr (chars s))
  | _ => Raise TypeError
  end.

End Py.

(** ** Numbers and strings: the built-ins the program applies to its data *)

Module Builtins.
Import Py.

(** [str(n)] for an [int]: decimal digits, with a minus sign if negative. *)
Definition str_int (n : Z) : string :=
  DecimalString.NilZero.string_of_int (Z.to_int n).

(** The float nearest to the decimal literal [n / 10^k], as [float()] and
    the JSON decoder compute it (both operands are exact for the literals
    used here, and the division rounds to nearest-even). *)
Definition float_lit (n : Z) (k : Z) : spec_float :=
  SFdiv prec emax (binary_normalize prec emax n 0 false)
                  (binary_normalize prec emax (10 ^ k) 0 false).

(** [n / d] rounded to the nearest integer, ties to even ([0 <= n], [0 < d]). *)
Definition round_half_even (n d : Z) : Z :=
  let q := n / d in
  let r := n mod d in
  match (2 * r ?= d) with
  | Lt => q
  | Gt => q + 1
  | Eq => if Z.even q then q else q + 1
  end.

(** The exact value [m * 2^e] times [scale], rounded to an integer. *)
Definition scaled_round (scale : Z) (m : positive) (e : Z) : Z :=
  if 0 <=? e then Zpos m * scale * 2 ^ e
  else round_half_even (Zpos m * scale) (2 ^ (- e)).

Definition sign_str (s : bool) : string := if s then "-" else "".

(** [format(x, '.1f')] for a float: the exact binary value correctly
    rounded to one decimal, ties to even; the sign is the float's sign bit. *)
Definition format_float_1f (f : spec_float) : string :=
  match f with
  | S754_zero s => sign_str s ++ "0.0"
  | S754_infinity s => sign_str s ++ "inf"
  | S754_nan => "nan"
  | S754_finite s m e =>
      let q := scaled_round 10 m e in
      sign_str s ++ str_int (q / 10) ++ "." ++ str_int (q mod 10)
  end.

(** [int -> float] conversion, raising [OverflowError] when too large. *)
Definition float_of_int (i : Z) : result spec_float :=
  match binary_normalize prec emax i 0 false with
  | S754_infinity _ => Raise OverflowError
  | f => Ok f
  end.

(** [f"{v:.1f}"]: numbers are formatted as floats, anything else is
    refused by [format] ([LibraryError "format"] stands for the
    [ValueError] or [TypeError] it raises). *)
Definition format_1f (v : value) : result string :=
  match v with
  | PyFloat f => Ok (format_float_1f f)
  | PyInt i => rbind (float_of_int i) (fun f => Ok (format_float_1f f))
  | PyBool b => Ok (if b then "1.0" else "0.0")
  | _ => Raise (LibraryError "format")
  end.

(** Case mapping of the ASCII letters. *)
Definition upper (c : ascii) : ascii :=
  let n := nat_of_ascii c in
  if (97 <=? n)%nat && (n <=? 122)%nat then ascii_of_nat (n - 32) else c.

Definition lower (c : ascii) : ascii :=
  let n := nat_of_ascii c in
  if (65 <=? n)%nat && (n <=? 90)%nat then ascii_of_nat (n + 32) else c.

Fixpoint lowercase (s : string) : string :=
  match s with
  | EmptyString => EmptyString
  | String c s' => String (lower c) (lowercase s')
  end.

(** Text within ASCII: every byte is below 128. *)
Fixpoint is_ascii (s : string) : bool :=
  match s with
  | EmptyString => true
  | String c s' => (nat_of_ascii c <? 128)%nat && is_ascii s'
  end.

(** [str.capitalize()] on ASCII text: first character upper-cased, the
    rest lower-cased. *)
Definition capitalize_str (s : string) : string :=
  match s with
  | EmptyString => EmptyString
  | String c s' => String (upper c) (lowercase s')
  end.

(** [v.capitalize()]: only strings have the method.  Text with a
    character outside ASCII is re-cased by Unicode's tables, which
    [capitalize_text] stands for. *)
Definition capitalize (capitalize_text : string -> string) (v : value)
  : result string :=
  match v with
  | PyStr s => Ok (if is_ascii s then capitalize_str s else capitalize_text s)
  | _ => Raise (AttributeError "capitalize")
  end.

End Builtins.

(** ** Naive local datetimes *)

Module Datetime.
Import Py Builtins.

(** A naive [datetime] is the number of microseconds on the local wall
    clock since 1970-01-01 00:00:00; [<=] on datetimes is [<=] on these. *)
Definition datetime : Type := Z.

(** [timedelta(days=d)]. *)
Definition timedelta_days (d : Z) : Z := d * 86400 * 1000000.

(** Local seconds of 0001-01-01 00:00:00 and 9999-12-31 23:59:59. *)
Definition min_seconds : Z := -62135596800.
Definition max_seconds : Z := 253402300799.

Section LocalTime.

(** The local zone: seconds east of UTC in force at a POSIX time. *)
Variable utcoffset : Z -> Z.

(** The local wall clock, in seconds, at a POSIX time; a [datetime] can
    hold it when its year is within 1..9999. *)
Definition local (sec : Z) : Z := sec + utcoffset sec.

Definition in_range (wall : Z) : bool :=
  (min_seconds <=? wall) && (wall <=? max_seconds).

(** To detect a repeated hour [fromtimestamp] also converts the time one
    day earlier and, when the offset has gone down since then, the time
    of the transition; each conversion must be in range, so the first day
    of year 1 is refused. *)
Definition max_fold_seconds : Z := 24 * 3600.

Definition of_timeval (sec us : Z) : result datetime :=
  let wall := local sec in
  let probe := local (sec - max_fold_seconds) in
  let transition := wall - probe - max_fold_seconds in
  if in_range wall && in_range probe
     && (if transition <? 0 then in_range (local (sec + transition)) else true)
  then Ok (wall * 1000000 + us)
  else Raise TimestampError.

(** A finite float split into whole seconds and microseconds: [modf], the
    fraction multiplied by [1e6] in double arithmetic, rounded half-even,
    then normalised into [0, 10^6). *)
Definition timeval_of_float (s : bool) (m : positive) (e : Z) : Z * Z :=
  let d := 2 ^ (- e) in
  let whole := if 0 <=? e then Zpos m * 2 ^ e else Zpos m / d in
  let frac :=
    if 0 <=? e then S754_zero s
    else binary_normalize prec emax (cond_Zopp s (Zpos m mod d)) e s in
  let scaled := SFmul prec emax frac (binary_normalize prec emax 1000000 0 false) in
  let us :=
    match scaled with
    | S754_finite s' m' e' => cond_Zopp s' (scaled_round 1 m' e')
    | _ => 0
    end in
  let sec := cond_Zopp s whole in
  if 1000000 <=? us then (sec + 1, us - 1000000)
  else if us <? 0 then (sec - 1, us + 1000000)
  else (sec, us).

(** [datetime.fromtimestamp(v)]. *)
Definition fromtimestamp (v : value) : result datetime :=
  match v with
  | PyInt t => of_timeval t 0
  | PyBool b => of_timeval (if b then 1 else 0) 0
  | PyFloat (S754_zero _) => of_timeval 0 0
  | PyFloat (S754_finite s m e) =>
      let '(sec, us) := timeval_of_float s m e in of_timeval sec us
  | PyFloat _ => Raise TimestampError
  | _ => Raise TypeError
  end.

End LocalTime.
End Datetime.

(** ** The outside world and the state monad *)

Module Runtime.
Import Py Builtins Datetime.

(** What one HTTP GET can come to: a response with a status code and a
    body ([json = None] when the body is not valid JSON, so that
    [response.json()] raises), or no response at all ([requests.get]
    raises). *)
Inductive http_outcome : Type :=
| Response (status_code : Z) (json : option value)
| NoResponse.

(** A record built by [prepare_data], and the table row made from it.  A
    frame is the list of its rows, in the order of the records it was
    built from.  The fields are those of the record; pandas gives each
    column one type and may convert the cells of a row accordingly (an
    integer beside floats or [None] becomes a float, [None] becomes NaN):
    that conversion is not modelled, and the statements about tables
    speak of which rows there are, their order, city and timestamp, and of
    what the report makes of a cell, not of the value a cell took from its
    payload. *)
Record WeatherRecord : Type := {
  city : string;
  temperature : value;
  feels_like : value;
  humidity : value;
  pressure : value;
  wind_speed : value;
  description : value;
  timestamp : datetime
}.

Record ForecastRecord : Type := {
  slot : WeatherRecord;
  forecast_time : value
}.

(** What a figure is drawn from, and what a written file holds.  The
    plotting libraries are not modelled beyond the data handed to them. *)
Inductive figure : Type :=
| TemperatureComparison (data : list WeatherRecord)
| ForecastTrends (series : list (string * list ForecastRecord))
| WeatherParameters (params : list string) (data : list WeatherRecord).

Inductive content : Type :=
| Text (s : string)
| Image (f : figure)
| CsvCurrent (rows : list WeatherRecord)
| CsvForecast (rows : list ForecastRecord)
| JsonRecords (rows : list WeatherRecord).

(** The world outside the process.  [net n url] is the outcome of the
    request for [url] issued when [n] requests have been sent before it, so
    a server may answer the same URL differently at different times;
    [clock n] is what the [n]-th call of [datetime.now()] returns;
    [environ] is the environment after [load_dotenv()];
    [fs_error path] tells whether creating or writing [path] fails;
    [files] are the files written in full, oldest first: a write that
    fails adds nothing to the list, whatever it leaves on disk (a file
    opened for writing exists, empty or partial, also when the write
    fails). *)
Record World : Type := {
  net : nat -> string -> http_outcome;
  sent : list string;
  stdout : list string;
  clock : nat -> datetime;
  clock_reads : nat;
  environ : list (string * string);
  fs_error : string -> option exn;
  files : list (string * content)
}.

Definition with_sent (w : World) (l : list string) : World :=
  {| net := net w; sent := l; stdout := stdout w; clock := clock w;
     clock_reads := clock_reads w; environ := environ w;
     fs_error := fs_error w; files := files w |}.

Definition with_stdout (w : World) (l : list string) : World :=
  {| net := net w; sent := sent w; stdout := l; clock := clock w;
     clock_reads := clock_reads w; environ := environ w;
     fs_error := fs_error w; files := files w |}.

Definition with_clock_reads (w : World) (n : nat) : World :=
  {| net := net w; sent := sent w; stdout := stdout w; clock := clock w;
     clock_reads := n; environ := environ w;
     fs_error := fs_error w; files := files w |}.

Definition with_files (w : World) (l : list (string * content)) : World :=
  {| net := net w; sent := sent w; stdout := stdout w; clock := clock w;
     clock_reads := clock_reads w; environ := environ w;
     fs_error := fs_error w; files := l |}.

(** State and exceptions: an action maps a state to an outcome and the
    state it leaves behind, also when it raises. *)
Definition M (S A : Type) : Type := S -> result A * S.

Definition ret {S A} (a : A) : M S A := fun s => (Ok a, s).

Definition bind {S A B} (m : M S A) (k : A -> M S B) : M S B :=
  fun s =>
    match m s with
    | (Ok a, s') => k a s'
    | (Raise e, s') => (Raise e, s')
    end.

Definition raise {S A} (e : exn) : M S A := fun s => (Raise e, s).

Definition lift {S A} (r : result A) : M S A := fun s => (r, s).

Definition gets {S A} (f : S -> A) : M S A := fun s => (Ok (f s), s).

Definition modify {S} (f : S -> S) : M S unit := fun s => (Ok tt, f s).

Declare Scope monad_scope.
Delimit Scope monad_scope with monad.
Notation "x <- c1 ;; c2" := (bind c1 (fun x => c2))
  (at level 61, c1 at next level, right associativity) : monad_scope.
Notation "c1 ;; c2" := (bind c1 (fun _ => c2))
  (at level 61, right associativity) : monad_scope.

(** [for a in l: body(a)]. *)
Fixpoint for_each {S A} (l : list A) (body : A -> M S unit) : M S unit :=
  match l with
  | [] => ret tt
  | a :: l' => bind (body a) (fun _ => for_each l' body)
  end.

End Runtime.

(** ** The class [WeatherDashboard] *)

Module Dashboard.
Import Py Builtins Datetime Runtime.
Local Open Scope monad_scope.

(** The object's attributes.  [forecast_data], [current_df] and
    [forecast_df] are not set by [__init__]: reading one before the method
    that assigns it raises [AttributeError], hence the options. *)
Record WeatherDashboard : Type := {
  api_key : string;
  base_url : string;
  cities : list string;
  weather_data : list (string * value);
  forecast_data : option (list (string * value));
  current_df : option (list WeatherRecord);
  forecast_df : option (list ForecastRecord)
}.

(** A running method: the object it is called on, and the world. *)
Record Process : Type := {
  self : WeatherDashboard;
  world : World
}.

Definition on_self (f : WeatherDashboard -> WeatherDashboard) (p : Process)
  : Process := {| self := f (self p); world := world p |}.

Definition on_world (f : World -> World) (p : Process) : Process :=
  {| self := self p; world := f (world p) |}.

Definition set_cities (l : list string) (d : WeatherDashboard) :=
  {| api_key := api_key d; base_url := base_url d; cities := l;
     weather_data := weather_data d; forecast_data := forecast_data d;
     current_df := current_df d; forecast_df := forecast_df d |}.

Definition set_weather_data (m : list (string * value)) (d : WeatherDashboard) :=
  {| api_key := api_key d; base_url := base_url d; cities := cities d;
     weather_data := m; forecast_data := forecast_data d;
     current_df := current_df d; forecast_df := forecast_df d |}.

Definition set_forecast_data (m : list (string * value)) (d : WeatherDashboard) :=
  {| api_key := api_key d; base_url := base_url d; cities := cities d;
     weather_data := weather_data d; forecast_data := Some m;
     current_df := current_df d; forecast_df := forecast_df d |}.

Definition set_current_df (t : list WeatherRecord) (d : WeatherDashboard) :=
  {| api_key := api_key d; base_url := base_url d; cities := cities d;
     weather_data := weather_data d; forecast_data := forecast_data d;
     current_df := Some t; forecast_df := forecast_df d |}.

Definition set_forecast_df (t : list ForecastRecord) (d : WeatherDashboard) :=
  {| api_key := api_key d; base_url := base_url d; cities := cities d;
     weather_data := weather_data d; forecast_data := forecast_data d;
     current_df := current_df d; forecast_df := Some t |}.

(** Reading an attribute that may not have been assigned yet. *)
Definition getattr {A} (name : string) (f : WeatherDashboard -> option A)
  : M Process A :=
  fun p =>
    match f (self p) with
    | Some a => (Ok a, p)
    | None => (Raise (AttributeError name), p)
    end.

(** [print(line)]. *)
Definition print {S} (out : (World -> World) -> S -> S) (line : string)
  : M S unit :=
  modify (out (fun w => with_stdout w (stdout w ++ [line]))).

(** [requests.get(url)]: the request is logged, the network answers. *)
Definition requests_get (url : string) : M Process (Z * option value) :=
  fun p =>
    let w := world p in
    let p' := on_world (fun w => with_sent w (sent w ++ [url])) p in
    match net w (List.length (sent w)) url with
    | Response status body => (Ok (status, body), p')
    | NoResponse => (Raise ConnectionError, p')
    end.

(** [response.json()]. *)
Definition response_json {S} (body : option value) : M S value :=
  match body with
  | Some v => ret v
  | None => raise JSONDecodeError
  end.

(** [datetime.now()]. *)
Definition datetime_now : M Process datetime :=
  fun p =>
    let w := world p in
    (Ok (clock w (clock_reads w)),
     on_world (fun w => with_clock_reads w (S (clock_reads w))) p).

(** Opening [path] for writing and writing [c] to it: on success the
    file is added to those written in full. *)
Definition write_file {S} (get : S -> World) (out : (World -> World) -> S -> S)
  (path : string) (c : content) : M S unit :=
  fun s =>
    match fs_error (get s) path with
    | Some e => (Raise e, s)
    | None => (Ok tt, out (fun w => with_files w (files w ++ [(path, c)])) s)
    end.

Definition nl : string := String (ascii_of_nat 10) EmptyString.

(** [add_city]. *)
Definition add_city (city_name : string) : M Process unit :=
  modify (on_self (fun d => set_cities (cities d ++ [city_name]) d)).

Definition weather_url (d : WeatherDashboard) (c : string) : string :=
  base_url d ++ "/weather?q=" ++ c ++ "&appid=" ++ api_key d ++ "&units=metric".

Definition forecast_url (d : WeatherDashboard) (c : string) : string :=
  base_url d ++ "/forecast?q=" ++ c ++ "&appid=" ++ api_key d ++ "&units=metric".

(** The body of the loop of [fetch_current_weather], for one city. *)
Definition fetch_current_weather_step (c : string) : M Process unit :=
  url <- gets (fun p => weather_url (self p) c) ;;
  r <- requests_get url ;;
  if fst r =? 200 then
    data <- response_json (snd r) ;;
    modify (on_self (fun d => set_weather_data (setitem c data (weather_data d)) d))
  else
    print on_world ("Error fetching data for " ++ c ++ ": " ++ str_int (fst r)).

(** [fetch_current_weather]. *)
Definition fetch_current_weather : M Process unit :=
  cs <- gets (fun p => cities (self p)) ;;
  for_each cs fetch_current_weather_step.

(** The body of the loop of [fetch_forecast], for one city. *)
Definition fetch_forecast_step (c : string) : M Process unit :=
  url <- gets (fun p => forecast_url (self p) c) ;;
  r <- requests_get url ;;
  if fst r =? 200 then
    data <- response_json (snd r) ;;
    fd <- getattr "forecast_data" forecast_data ;;
    modify (on_self (set_forecast_data (setitem c data fd)))
  else
    print on_world ("Error fetching forecast for " ++ c ++ ": " ++ str_int (fst r)).

(** [fetch_forecast]; the parameter [days] is accepted and not used. *)
Definition fetch_forecast (days : value) : M Process unit :=
  modify (on_self (set_forecast_data [])) ;;
  cs <- gets (fun p => cities (self p)) ;;
  for_each cs fetch_forecast_step.

Notation "'let?' x ':=' e 'in' k" := (rbind e (fun x => k))
  (at level 10, x name, e at level 100, k at level 200).

Section Transform.

Variable utcoffset : Z -> Z.

(** The record built from one payload: the fields are read in the order
    of the [dict] display in [prepare_data], so the first missing one
    decides the exception. *)
Definition weather_record (c : string) (data : value) : result WeatherRecord :=
  let? temp := getpath data [KStr "main"; KStr "temp"] in
  let? feels := getpath data [KStr "main"; KStr "feels_like"] in
  let? hum := getpath data [KStr "main"; KStr "humidity"] in
  let? pres := getpath data [KStr "main"; KStr "pressure"] in
  let? wind := getpath data [KStr "wind"; KStr "speed"] in
  let? desc := getpath data [KStr "weather"; KInt 0; KStr "description"] in
  let? dt := getpath data [KStr "dt"] in
  let? ts := fromtimestamp utcoffset dt in
  Ok {| city := c; temperature := temp; feels_like := feels;
        humidity := hum; pressure := pres; wind_speed := wind;
        description := desc; timestamp := ts |}.

Definition forecast_record (c : string) (item : value) : result ForecastRecord :=
  let? r := weather_record c item in
  let? ft := getpath item [KStr "dt_txt"] in
  Ok {| slot := r; forecast_time := ft |}.

(** The first loop of [prepare_data]. *)
Definition current_weather_records (wd : list (string * value))
  : result (list WeatherRecord) :=
  mapM (fun cd => weather_record (fst cd) (snd cd)) wd.

(** The inner loop of the second: the records of one city. *)
Definition city_forecast_records (c : string) (data : value)
  : result (list ForecastRecord) :=
  let? l := getpath data [KStr "list"] in
  let? items := iter l in
  mapM (forecast_record c) items.

Definition forecast_records (fd : list (string * value))
  : result (list ForecastRecord) :=
  let? per_city := mapM (fun cd => city_forecast_records (fst cd) (snd cd)) fd in
  Ok (List.concat per_city).

(** [prepare_data]. *)
Definition prepare_data : M Process unit :=
  wd <- gets (fun p => weather_data (self p)) ;;
  current_weather_records_ <- lift (current_weather_records wd) ;;
  modify (on_self (set_current_df current_weather_records_)) ;;
  fd <- getattr "forecast_data" forecast_data ;;
  forecast_records_ <- lift (forecast_records fd) ;;
  modify (on_self (set_forecast_df forecast_records_)).

End Transform.

(** Selecting a column of a frame: a frame built from an empty list of
    records has no columns at all. *)
Definition column {A} (name : string) (df : list A) : result (list A) :=
  match df with
  | [] => Raise (KeyError (KStr name))
  | _ => Ok df
  end.

(** The data of the forecast trend chart: the rows not later than
    [now + 5 days], and of these one selection per tracked city. *)
Definition forecast_trend_series (cs : list string) (df : list ForecastRecord)
  (now : datetime) : result (list (string * list ForecastRecord)) :=
  let end_date := now + timedelta_days 5 in
  let? _ := column "timestamp" df in
  let filtered_df := filter (fun r => timestamp (slot r) <=? end_date) df in
  Ok (map (fun c =>
             (c, filter (fun r => String.eqb (city (slot r)) c) filtered_df))
          cs).

Section Rendering.

(** The plotting libraries: whether drawing a figure raises. *)
Variable render_error : figure -> option exn.

Definition savefig (path : string) (fig : figure) : M Process unit :=
  match render_error fig with
  | Some e => raise e
  | None => write_file world on_world path (Image fig)
  end.

(** [visualize_temperature_comparison]. *)
Definition visualize_temperature_comparison : M Process unit :=
  df <- getattr "current_df" current_df ;;
  savefig "output/temperature_comparison.png" (TemperatureComparison df).

(** [visualize_forecast_trends]. *)
Definition visualize_forecast_trends : M Process unit :=
  now <- datetime_now ;;
  df <- getattr "forecast_df" forecast_df ;;
  cs <- gets (fun p => cities (self p)) ;;
  series <- lift (forecast_trend_series cs df now) ;;
  savefig "output/forecast_trends.png" (ForecastTrends series).

(** [visualize_weather_parameters]. *)
Definition visualize_weather_parameters : M Process unit :=
  let params := ["temperature"; "humidity"; "wind_speed"; "pressure"] in
  df <- getattr "current_df" current_df ;;
  savefig "output/weather_parameters.png" (WeatherParameters params df).

End Rendering.

Section Reporting.

(** [str(v)] for a table cell, [str.capitalize()] on text outside ASCII,
    and [strftime('%Y-%m-%d %H:%M:%S')]. *)
Variable py_str : value -> string.
Variable capitalize_text : string -> string.
Variable strftime : datetime -> string.

(** The text one row adds to the report. *)
Definition report_section (row : WeatherRecord) : result string :=
  let? t := format_1f (temperature row) in
  let? f := format_1f (feels_like row) in
  let? d := capitalize capitalize_text (description row) in
  Ok ("## " ++ city row ++ nl ++ nl ++
      "- **Temperature**: " ++ t ++ "°C (Feels like: " ++ f ++ "°C)" ++ nl ++
      "- **Description**: " ++ d ++ nl ++
      "- **Humidity**: " ++ py_str (humidity row) ++ "%" ++ nl ++
      "- **Wind Speed**: " ++ py_str (wind_speed row) ++ " m/s" ++ nl ++
      "- **Pressure**: " ++ py_str (pressure row) ++ " hPa" ++ nl ++ nl).

Definition report_header (now : datetime) : string :=
  "# Current Weather Report" ++ nl ++ nl ++
  "Generated on: " ++ strftime now ++ nl ++ nl.

Definition report_text (df : list WeatherRecord) (now : datetime)
  : result string :=
  let? sections := mapM report_section df in
  Ok (report_header now ++ String.concat "" sections).

(** [create_weather_report]. *)
Definition create_weather_report : M Process unit :=
  now <- datetime_now ;;
  df <- getattr "current_df" current_df ;;
  report <- lift (report_text df now) ;;
  write_file world on_world "output/weather_report.md" (Text report) ;;
  print on_world "Report generated: output/weather_report.md".

End Reporting.

(** [export_data]. *)
Definition export_data : M Process unit :=
  cur <- getattr "current_df" current_df ;;
  write_file world on_world "output/current_weather.csv" (CsvCurrent cur) ;;
  fc <- getattr "forecast_df" forecast_df ;;
  write_file world on_world "output/forecast_weather.csv" (CsvForecast fc) ;;
  cur' <- getattr "current_df" current_df ;;
  write_file world on_world "output/current_weather.json" (JsonRecords cur').

End Dashboard.

(** ** The workflow and the entry point *)

Module Main.
Import Py Builtins Datetime Runtime Dashboard.
Local Open Scope monad_scope.

(** What [parser.parse_args()] comes to: a namespace, or [SystemExit]
    raised by argparse itself with status 2 after a usage error (its
    message goes to standard error, which the world does not hold). *)
Inductive parsed : Type :=
| Namespace (cities : list string) (api_key : option string)
| SystemExit (code : Z).

Inductive token : Type :=
| TCities
| TApiKey
| TValue (v : string)
| TUnknown.

Fixpoint has_char (c : ascii) (s : string) : bool :=
  match s with
  | EmptyString => false
  | String c' s' => Ascii.eqb c c' || has_char c s'
  end.

(** How argparse reads one command-line word for this parser.  The model
    covers the words below and answers [None] for the others ([-h] and
    [--help], whose output is argparse's; other single-dash words,
    abbreviated options, [--opt=value], the [--] separator, dash-words
    with blanks):
    - the option strings [--cities] and [--api-key];
    - a word that is empty or does not start with [-]: an argument;
    - a word starting with [--] that no option string starts with and that
      has neither [=] nor a blank: an unrecognised option. *)
Definition classify (t : string) : option token :=
  if String.eqb t "--cities" then Some TCities
  else if String.eqb t "--api-key" then Some TApiKey
  else if String.eqb t "-h" || String.eqb t "--help" then None
  else if negb (String.prefix "-" t) then Some (TValue t)
  else if String.prefix "--" t
          && negb (String.prefix t "--cities")
          && negb (String.prefix t "--api-key")
          && negb (String.prefix t "--help")
          && negb (has_char "="%char t)
          && negb (has_char " "%char t)
       then Some TUnknown
  else None.

Fixpoint classify_all (argv : list string) : option (list token) :=
  match argv with
  | [] => Some []
  | t :: argv' =>
      match classify t, classify_all argv' with
      | Some k, Some ks => Some (k :: ks)
      | _, _ => None
      end
  end.

(** What the scan is doing: between options, collecting the values of
    [--cities] ([nargs='+']), or waiting for the value of [--api-key]. *)
Inductive mode : Type :=
| Idle
| InCities (acc : list string)
| WantKey.

Definition default_cities : list string :=
  ["Moscow"; "Saint Petersburg"; "Novosibirsk"; "Yekaterinburg"; "Kazan"].

(** The scan.  Words that no option consumes are left over ([extras]) and
    make the parse fail at the end. *)
Fixpoint scan (ts : list token) (m : mode) (cs : list string)
  (k : option string) (extras : bool) : parsed :=
  match ts with
  | [] =>
      match m with
      | InCities [] => SystemExit 2
      | WantKey => SystemExit 2
      | InCities acc => if extras then SystemExit 2 else Namespace acc k
      | Idle => if extras then SystemExit 2 else Namespace cs k
      end
  | t :: ts' =>
      match m, t with
      | WantKey, TValue v => scan ts' Idle cs (Some v) extras
      | WantKey, _ => SystemExit 2
      | InCities acc, TValue v => scan ts' (InCities (acc ++ [v])) cs k extras
      | InCities [], _ => SystemExit 2
      | InCities acc, TCities => scan ts' (InCities []) acc k extras
      | InCities acc, TApiKey => scan ts' WantKey acc k extras
      | InCities acc, TUnknown => scan ts' Idle acc k true
      | Idle, TCities => scan ts' (InCities []) cs k extras
      | Idle, TApiKey => scan ts' WantKey cs k extras
      | Idle, TValue _ => scan ts' Idle cs k true
      | Idle, TUnknown => scan ts' Idle cs k true
      end
  end.

(** [parser.parse_args()] on the words after the program name. *)
Definition parse_args (argv : list string) : option parsed :=
  match classify_all argv with
  | Some ts => Some (scan ts Idle default_cities None false)
  | None => None
  end.

Definition missing_key_message : string :=
  "API key is required. Set OPENWEATHER_API_KEY environment variable or pass it as an argument.".

(** [x or y] on optional strings: [None] and the empty string are false. *)
Definition or_else (x y : option string) : option string :=
  match x with
  | Some (String _ _) => x
  | _ => y
  end.

(** [WeatherDashboard.__init__]. *)
Definition init (api_key : option string) : M World WeatherDashboard :=
  fun w =>
    match or_else api_key (lookup "OPENWEATHER_API_KEY" (environ w)) with
    | Some (String c k) =>
        match fs_error w "output" with
        | Some e => (Raise e, w)
        | None =>
            (Ok {| Dashboard.api_key := String c k;
                   base_url := "https://api.openweathermap.org/data/2.5";
                   Dashboard.cities := [];
                   weather_data := [];
                   forecast_data := None;
                   current_df := None;
                   forecast_df := None |}, w)
        end
    | _ => (Raise (ValueError missing_key_message), w)
    end.

Section Workflow.

Variable utcoffset : Z -> Z.
Variable render_error : figure -> option exn.
Variable py_str : value -> string.
Variable capitalize_text : string -> string.
Variable strftime : datetime -> string.

(** [str(e)] for the exceptions whose text the interpreter or a library
    composes. *)
Variable exn_message : exn -> string.

(** [run_dashboard]. *)
Definition run_dashboard : M Process unit :=
  fetch_current_weather ;;
  fetch_forecast (PyInt 5) ;;
  prepare_data utcoffset ;;
  visualize_temperature_comparison render_error ;;
  visualize_forecast_trends render_error ;;
  visualize_weather_parameters render_error ;;
  create_weather_report py_str capitalize_text strftime ;;
  export_data ;;
  print on_world "Dashboard generated successfully!" ;;
  print on_world "Check the 'output' directory for all visualizations and reports.".

(** Running a method on an object from code that only holds the world. *)
Definition call {A} (d : WeatherDashboard) (m : M Process A)
  : M World (A * WeatherDashboard) :=
  fun w =>
    match m {| self := d; world := w |} with
    | (Ok a, p) => (Ok (a, self p), world p)
    | (Raise e, p) => (Raise e, world p)
    end.

(** The body of the [try] block in [main]. *)
Definition main_try (cs : list string) (k : option string) : M World unit :=
  dashboard <- init k ;;
  r <- call dashboard (for_each cs add_city) ;;
  _ <- call (snd r) run_dashboard ;;
  ret tt.

Definition str_exn (e : exn) : string :=
  match e with
  | ValueError msg => msg
  | KeyError (KStr s) => "'" ++ s ++ "'"
  | KeyError (KInt i) => str_int i
  | _ => exn_message e
  end.

(** The [except Exception as e] handler. *)
Definition main_except (e : exn) : M World unit :=
  print (fun f w => f w) ("Error: " ++ str_exn e) ;;
  print (fun f w => f w) (nl ++ "To use this dashboard:") ;;
  print (fun f w => f w) "1. Get a free API key from https://openweathermap.org/" ;;
  print (fun f w => f w) "2. Set it as an environment variable OPENWEATHER_API_KEY or pass it with --api-key" ;;
  print (fun f w => f w) "3. Run the script again".

(** [main], from the parsed command line on: the exit status of the
    process and the world it leaves. *)
Definition main_parsed (args : parsed) (w : World) : Z * World :=
  match args with
  | SystemExit code => (code, w)
  | Namespace cs k =>
      match main_try cs k w with
      | (Ok _, w') => (0, w')
      | (Raise e, w') => (0, snd (main_except e w'))
      end
  end.

(** [main] on a command line of the modelled form. *)
Definition main (argv : list string) (w : World) : option (Z * World) :=
  match parse_args argv with
  | Some args => Some (main_parsed args w)
  | None => None
  end.

End Workflow.
End Main.

(** ** Vocabulary of the statements *)

Module Spec.
Import Py Builtins Datetime Runtime Dashboard.

(** The exchanges of one fetch loop that runs to its end: each city of
    the list with the outcome of its request, the first request being the
    [n]-th that the process sends. *)
Fixpoint exchanges (net : nat -> string -> http_outcome) (n : nat)
  (url : string -> string) (cs : list string) : list (string * http_outcome) :=
  match cs with
  | [] => []
  | c :: cs' => (c, net n (url c)) :: exchanges net (S n) url cs'
  end.

Definition weather_exchanges (p : Process) : list (string * http_outcome) :=
  exchanges (net (world p)) (List.length (sent (world p)))
            (weather_url (self p)) (cities (self p)).

Definition forecast_exchanges (p : Process) : list (string * http_outcome) :=
  exchanges (net (world p)) (List.length (sent (world p)))
            (forecast_url (self p)) (cities (self p)).

(** The error lines of the two fetchers. *)
Definition weather_error_line (c : string) (status : Z) : string :=
  "Error fetching data for " ++ c ++ ": " ++ str_int status.

Definition forecast_error_line (c : string) (status : Z) : string :=
  "Error fetching forecast for " ++ c ++ ": " ++ str_int status.

(** A fetch loop replayed on its exchanges: the outcome, the mapping, the
    lines printed and the number of requests sent.  The loop stops at the
    first request without a response and at the first 200 response whose
    body is not JSON. *)
Fixpoint replay (line : string -> Z -> string)
  (xs : list (string * http_outcome)) (d : list (string * value))
  : result unit * list (string * value) * list string * nat :=
  match xs with
  | [] => (Ok tt, d, [], O)
  | (c, NoResponse) :: _ => (Raise ConnectionError, d, [], 1%nat)
  | (c, Response status body) :: xs' =>
      if status =? 200 then
        match body with
        | None => (Raise JSONDecodeError, d, [], 1%nat)
        | Some v =>
            let '(r, d', out, k) := replay line xs' (setitem c v d) in
            (r, d', out, S k)
        end
      else
        let '(r, d', out, k) := replay line xs' d in
        (r, d', line c status :: out, S k)
  end.

(** Some request for [c] was answered with status 200. *)
Definition answered_200 (xs : list (string * http_outcome)) (c : string) : Prop :=
  exists body, In (c, Response 200 body) xs.

(** Some request for [c] was answered with another status. *)
Definition answered_other (xs : list (string * http_outcome)) (c : string) : Prop :=
  exists status body, In (c, Response status body) xs /\ status <> 200.

(** The request was answered, and with JSON if the status is 200: the
    loop goes on after it. *)
Definition usable (o : http_outcome) : bool :=
  match o with
  | NoResponse => false
  | Response status body =>
      if status =? 200 then
        match body with Some _ => true | None => false end
      else true
  end.

(** The payloads that a loop running to its end stores, in request order. *)
Fixpoint payloads (xs : list (string * http_outcome)) : list (string * value) :=
  match xs with
  | [] => []
  | (c, Response status (Some v)) :: xs' =>
      if status =? 200 then (c, v) :: payloads xs' else payloads xs'
  | _ :: xs' => payloads xs'
  end.

(** Rows of a table that belong to a city. *)
Definition rows_of (c : string) (df : list WeatherRecord) : list WeatherRecord :=
  filter (fun r => String.eqb (city r) c) df.

Definition forecast_rows_of (c : string) (df : list ForecastRecord)
  : list ForecastRecord :=
  filter (fun r => String.eqb (city (slot r)) c) df.

(** [len(v)] for the values a [for] loop accepts. *)
Definition len (v : value) : option nat :=
  match v with
  | PyList l => Some (List.length l)
  | PyDict d => Some (List.length d)
  | PyStr s => Some (String.length s)
  | _ => None
  end.

(** [sub] occurs in [s]. *)
Definition occurs_in (sub s : string) : Prop :=
  exists pre post, s = pre ++ sub ++ post.

(** The state a fetch loop leaves, given what its replay computes. *)
Definition after_weather_loop (p : Process) (cs : list string)
  (res : result unit * list (string * value) * list string * nat)
  : result unit * Process :=
  let '(r, d, out, k) := res in
  (r, {| self := set_weather_data d (self p);
         world := with_stdout
                    (with_sent (world p)
                       (sent (world p) ++ firstn k (map (weather_url (self p)) cs)))
                    (stdout (world p) ++ out) |}).

Definition after_forecast_loop (p : Process) (cs : list string)
  (res : result unit * list (string * value) * list string * nat)
  : result unit * Process :=
  let '(r, d, out, k) := res in
  (r, {| self := set_forecast_data d (self p);
         world := with_stdout
                    (with_sent (world p)
                       (sent (world p) ++ firstn k (map (forecast_url (self p)) cs)))
                    (stdout (world p) ++ out) |}).

(** The mapping after storing payloads in order. *)
Definition store (ps : list (string * value)) (d : list (string * value))
  : list (string * value) :=
  fold_left (fun acc cv => setitem (fst cv) (snd cv) acc) ps d.

(** The lines a loop running to its end prints. *)
Fixpoint error_lines (line : string -> Z -> string)
  (xs : list (string * http_outcome)) : list string :=
  match xs with
  | [] => []
  | (c, Response status _) :: xs' =>
      if status =? 200 then error_lines line xs'
      else line c status :: error_lines line xs'
  | _ :: xs' => error_lines line xs'
  end.

(** The object after [n] further calls of [prepare_data], whatever each
    call returns. *)
Definition rerun_prepare_data (utcoffset : Z -> Z) (n : nat) (p : Process)
  : Process :=
  Nat.iter n (fun q => snd (prepare_data utcoffset q)) p.

(** The process after one request was answered with a status that is not
    200: the request is logged and the line printed, the object is as it
    was. *)
Definition after_refusal (p : Process) (url line : string) : Process :=
  {| self := self p;
     world := with_stdout (with_sent (world p) (sent (world p) ++ [url]))
                          (stdout (world p) ++ [line]) |}.

(** The fields [prepare_data] reads from a current-weather payload, in
    the order in which it reads them, and from a forecast slot. *)
Definition weather_fields : list (list key) :=
  [[KStr "main"; KStr "temp"];
   [KStr "main"; KStr "feels_like"];
   [KStr "main"; KStr "humidity"];
   [KStr "main"; KStr "pressure"];
   [KStr "wind"; KStr "speed"];
   [KStr "weather"; KInt 0; KStr "description"];
   [KStr "dt"]].

Definition slot_fields : list (list key) :=
  (weather_fields ++ [[KStr "dt_txt"]])%list.

(** A field is present when the chain of subscripts finds a value. *)
Definition present (v : value) (path : list key) : Prop :=
  exists x, getpath v path = Ok x.

Definition has_fields (paths : list (list key)) (v : value) : Prop :=
  forall path, In path paths -> present v path.

(** [dt] is there and [datetime.fromtimestamp] converts it. *)
Definition timestamp_ok (utcoffset : Z -> Z) (v : value) : Prop :=
  exists dt ts, getpath v [KStr "dt"] = Ok dt /\ fromtimestamp utcoffset dt = Ok ts.

Definition complete_weather (utcoffset : Z -> Z) (v : value) : Prop :=
  has_fields weather_fields v /\ timestamp_ok utcoffset v.

Definition complete_slot (utcoffset : Z -> Z) (v : value) : Prop :=
  has_fields slot_fields v /\ timestamp_ok utcoffset v.

(** A forecast payload whose [list] can be iterated and whose slots are
    complete. *)
Definition complete_forecast (utcoffset : Z -> Z) (data : value) : Prop :=
  exists l items,
    getpath data [KStr "list"] = Ok l /\ iter l = Ok items /\
    forall item, In item items -> complete_slot utcoffset item.

(** A forecast payload without [list], or with a slot that lacks a field. *)
Definition forecast_field_missing (data : value) : Prop :=
  ~ present data [KStr "list"] \/
  exists l items item,
    getpath data [KStr "list"] = Ok l /\ iter l = Ok items /\
    In item items /\ ~ has_fields slot_fields item.

(** The exceptions of a failed subscript. *)
Definition subscript_error (e : exn) : Prop :=
  e = TypeError \/ e = IndexError \/ exists k, e = KeyError k.

(** The rows the forecast trend chart is drawn from: those of the series
    that [visualize_forecast_trends] hands to the plotting library. *)
Definition plotted (cs : list string) (df : list ForecastRecord)
  (now : datetime) (r : ForecastRecord) : Prop :=
  exists series c rows,
    forecast_trend_series cs df now = Ok series /\
    In (c, rows) series /\ In r rows.

(** What the handler of [main] prints for an exception whose text is [msg]. *)
Definition recovery_lines (msg : string) : list string :=
  ["Error: " ++ msg;
   nl ++ "To use this dashboard:";
   "1. Get a free API key from https://openweathermap.org/";
   "2. Set it as an environment variable OPENWEATHER_API_KEY or pass it with --api-key";
   "3. Run the script again"].

(** Neither the argument nor the environment supplies a key. *)
Definition no_key (k : option string) (w : World) : Prop :=
  Main.or_else k (lookup "OPENWEATHER_API_KEY" (environ w)) = None \/
  Main.or_else k (lookup "OPENWEATHER_API_KEY" (environ w)) = Some "".

(** The exception that ends a fetch loop at an answer that is not
    [usable]. *)
Definition failure_of (o : http_outcome) : exn :=
  match o with
  | NoResponse => ConnectionError
  | Response _ _ => JSONDecodeError
  end.

(** The last payload that a list of stored payloads holds for a city. *)
Fixpoint last_payload (c : string) (ps : list (string * value)) : option value :=
  match ps with
  | [] => None
  | (c', v) :: ps' =>
      match last_payload c ps' with
      | Some x => Some x
      | None => if String.eqb c c' then Some v else None
      end
  end.

(** The names of [l] in the order of their first appearance, leaving out
    those in [seen]. *)
Fixpoint first_seen (seen : list string) (l : list string) : list string :=
  match l with
  | [] => []
  | x :: l' =>
      if existsb (String.eqb x) seen then first_seen seen l'
      else x :: first_seen (seen ++ [x]) l'
  end.

(** Every stored payload and every table row belongs to a tracked city,
    and no mapping holds a city twice. *)
Definition tracked (d : WeatherDashboard) : Prop :=
  NoDup (keys (weather_data d)) /\
  (forall c, In c (keys (weather_data d)) -> In c (cities d)) /\
  (forall fd, forecast_data d = Some fd ->
     NoDup (keys fd) /\ forall c, In c (keys fd) -> In c (cities d)) /\
  (forall df, current_df d = Some df ->
     forall r, In r df -> In (city r) (cities d)) /\
  (forall df, forecast_df d = Some df ->
     forall r, In r df -> In (city (slot r)) (cities d)).

(** A method keeps a property of the object, whether it returns or
    raises. *)
Definition preserves {A} (P : WeatherDashboard -> Prop) (m : M Process A) : Prop :=
  forall p, P (self p) -> P (self (snd (m p))).

(** The object that [__init__] builds around the key [k]. *)
Definition fresh (k : string) : WeatherDashboard :=
  {| api_key := k;
     base_url := "https://api.openweathermap.org/data/2.5";
     cities := [];
     weather_data := [];
     forecast_data := None;
     current_df := None;
     forecast_df := None |}.

(** The outcome of a method seen from code that only holds the world. *)
Definition outcome_of {A} (r : result A * Process) : result unit * World :=
  (match fst r with Ok _ => Ok tt | Raise e => Raise e end, world (snd r)).


(** [r] is the record that a loop of [prepare_data] builds for city [c]
    from the payload (or the forecast slot) [v]: each field holds what was
    read from [v], and the timestamp is [dt] converted. *)
Definition record_of_payload (utcoffset : Z -> Z) (c : string) (v : value)
  (r : WeatherRecord) : Prop :=
  city r = c /\
  getpath v [KStr "main"; KStr "temp"] = Ok (temperature r) /\
  getpath v [KStr "main"; KStr "feels_like"] = Ok (feels_like r) /\
  getpath v [KStr "main"; KStr "humidity"] = Ok (humidity r) /\
  getpath v [KStr "main"; KStr "pressure"] = Ok (pressure r) /\
  getpath v [KStr "wind"; KStr "speed"] = Ok (wind_speed r) /\
  getpath v [KStr "weather"; KInt 0; KStr "description"] = Ok (description r) /\
  exists dt, getpath v [KStr "dt"] = Ok dt /\
             fromtimestamp utcoffset dt = Ok (timestamp r).

Definition record_of_slot (utcoffset : Z -> Z) (c : string) (item : value)
  (r : ForecastRecord) : Prop :=
  record_of_payload utcoffset c item (slot r) /\
  getpath item [KStr "dt_txt"] = Ok (forecast_time r).

(** [rows] are the records of one city's forecast payload: one per item
    of its [list], in the order of the list. *)
Definition records_of_forecast (utcoffset : Z -> Z) (cd : string * value)
  (rows : list ForecastRecord) : Prop :=
  exists l items,
    getpath (snd cd) [KStr "list"] = Ok l /\ iter l = Ok items /\
    Forall2 (record_of_slot utcoffset (fst cd)) items rows.

(** The files of [export_data] and of a whole run, in the order in which
    they are written. *)
Definition export_paths : list string :=
  ["output/current_weather.csv";
   "output/forecast_weather.csv";
   "output/current_weather.json"].

Definition dashboard_paths : list string :=
  ("output/temperature_comparison.png" ::
   "output/forecast_trends.png" ::
   "output/weather_parameters.png" ::
   "output/weather_report.md" :: export_paths)%list.

Definition report_line : string := "Report generated: output/weather_report.md".

Definition success_lines : list string :=
  ["Dashboard generated successfully!";
   "Check the 'output' directory for all visualizations and reports."].

(** A method adds files to the end of the list of written files and
    changes none that is there: the files of [paths], in this order, up to
    the point where it stops; all of them if it returns. *)
Definition writes {A} (paths : list string) (m : M Process A) : Prop :=
  forall p, exists k new,
    (k <= List.length paths)%nat /\
    files (world (snd (m p))) = (files (world p) ++ new)%list /\
    map fst new = firstn k paths /\
    (is_ok (fst (m p)) = true -> k = List.length paths).

(** The forecast exchanges of a run: [fetch_forecast] starts when
    [fetch_current_weather] has sent one request per city. *)
Definition run_forecast_exchanges (p : Process) : list (string * http_outcome) :=
  exchanges (net (world p))
            (List.length (sent (world p)) + List.length (cities (self p)))
            (forecast_url (self p)) (cities (self p)).

(** What a step that sends no request adds to the world: lines printed,
    readings of the clock, and files at the end of those written. *)
Definition adds (p p' : Process) (out : list string) (ticks : nat)
  (new : list string) : Prop :=
  sent (world p') = sent (world p) /\
  stdout (world p') = (stdout (world p) ++ out)%list /\
  clock_reads (world p') = (clock_reads (world p) + ticks)%nat /\
  map fst (files (world p')) = (map fst (files (world p)) ++ new)%list.

(** The decimal text of [n / 10] with one decimal place. *)
Definition decimal_1 (n : Z) : string :=
  (if n <? 0 then "-" else "") ++
  str_int (Z.abs n / 10) ++ "." ++ str_int (Z.abs n mod 10).

(** The cell [v] holds the reading [n / 10]: a float decoded from a
    literal with one decimal place, or an integer. *)
Definition holds_tenths (v : value) (n : Z) : Prop :=
  v = PyFloat (float_lit n 1) \/ exists i, n = 10 * i /\ v = PyInt i.

(** A command-line word that does not start with a dash. *)
Definition plain (t : string) : bool := negb (String.prefix "-" t).

End Spec.

(** ** Sample data for the concrete runs *)

Module Examples.
Import Py Builtins Datetime Runtime Dashboard Spec.

(** UTC as the local zone. *)
Definition utc : Z -> Z := fun _ => 0.

(** A current-weather payload with the fields the program reads. *)
Definition weather_payload (dt : value) : value :=
  PyDict [("main", PyDict [("temp", PyFloat (float_lit 205 1));
                           ("feels_like", PyFloat (float_lit 198 1));
                           ("humidity", PyInt 60);
                           ("pressure", PyInt 1013)]);
          ("wind", PyDict [("speed", PyFloat (float_lit 32 1))]);
          ("weather", PyList [PyDict [("description", PyStr "clear sky")]]);
          ("dt", dt)].

(** A forecast slot at POSIX time [t], and a forecast payload. *)
Definition forecast_slot (t : Z) : value :=
  PyDict [("main", PyDict [("temp", PyFloat (float_lit 205 1));
                           ("feels_like", PyFloat (float_lit 198 1));
                           ("humidity", PyInt 60);
                           ("pressure", PyInt 1013)]);
          ("wind", PyDict [("speed", PyFloat (float_lit 32 1))]);
          ("weather", PyList [PyDict [("description", PyStr "clear sky")]]);
          ("dt", PyInt t);
          ("dt_txt", PyStr "2023-11-14 22:13:20")].

Definition forecast_payload (ts : list Z) : value :=
  PyDict [("list", PyList (map forecast_slot ts))].

Definition dashboard (cs : list string) : WeatherDashboard :=
  {| api_key := "k";
     base_url := "https://api.openweathermap.org/data/2.5";
     cities := cs;
     weather_data := [];
     forecast_data := None;
     current_df := None;
     forecast_df := None |}.

Definition world_of (answers : nat -> string -> http_outcome) : World :=
  {| net := answers;
     sent := [];
     stdout := [];
     clock := fun _ => 1700000000000000;
     clock_reads := 0;
     environ := [("OPENWEATHER_API_KEY", "k")];
     fs_error := fun _ => None;
     files := [] |}.

(** A server that answers every request with a complete payload. *)
Definition good_server : nat -> string -> http_outcome :=
  fun _ url =>
    if String.prefix "https://api.openweathermap.org/data/2.5/weather" url
    then Response 200 (Some (weather_payload (PyInt 1700000000)))
    else Response 200 (Some (forecast_payload [1700000000; 1700010800])).

(** A server that answers the first request of each kind and refuses the
    second with 404, as it may do for a city listed twice. *)
Definition flaky_server : nat -> string -> http_outcome :=
  fun n url =>
    if (Nat.eqb n 1 || Nat.eqb n 3)%bool then Response 404 None
    else good_server n url.

Definition twice_paris : Process :=
  {| self := dashboard ["Paris"; "Paris"]; world := world_of flaky_server |}.

(** The row of the report scenario. *)
Definition paris_row : WeatherRecord :=
  {| city := "Paris";
     temperature := PyFloat (float_lit 205 1);
     feels_like := PyFloat (float_lit 198 1);
     humidity := PyInt 60;
     pressure := PyInt 1013;
     wind_speed := PyFloat (float_lit 32 1);
     description := PyStr "clear sky";
     timestamp := 1700000000000000 |}.

(** Stand-ins for [str] on cells, for [str.capitalize] on text outside
    ASCII and for [strftime]. *)
Definition plain_str (v : value) : string :=
  match v with
  | PyInt i => str_int i
  | PyStr s => s
  | PyFloat f => format_float_1f f
  | _ => "None"
  end.

Definition no_recasing : string -> string := fun s => s.

Definition fixed_strftime : datetime -> string :=
  fun _ => "2023-11-14 22:13:20".

(** A world in which no key is configured. *)
Definition keyless_world : World :=
  {| net := good_server;
     sent := [];
     stdout := [];
     clock := fun _ => 1700000000000000;
     clock_reads := 0;
     environ := [];
     fs_error := fun _ => None;
     files := [] |}.

Definition paris_rome : Process :=
  {| self := dashboard ["Paris"; "Rome"]; world := world_of good_server |}.

(** Rome is refused with 404 by both endpoints. *)
Definition rome_refused : Process :=
  {| self := dashboard ["Paris"; "Rome"]; world := world_of flaky_server |}.

(** A server that answers the first request and refuses all later ones. *)
Definition server_going_down : nat -> string -> http_outcome :=
  fun n url => if Nat.eqb n 0 then good_server n url else Response 404 None.

(** A server whose current-weather payload has every field, with a text
    where the epoch number should be. *)
Definition text_time_server : nat -> string -> http_outcome :=
  fun n url =>
    if String.prefix "https://api.openweathermap.org/data/2.5/weather" url
    then Response 200 (Some (weather_payload (PyStr "soon")))
    else good_server n url.

Definition text_time : Process :=
  {| self := dashboard ["Paris"]; world := world_of text_time_server |}.

(** A server whose forecast reaches six days ahead of the clock of
    [world_of]. *)
Definition long_range_server : nat -> string -> http_outcome :=
  fun n url =>
    if String.prefix "https://api.openweathermap.org/data/2.5/weather" url
    then good_server n url
    else Response 200 (Some (forecast_payload [1700000000; 1700518400])).

(** A dashboard for Paris with the tables built from that server. *)
Definition long_range : Process :=
  snd (bind fetch_current_weather
         (fun _ => bind (fetch_forecast (PyInt 5)) (fun _ => prepare_data utc))
         {| self := dashboard ["Paris"]; world := world_of long_range_server |}).

(** A dashboard for Paris after a first, successful [fetch_current_weather]. *)
Definition after_first_call : Process :=
  snd (fetch_current_weather
         {| self := dashboard ["Paris"]; world := world_of server_going_down |}).

(** A server whose second answer has status 200 and a body that is not
    JSON. *)
Definition garbled_server : nat -> string -> http_outcome :=
  fun n url => if Nat.eqb n 1 then Response 200 None else good_server n url.

Definition three_cities : Process :=
  {| self := dashboard ["Paris"; "Rome"; "Oslo"]; world := world_of garbled_server |}.

(** Paris and Rome after both fetchers have run against [good_server]. *)
Definition fetched : Process :=
  snd (bind fetch_current_weather (fun _ => fetch_forecast (PyInt 5)) paris_rome).

(** Paris after [fetch_current_weather] against [text_time_server]. *)
Definition text_time_fetched : Process := snd (fetch_current_weather text_time).

(** Paris and Rome with both tables built. *)
Definition prepared : Process := snd (prepare_data utc fetched).

(** Paris after [fetch_current_weather] and a [prepare_data] that stopped
    at the missing [forecast_data]. *)
Definition half_prepared : Process := snd (prepare_data utc after_first_call).

(** A forecast row for Paris. *)
Definition paris_slot : ForecastRecord :=
  {| slot := paris_row; forecast_time := PyStr "2023-11-14 22:13:20" |}.

(** Paris on a dashboard whose [prepare_data] already ran, on no data: it
    assigned an empty current-weather table before it stopped at the
    missing [forecast_data]. *)
Definition stale_table : Process := snd (prepare_data utc text_time).

End Examples.

(** * Properties *)

(** ** Insertion-ordered dictionaries *)

Module DictFacts.
Import Py.

Lemma lookup_setitem_same {V} (k : string) (v : V) d :
  lookup k (setitem k v d) = Some v.
Proof.
  induction d as [|[k' v'] d IH]; simpl.
  - now rewrite String.eqb_refl.
  - destruct (String.eqb k k') eqn:E; simpl; rewrite E; auto.
Qed.

Lemma lookup_setitem_other {V} (k k0 : string) (v : V) d :
  k0 <> k -> lookup k0 (setitem k v d) = lookup k0 d.
Proof.
  intros Hne. induction d as [|[k' v'] d IH]; simpl.
  - apply String.eqb_neq in Hne. now rewrite Hne.
  - destruct (String.eqb k k') eqn:E; simpl.
    + apply String.eqb_eq in E. subst k'.
      apply String.eqb_neq in Hne. now rewrite Hne.
    + now rewrite IH.
Qed.

Lemma keys_setitem_present {V} (k : string) (v : V) d :
  In k (keys d) -> keys (setitem k v d) = keys d.
Proof.
  induction d as [|[k' v'] d IH]; simpl; [tauto|].
  intros [->|Hin].
  - now rewrite String.eqb_refl.
  - destruct (String.eqb k k'); simpl; [reflexivity|].
    f_equal. now apply IH.
Qed.

Lemma keys_setitem_absent {V} (k : string) (v : V) d :
  ~ In k (keys d) -> keys (setitem k v d) = (keys d ++ [k])%list.
Proof.
  induction d as [|[k' v'] d IH]; simpl; [reflexivity|].
  intros Hn. destruct (String.eqb k k') eqn:E.
  - apply String.eqb_eq in E. subst. tauto.
  - simpl. f_equal. apply IH. tauto.
Qed.

Lemma in_keys_setitem {V} (k k0 : string) (v : V) d :
  In k0 (keys (setitem k v d)) <-> k0 = k \/ In k0 (keys d).
Proof.
  destruct (in_dec string_dec k (keys d)) as [Hin|Hn].
  - rewrite keys_setitem_present by assumption.
    split; [tauto|]. intros [->|]; assumption.
  - rewrite keys_setitem_absent by assumption.
    rewrite in_app_iff. simpl. intuition.
Qed.

Lemma NoDup_keys_setitem {V} (k : string) (v : V) d :
  NoDup (keys d) -> NoDup (keys (setitem k v d)).
Proof.
  intros Hnd. destruct (in_dec string_dec k (keys d)) as [Hin|Hn].
  - now rewrite keys_setitem_present.
  - rewrite keys_setitem_absent by assumption.
    apply NoDup_app; auto.
    + constructor; [tauto|constructor].
    + intros x Hx [<-|[]]. tauto.
Qed.

Lemma lookup_some_in_keys {V} (k : string) (d : list (string * V)) v :
  lookup k d = Some v -> In k (keys d).
Proof.
  induction d as [|[k' v'] d IH]; simpl; [discriminate|].
  destruct (String.eqb k k') eqn:E.
  - apply String.eqb_eq in E. auto.
  - auto.
Qed.

Lemma in_keys_lookup {V} (k : string) (d : list (string * V)) :
  In k (keys d) -> exists v, lookup k d = Some v.
Proof.
  induction d as [|[k' v'] d IH]; simpl; [tauto|].
  intros H. destruct (String.eqb k k') eqn:E; eauto.
  destruct H as [->|H]; auto.
  now rewrite String.eqb_refl in E.
Qed.

Lemma lookup_none_iff {V} (k : string) (d : list (string * V)) :
  lookup k d = None <-> ~ In k (keys d).
Proof.
  split.
  - intros Hn Hin. destruct (in_keys_lookup _ _ Hin) as [v Hv]. congruence.
  - intros Hn. destruct (lookup k d) eqn:E; [|reflexivity].
    exfalso. eauto using lookup_some_in_keys.
Qed.

End DictFacts.

(** ** The fetch loops *)

Module FetchFacts.
Import Py Builtins Datetime Runtime Dashboard Spec DictFacts.

Lemma weather_loop_replay cs : forall p,
  for_each cs fetch_current_weather_step p =
  after_weather_loop p cs
    (replay weather_error_line
       (exchanges (net (world p)) (List.length (sent (world p)))
                  (weather_url (self p)) cs)
       (weather_data (self p))).
Proof.
  induction cs as [|c cs IH]; intros p.
  - simpl. unfold ret. rewrite !app_nil_r.
    destruct p as [[] []]. reflexivity.
  - cbn [for_each exchanges replay].
    unfold bind at 1. unfold fetch_current_weather_step at 1.
    unfold bind, gets, requests_get. cbn [world self on_world with_sent net sent].
    destruct (net (world p) (List.length (sent (world p))) (weather_url (self p) c))
      as [status body|]; cbn [fst snd].
    + destruct (status =? 200) eqn:E.
      * destruct body as [v|]; cbn.
        -- rewrite IH. cbn. rewrite length_app. cbn [List.length].
           replace (List.length (sent (world p)) + 1)%nat with (S (List.length (sent (world p)))) by lia.
           change (weather_url (set_weather_data (setitem c v (weather_data (self p))) (self p)))
             with (weather_url (self p)).
           destruct (replay _ _ _) as [[[r d] out] k]. cbn.
           rewrite <- app_assoc. reflexivity.
        -- rewrite app_nil_r. destruct p as [[] []]. reflexivity.
      * cbn. rewrite IH. cbn. rewrite length_app. cbn [List.length].
        replace (List.length (sent (world p)) + 1)%nat with (S (List.length (sent (world p)))) by lia.
        destruct (replay _ _ _) as [[[r d] out] k]. cbn.
        rewrite <- !app_assoc. reflexivity.
    + cbn. rewrite app_nil_r. destruct p as [[] []]. reflexivity.
Qed.

Lemma fetch_current_weather_replay p :
  fetch_current_weather p =
  after_weather_loop p (cities (self p))
    (replay weather_error_line (weather_exchanges p) (weather_data (self p))).
Proof.
  unfold fetch_current_weather, bind, gets. apply weather_loop_replay.
Qed.

Lemma forecast_loop_replay cs : forall p fd,
  forecast_data (self p) = Some fd ->
  for_each cs fetch_forecast_step p =
  after_forecast_loop p cs
    (replay forecast_error_line
       (exchanges (net (world p)) (List.length (sent (world p)))
                  (forecast_url (self p)) cs)
       fd).
Proof.
  induction cs as [|c cs IH]; intros p fd Hfd.
  - simpl. unfold ret. rewrite !app_nil_r.
    destruct p as [[] []]. cbn in *. subst. reflexivity.
  - cbn [for_each exchanges replay].
    unfold bind at 1. unfold fetch_forecast_step at 1.
    unfold bind, gets, requests_get. cbn [world self on_world with_sent net sent].
    destruct (net (world p) (List.length (sent (world p))) (forecast_url (self p) c))
      as [status body|]; cbn [fst snd].
    + destruct (status =? 200) eqn:E.
      * destruct body as [v|]; cbn.
        -- unfold getattr. cbn. rewrite Hfd. cbn.
           rewrite (IH _ (setitem c v fd)) by reflexivity.
           cbn. rewrite length_app. cbn [List.length].
           replace (List.length (sent (world p)) + 1)%nat with (S (List.length (sent (world p)))) by lia.
           change (forecast_url (set_forecast_data (setitem c v fd) (self p)))
             with (forecast_url (self p)).
           destruct (replay _ _ _) as [[[r d] out] k]. cbn.
           rewrite <- app_assoc. reflexivity.
        -- rewrite app_nil_r. destruct p as [[] []]. cbn in *. subst. reflexivity.
      * cbn. rewrite (IH _ fd) by exact Hfd. cbn. rewrite length_app. cbn [List.length].
        replace (List.length (sent (world p)) + 1)%nat with (S (List.length (sent (world p)))) by lia.
        destruct (replay _ _ _) as [[[r d] out] k]. cbn.
        rewrite <- !app_assoc. reflexivity.
    + cbn. rewrite app_nil_r. destruct p as [[] []]. cbn in *. subst. reflexivity.
Qed.

Lemma fetch_forecast_replay days p :
  fetch_forecast days p =
  after_forecast_loop p (cities (self p))
    (replay forecast_error_line (forecast_exchanges p) []).
Proof.
  unfold fetch_forecast, bind, gets, modify. cbn.
  rewrite (@forecast_loop_replay _ _ []) by reflexivity.
  cbn. unfold forecast_exchanges.
  destruct (replay _ _ _) as [[[r d] out] k]. reflexivity.
Qed.

Lemma replay_ok_iff line xs : forall d,
  fst (fst (fst (replay line xs d))) = Ok tt <-> forallb usable (map snd xs) = true.
Proof.
  induction xs as [|[c o] xs IH]; intros d; simpl.
  - tauto.
  - destruct o as [status body|]; simpl.
    + destruct (status =? 200).
      * destruct body as [v|]; simpl.
        -- specialize (IH (setitem c v d)).
           destruct (replay line xs (setitem c v d)) as [[[r d'] out] k]. simpl in *. exact IH.
        -- split; discriminate.
      * specialize (IH d).
        destruct (replay line xs d) as [[[r d'] out] k]. simpl in *. exact IH.
    + split; discriminate.
Qed.

Lemma replay_usable line xs : forall d,
  forallb usable (map snd xs) = true ->
  replay line xs d = (Ok tt, store (payloads xs) d, error_lines line xs, List.length xs).
Proof.
  induction xs as [|[c o] xs IH]; intros d H; simpl in *.
  - reflexivity.
  - destruct o as [status body|]; simpl in *; [|discriminate].
    destruct (status =? 200).
    + destruct body as [v|]; [|discriminate]. simpl in H.
      rewrite IH by assumption. reflexivity.
    + simpl in H. rewrite IH by assumption.
      destruct body; reflexivity.
Qed.

Lemma replay_keys_mono line xs : forall d c,
  In c (keys d) -> In c (keys (snd (fst (fst (replay line xs d))))).
Proof.
  induction xs as [|[c0 o] xs IH]; intros d c Hin; simpl; auto.
  destruct o as [status body|]; simpl; auto.
  destruct (status =? 200).
  - destruct body as [v|]; simpl; auto.
    specialize (IH (setitem c0 v d) c).
    destruct (replay line xs (setitem c0 v d)) as [[[r d'] out] k]. simpl in *.
    apply IH. apply in_keys_setitem. auto.
  - specialize (IH d c Hin).
    destruct (replay line xs d) as [[[r d'] out] k]. exact IH.
Qed.

Lemma replay_NoDup line xs : forall d,
  NoDup (keys d) -> NoDup (keys (snd (fst (fst (replay line xs d))))).
Proof.
  induction xs as [|[c0 o] xs IH]; intros d Hnd; simpl; auto.
  destruct o as [status body|]; simpl; auto.
  destruct (status =? 200).
  - destruct body as [v|]; simpl; auto.
    specialize (IH (setitem c0 v d) (NoDup_keys_setitem c0 v d Hnd)).
    destruct (replay line xs (setitem c0 v d)) as [[[r d'] out] k]. exact IH.
  - specialize (IH d Hnd).
    destruct (replay line xs d) as [[[r d'] out] k]. exact IH.
Qed.

Lemma replay_unanswered line xs : forall d c,
  ~ answered_200 xs c ->
  lookup c (snd (fst (fst (replay line xs d)))) = lookup c d.
Proof.
  induction xs as [|[c0 o] xs IH]; intros d c Hn; simpl; auto.
  assert (Hn' : ~ answered_200 xs c).
  { intros [b Hb]. apply Hn. exists b. now right. }
  destruct o as [status body|]; simpl; auto.
  destruct (status =? 200) eqn:E.
  - destruct body as [v|]; simpl; auto.
    specialize (IH (setitem c0 v d) c Hn').
    destruct (replay line xs (setitem c0 v d)) as [[[r d'] out] k]. simpl in *.
    rewrite IH. apply lookup_setitem_other.
    intros ->. apply Hn. exists (Some v). left.
    apply Z.eqb_eq in E. now subst.
  - specialize (IH d c Hn').
    destruct (replay line xs d) as [[[r d'] out] k]. exact IH.
Qed.

Lemma replay_answered line xs : forall d c,
  fst (fst (fst (replay line xs d))) = Ok tt ->
  answered_200 xs c ->
  In c (keys (snd (fst (fst (replay line xs d))))).
Proof.
  induction xs as [|[c0 o] xs IH]; intros d c Hok [b Hb]; simpl in *; [tauto|].
  destruct o as [status body|]; simpl in *; [|discriminate].
  destruct (status =? 200) eqn:E.
  - destruct body as [v|]; simpl in *; [|discriminate].
    specialize (IH (setitem c0 v d) c).
    pose proof (@replay_keys_mono line xs (setitem c0 v d) c) as Hmono.
    destruct (replay line xs (setitem c0 v d)) as [[[r d'] out] k]. simpl in *.
    destruct Hb as [Heq|Hb].
    + inversion Heq; subst. apply Hmono. apply in_keys_setitem. auto.
    + apply IH; [assumption|]. now exists b.
  - specialize (IH d c).
    destruct (replay line xs d) as [[[r d'] out] k]. simpl in *.
    destruct Hb as [Heq|Hb].
    + inversion Heq; subst. discriminate.
    + apply IH; [assumption|]. now exists b.
Qed.

Lemma replay_keys_origin line xs : forall d c,
  In c (keys (snd (fst (fst (replay line xs d))))) ->
  In c (keys d) \/ answered_200 xs c.
Proof.
  intros d c Hin.
  destruct (in_dec string_dec c (keys d)) as [|Hn]; [now left|right].
  destruct (List.existsb (fun x => String.eqb (fst x) c &&
              match snd x with Response s _ => s =? 200 | NoResponse => false end) xs)
    eqn:Ex.
  - apply existsb_exists in Ex. destruct Ex as [[c1 o] [Hx Hc]].
    simpl in Hc. apply andb_true_iff in Hc. destruct Hc as [Hc Hs].
    apply String.eqb_eq in Hc. subst c1.
    destruct o as [s b|]; [|discriminate].
    apply Z.eqb_eq in Hs. subst. now exists b.
  - exfalso. apply Hn.
    assert (Hna : ~ answered_200 xs c).
    { intros [b Hb].
      assert (List.existsb (fun x => String.eqb (fst x) c &&
              match snd x with Response s _ => s =? 200 | NoResponse => false end) xs = true).
      { apply existsb_exists. exists (c, Response 200 b). split; [assumption|].
        simpl. now rewrite String.eqb_refl. }
      congruence. }
    pose proof (@replay_unanswered line xs d c Hna) as Hl.
    destruct (in_keys_lookup _ _ Hin) as [v Hv].
    rewrite Hl in Hv. eauto using lookup_some_in_keys.
Qed.

Lemma lookup_store ps : forall d c,
  lookup c (store ps d) =
  match last_payload c ps with
  | Some v => Some v
  | None => lookup c d
  end.
Proof.
  unfold store. induction ps as [|[c0 v0] ps IH]; intros d c; simpl; [reflexivity|].
  rewrite IH. destruct (last_payload c ps) as [x|]; [reflexivity|].
  destruct (String.eqb c c0) eqn:E.
  - apply String.eqb_eq in E. subst. apply lookup_setitem_same.
  - apply String.eqb_neq in E. now apply lookup_setitem_other.
Qed.

End FetchFacts.

(** ** The transform *)

Module TransformFacts.
Import Py Builtins Datetime Runtime Dashboard Spec DictFacts.

Lemma mapM_ok_Forall2 {A B} (f : A -> result B) l : forall bs,
  mapM f l = Ok bs -> Forall2 (fun a b => f a = Ok b) l bs.
Proof.
  induction l as [|a l IH]; simpl; intros bs H.
  - inversion H. constructor.
  - destruct (f a) as [b|e] eqn:Ea; [|discriminate].
    destruct (mapM f l) as [bs'|e]; [|discriminate].
    inversion H; subst. constructor; auto.
Qed.

Lemma mapM_raise {A B} (f : A -> result B) l e :
  mapM f l = Raise e -> exists a, In a l /\ f a = Raise e.
Proof.
  induction l as [|a l IH]; simpl; [discriminate|].
  destruct (f a) as [b|e'] eqn:Ea.
  - destruct (mapM f l) as [bs'|e'']; [discriminate|].
    intros H. inversion H; subst. destruct IH as [a' [Hin Ha']]; eauto.
  - intros H. inversion H; subst. eauto.
Qed.

Lemma mapM_all_ok {A B} (f : A -> result B) l :
  (forall a, In a l -> exists b, f a = Ok b) -> exists bs, mapM f l = Ok bs.
Proof.
  induction l as [|a l IH]; simpl; intros H; eauto.
  destruct (H a (or_introl eq_refl)) as [b ->].
  destruct IH as [bs ->]; eauto.
Qed.

Lemma mapM_some_raise {A B} (f : A -> result B) l a e :
  In a l -> f a = Raise e -> exists e', mapM f l = Raise e'.
Proof.
  induction l as [|a0 l IH]; simpl; [tauto|].
  intros [->|Hin] Ha.
  - rewrite Ha. eauto.
  - destruct (f a0); eauto.
    destruct (IH Hin Ha) as [e' ->]. eauto.
Qed.

Section Transform.
Variable utcoffset : Z -> Z.

Lemma weather_record_city c v r :
  weather_record utcoffset c v = Ok r -> city r = c.
Proof.
  unfold weather_record, rbind. intros H.
  repeat match type of H with
         | match ?x with _ => _ end = _ => destruct x; try discriminate
         end.
  inversion H. reflexivity.
Qed.

Lemma forecast_record_city c v r :
  forecast_record utcoffset c v = Ok r -> city (slot r) = c.
Proof.
  unfold forecast_record, rbind. intros H.
  destruct (weather_record utcoffset c v) as [r0|] eqn:E; [|discriminate].
  destruct (getpath v _); [|discriminate].
  inversion H; subst. simpl. eauto using weather_record_city.
Qed.

Lemma current_weather_records_cities wd : forall recs,
  current_weather_records utcoffset wd = Ok recs -> map city recs = keys wd.
Proof.
  unfold current_weather_records. intros recs H.
  apply mapM_ok_Forall2 in H.
  induction H as [|[c v] r wd recs Hr _ IH]; simpl; [reflexivity|].
  f_equal; [|exact IH]. simpl in Hr. eauto using weather_record_city.
Qed.

Lemma prepare_data_run p :
  prepare_data utcoffset p =
  match current_weather_records utcoffset (weather_data (self p)) with
  | Raise e => (Raise e, p)
  | Ok recs =>
      match forecast_data (self p) with
      | None => (Raise (AttributeError "forecast_data"),
                 on_self (set_current_df recs) p)
      | Some fd =>
          match forecast_records utcoffset fd with
          | Raise e => (Raise e, on_self (set_current_df recs) p)
          | Ok frecs =>
              (Ok tt, on_self (set_forecast_df frecs)
                        (on_self (set_current_df recs) p))
          end
      end
  end.
Proof.
  unfold prepare_data, bind, gets, lift, modify, getattr.
  destruct (current_weather_records utcoffset (weather_data (self p))); [|reflexivity].
  cbn. destruct (forecast_data (self p)); [|reflexivity].
  destruct (forecast_records utcoffset l); reflexivity.
Qed.
End Transform.

Lemma rows_of_count c (df : list WeatherRecord) :
  List.length (rows_of c df) = count_occ string_dec (map city df) c.
Proof.
  induction df as [|r df IH]; simpl; [reflexivity|].
  destruct (string_dec (city r) c) as [->|Hne].
  - rewrite String.eqb_refl. simpl. now rewrite IH.
  - apply String.eqb_neq in Hne. now rewrite Hne.
Qed.

Lemma rows_of_NoDup c (df : list WeatherRecord) :
  NoDup (map city df) ->
  (In c (map city df) -> List.length (rows_of c df) = 1%nat) /\
  (~ In c (map city df) -> List.length (rows_of c df) = 0%nat).
Proof.
  intros Hnd. rewrite rows_of_count. split; intros H.
  - apply NoDup_count_occ' with (decA := string_dec); assumption.
  - apply count_occ_not_In. assumption.
Qed.

Lemma chars_length s : List.length (chars s) = String.length s.
Proof. induction s; simpl; congruence. Qed.

Lemma iter_len l items : iter l = Ok items -> len l = Some (List.length items).
Proof.
  destruct l; simpl; intros H; inversion H; subst; clear H.
  - unfold keys. now rewrite chars_length || (rewrite length_map; now rewrite chars_length).
  - reflexivity.
  - unfold keys. now rewrite !length_map.
Qed.

Lemma forecast_rows_app c (a b : list ForecastRecord) :
  forecast_rows_of c (a ++ b) = (forecast_rows_of c a ++ forecast_rows_of c b)%list.
Proof. apply filter_app. Qed.

Lemma forecast_rows_all c rs :
  Forall (fun r => city (slot r) = c) rs -> forecast_rows_of c rs = rs.
Proof.
  induction 1 as [|r rs Hr _ IH]; simpl; [reflexivity|].
  rewrite Hr, String.eqb_refl. f_equal. exact IH.
Qed.

Lemma forecast_rows_none c c' rs :
  c <> c' -> Forall (fun r => city (slot r) = c') rs -> forecast_rows_of c rs = [].
Proof.
  intros Hne. induction 1 as [|r rs Hr _ IH]; simpl; [reflexivity|].
  rewrite Hr. assert (E : String.eqb c' c = false) by (apply String.eqb_neq; congruence).
  now rewrite E.
Qed.

Section Forecast.
Variable utcoffset : Z -> Z.

Lemma city_forecast_records_spec c data rs :
  city_forecast_records utcoffset c data = Ok rs ->
  Forall (fun r => city (slot r) = c) rs /\
  exists l, getpath data [KStr "list"] = Ok l /\ len l = Some (List.length rs).
Proof.
  unfold city_forecast_records, rbind. intros H.
  destruct (getpath data [KStr "list"]) as [l|] eqn:El; [|discriminate].
  destruct (iter l) as [items|] eqn:Ei; [|discriminate].
  pose proof H as HF. apply mapM_ok_Forall2 in HF.
  split.
  - clear - HF. induction HF; constructor; eauto using forecast_record_city.
  - exists l. split; [reflexivity|].
    apply iter_len in Ei. rewrite Ei. f_equal.
    clear - HF. induction HF; simpl; congruence.
Qed.

Lemma forecast_records_rows fd : forall frecs,
  NoDup (keys fd) ->
  forecast_records utcoffset fd = Ok frecs ->
  forall c,
    match lookup c fd with
    | Some data =>
        exists l, getpath data [KStr "list"] = Ok l /\
                  len l = Some (List.length (forecast_rows_of c frecs))
    | None => forecast_rows_of c frecs = []
    end.
Proof.
  unfold forecast_records, rbind.
  induction fd as [|[c0 data0] fd IH]; intros frecs Hnd H c.
  - simpl in *. inversion H. reflexivity.
  - simpl in H.
    destruct (city_forecast_records utcoffset c0 data0) as [rs0|] eqn:E0; [|discriminate].
    destruct (mapM _ fd) as [rest|] eqn:Er; [|discriminate].
    inversion H; subst; clear H. simpl.
    inversion Hnd as [|? ? Hnotin Hnd']; subst.
    specialize (IH (List.concat rest) Hnd' eq_refl c).
    pose proof E0 as Hs. apply city_forecast_records_spec in Hs. destruct Hs as [Hall [l [Hl Hlen]]].
    rewrite forecast_rows_app.
    destruct (String.eqb c c0) eqn:Ec.
    + apply String.eqb_eq in Ec. subst c0.
      assert (Hnone : lookup c fd = None) by (apply lookup_none_iff; exact Hnotin).
      rewrite Hnone in IH. rewrite IH, app_nil_r.
      rewrite forecast_rows_all by assumption. eauto.
    + apply String.eqb_neq in Ec.
      rewrite (forecast_rows_none Ec Hall). simpl. exact IH.
Qed.
End Forecast.

End TransformFacts.

(** ** The tables after a fetch *)

Module Tables.
Import Py Builtins Datetime Runtime Dashboard Spec DictFacts FetchFacts TransformFacts.
Import Examples.
Local Open Scope monad_scope.

Lemma setitem_in {V} (k : string) (v : V) d k0 v0 :
  In (k0, v0) (setitem k v d) -> (k0, v0) = (k, v) \/ In (k0, v0) d.
Proof.
  induction d as [|[k' v'] d IH]; simpl.
  - intros [H|[]]. left. congruence.
  - destruct (String.eqb k k') eqn:E; simpl.
    + apply String.eqb_eq in E. subst k'. intros [H|H]; auto.
    + intros [H|H]; auto. destruct (IH H); auto.
Qed.

Lemma store_in ps : forall d c v,
  In (c, v) (store ps d) -> In (c, v) d \/ In (c, v) ps.
Proof.
  unfold store. induction ps as [|[c0 v0] ps IH]; simpl; intros d c v H; auto.
  apply IH in H. destruct H as [H|H]; auto.
  apply setitem_in in H. destruct H as [H|H]; auto.
Qed.

Lemma last_payload_answered xs c :
  forallb usable (map snd xs) = true ->
  (answered_200 xs c <-> exists v, last_payload c (payloads xs) = Some v).
Proof.
  induction xs as [|[c0 o] xs IH]; cbn [map forallb snd]; intros Hu.
  - split; [intros [b []]|intros [v Hv]; discriminate].
  - apply andb_true_iff in Hu. destruct Hu as [Ho Hu]. specialize (IH Hu).
    destruct o as [status body|]; [|discriminate]. cbn in Ho.
    destruct (status =? 200) eqn:E.
    + destruct body as [v0|]; [|discriminate]. apply Z.eqb_eq in E. subst status.
      cbn [payloads]. cbn [Z.eqb Pos.eqb]. cbn [last_payload].
      split.
      * intros [b [Hb|Hb]].
        -- inversion Hb; subst.
           destruct (last_payload c (payloads xs)); [eauto|].
           rewrite String.eqb_refl. eauto.
        -- destruct (proj1 IH (ex_intro _ b Hb)) as [v ->]. eauto.
      * intros [v Hv]. destruct (last_payload c (payloads xs)) as [x|] eqn:El.
        -- destruct (proj2 IH (ex_intro _ x eq_refl)) as [b Hb].
           exists b. now right.
        -- destruct (String.eqb c c0) eqn:Ec; [|discriminate].
           apply String.eqb_eq in Ec. subst c0. exists (Some v0). now left.
    + assert (Hp : payloads ((c0, Response status body) :: xs) = payloads xs).
      { cbn. destruct body; now rewrite ?E. }
      rewrite Hp. split.
      * intros [b [Hb|Hb]].
        -- inversion Hb; subst. discriminate.
        -- apply IH. now exists b.
      * intros H. apply IH in H. destruct H as [b Hb]. exists b. now right.
Qed.

Section Rows.
Variable utcoffset : Z -> Z.

Lemma current_table_of_run (mid : M Process unit) p df :
  (forall q, weather_data (self (snd (mid q))) = weather_data (self q) /\
             current_df (self (snd (mid q))) = current_df (self q)) ->
  weather_data (self p) = [] -> current_df (self p) = None ->
  current_df (self (snd ((fetch_current_weather ;; mid ;; prepare_data utcoffset) p)))
    = Some df ->
  forallb usable (map snd (weather_exchanges p)) = true /\
  current_weather_records utcoffset (store (payloads (weather_exchanges p)) []) = Ok df.
Proof.
  intros Hmid Hw Hc. unfold bind at 1. rewrite fetch_current_weather_replay, Hw.
  destruct (forallb usable (map snd (weather_exchanges p))) eqn:Hu.
  - rewrite (replay_usable weather_error_line _ [] Hu). cbn [after_weather_loop].
    match goal with |- context [bind mid _ ?q] => set (p1 := q) end.
    unfold bind. specialize (Hmid p1). destruct Hmid as [Hm1 Hm2].
    destruct (mid p1) as [[[]|e] p2]; cbn [snd] in *.
    + rewrite prepare_data_run, Hm1. cbn [p1 self set_weather_data weather_data].
      destruct (current_weather_records utcoffset _) as [recs|e] eqn:Er.
      * destruct (forecast_data (self p2)) as [fd|].
        -- destruct (forecast_records utcoffset fd); cbn; intros H; inversion H; auto.
        -- cbn. intros H; inversion H; auto.
      * cbn [snd]. rewrite Hm2. cbn. rewrite Hc. discriminate.
    + rewrite Hm2. cbn. rewrite Hc. discriminate.
  - pose proof (replay_ok_iff weather_error_line (weather_exchanges p) []) as Hiff.
    destruct (replay weather_error_line (weather_exchanges p) [])
      as [[[r d] out] k]. cbn [after_weather_loop fst snd] in *.
    destruct r as [[]|e].
    + destruct Hiff as [Hiff _]. rewrite Hiff in Hu by reflexivity. discriminate.
    + cbn. rewrite Hc. discriminate.
Qed.

Lemma fetch_forecast_keeps_current days q :
  weather_data (self (snd (fetch_forecast days q))) = weather_data (self q) /\
  current_df (self (snd (fetch_forecast days q))) = current_df (self q).
Proof.
  rewrite fetch_forecast_replay.
  destruct (replay _ _ _) as [[[r d] out] k]. split; reflexivity.
Qed.

(** C1 (amended).  On a dashboard that has neither stored current-weather
    data nor built a current-weather table before, the current-weather
    table after [fetch_current_weather] and [prepare_data] (also with
    [fetch_forecast] between them, as [run_dashboard] calls them) has
    exactly one row for each city for which at least one current-weather
    request returned status 200, however often the city is listed, and no
    row for a city for which no current-weather request returned status
    200.  The table is built whenever every request is answered, every 200
    body is JSON and [prepare_data] can build a record from every stored
    payload. *)
Theorem current_table_rows days p :
  weather_data (self p) = [] -> current_df (self p) = None ->
  let xs := weather_exchanges p in
  let run := (fetch_current_weather ;; prepare_data utcoffset) p in
  let run' := (fetch_current_weather ;; fetch_forecast days ;;
               prepare_data utcoffset) p in
  (forall df,
     current_df (self (snd run)) = Some df \/ current_df (self (snd run')) = Some df ->
     forall c,
       (answered_200 xs c -> List.length (rows_of c df) = 1%nat) /\
       (~ answered_200 xs c -> List.length (rows_of c df) = 0%nat))
  /\
  (forallb usable (map snd xs) = true ->
   (forall c v, In (c, v) (payloads xs) ->
                exists r, weather_record utcoffset c v = Ok r) ->
   exists df, current_df (self (snd run)) = Some df).
Proof.
  intros Hw Hc xs run run'. split.
  - intros df Hdf.
    assert (H : forallb usable (map snd xs) = true /\
                current_weather_records utcoffset (store (payloads xs) []) = Ok df).
    { destruct Hdf as [Hdf|Hdf].
      - apply (@current_table_of_run (ret tt) p df); auto.
      - apply (@current_table_of_run (fetch_forecast days) p df); auto.
        intros q. apply fetch_forecast_keeps_current. }
    destruct H as [Hu Hrecs]. intros c.
    apply current_weather_records_cities in Hrecs.
    pose proof (replay_usable weather_error_line xs [] Hu) as Hrep.
    assert (Hnd : NoDup (map city df)).
    { rewrite Hrecs.
      pose proof (@replay_NoDup weather_error_line xs [] (NoDup_nil _)) as H.
      now rewrite Hrep in H. }
    destruct (rows_of_NoDup c df Hnd) as [H1 H0].
    split; intros Ha.
    + apply H1. rewrite Hrecs.
      pose proof (@replay_answered weather_error_line xs [] c) as H.
      rewrite Hrep in H. apply H; [reflexivity|exact Ha].
    + apply H0. rewrite Hrecs. intros Hin.
      pose proof (@replay_keys_origin weather_error_line xs [] c) as H.
      rewrite Hrep in H. destruct (H Hin) as [[]|]. tauto.
  - intros Hu Hrec. subst run. unfold bind. rewrite fetch_current_weather_replay.
    fold xs. rewrite Hw, (replay_usable weather_error_line xs [] Hu).
    cbn [after_weather_loop]. rewrite prepare_data_run.
    cbn [self set_weather_data weather_data forecast_data].
    destruct (@mapM_all_ok _ _ (fun cd => weather_record utcoffset (fst cd) (snd cd))
                (store (payloads xs) [])) as [recs Hrecs].
    { intros [c v] Hin. apply store_in in Hin. destruct Hin as [[]|Hin]. eauto. }
    unfold current_weather_records. rewrite Hrecs. exists recs.
    destruct (forecast_data (self p)) as [fd|]; [|reflexivity].
    destruct (forecast_records utcoffset fd); reflexivity.
Qed.

Lemma forecast_run_df days p df :
  forecast_df (self p) = None ->
  forecast_df (self (snd ((fetch_forecast days ;; prepare_data utcoffset) p))) = Some df ->
  let xs := forecast_exchanges p in
  forallb usable (map snd xs) = true /\
  forecast_data (self (snd ((fetch_forecast days ;; prepare_data utcoffset) p)))
    = Some (store (payloads xs) []) /\
  forecast_records utcoffset (store (payloads xs) []) = Ok df.
Proof.
  intros Hnone. unfold bind at 1 2. rewrite fetch_forecast_replay.
  destruct (forallb usable (map snd (forecast_exchanges p))) eqn:Hu.
  - rewrite (replay_usable forecast_error_line _ [] Hu).
    cbn [after_forecast_loop]. rewrite prepare_data_run.
    cbn [self set_forecast_data weather_data forecast_data].
    destruct (current_weather_records utcoffset (weather_data (self p))); [|cbn; congruence].
    destruct (forecast_records utcoffset _) eqn:Ef; cbn; [|congruence].
    intros H. inversion H; subst. auto.
  - pose proof (replay_ok_iff forecast_error_line (forecast_exchanges p) []) as Hiff.
    destruct (replay forecast_error_line (forecast_exchanges p) [])
      as [[[r2 d2] out2] k2]. cbn [after_forecast_loop fst snd] in *.
    destruct r2 as [[]|e].
    + destruct Hiff as [Hiff _]. rewrite Hiff in Hu by reflexivity. discriminate.
    + cbn. congruence.
Qed.

Lemma forecast_run_returns days p :
  let run := (fetch_forecast days ;; prepare_data utcoffset) p in
  fst run = Ok tt ->
  let xs := forecast_exchanges p in
  forallb usable (map snd xs) = true /\
  forecast_data (self (snd run)) = Some (store (payloads xs) []) /\
  exists df,
    forecast_records utcoffset (store (payloads xs) []) = Ok df /\
    forecast_df (self (snd run)) = Some df.
Proof.
  cbv zeta. unfold bind. rewrite fetch_forecast_replay.
  destruct (forallb usable (map snd (forecast_exchanges p))) eqn:Hu.
  - rewrite (replay_usable forecast_error_line _ [] Hu).
    cbn [after_forecast_loop]. rewrite prepare_data_run.
    cbn [self set_forecast_data weather_data forecast_data].
    destruct (current_weather_records utcoffset (weather_data (self p)));
      [|cbn; discriminate].
    destruct (forecast_records utcoffset _) eqn:Ef; cbn; [|discriminate].
    intros _. eauto.
  - pose proof (replay_ok_iff forecast_error_line (forecast_exchanges p) []) as Hiff.
    destruct (replay forecast_error_line (forecast_exchanges p) [])
      as [[[r2 d2] out2] k2]. cbn [after_forecast_loop fst snd] in *.
    destruct r2 as [[]|e].
    + destruct Hiff as [Hiff _]. rewrite Hiff in Hu by reflexivity. discriminate.
    + cbn. discriminate.
Qed.

(** C2 (amended).  After [fetch_forecast] and [prepare_data], in any
    state of the dashboard, [forecast_data] holds for each city the payload
    of the city's last forecast request that returned status 200; the
    number of rows of a city with such a request equals the length of the
    [list] of that payload, and a city for which no forecast request
    returned status 200 has no payload and no row.  [forecast_df] is
    assigned by the last statement of [prepare_data], so the table of the
    two calls is there exactly when they return, and they return whenever
    every request is answered, every 200 body is JSON and every stored
    payload yields its records. *)
Theorem forecast_table_rows days p :
  let xs := forecast_exchanges p in
  let run := (fetch_forecast days ;; prepare_data utcoffset) p in
  (fst run = Ok tt ->
   exists fd df,
     forecast_data (self (snd run)) = Some fd /\
     forecast_df (self (snd run)) = Some df /\
     forall c,
       lookup c fd = last_payload c (payloads xs) /\
       (answered_200 xs c ->
          exists data l,
            last_payload c (payloads xs) = Some data /\
            getpath data [KStr "list"] = Ok l /\
            len l = Some (List.length (forecast_rows_of c df))) /\
       (~ answered_200 xs c ->
          lookup c fd = None /\
          List.length (forecast_rows_of c df) = 0%nat))
  /\
  (forallb usable (map snd xs) = true ->
   (forall c v, In (c, v) (weather_data (self p)) ->
                exists r, weather_record utcoffset c v = Ok r) ->
   (forall c v, In (c, v) (payloads xs) ->
                exists rs, city_forecast_records utcoffset c v = Ok rs) ->
   fst run = Ok tt).
Proof.
  intros xs run. split.
  - intros Hret. apply forecast_run_returns in Hret. fold xs in Hret.
    destruct Hret as [Hu [Hfd [df [Hrecs Hdf]]]].
    exists (store (payloads xs) []), df.
    split; [exact Hfd|]. split; [exact Hdf|]. intros c.
    pose proof (replay_usable forecast_error_line xs [] Hu) as Hrep.
    assert (Hnd : NoDup (keys (store (payloads xs) []))).
    { pose proof (@replay_NoDup forecast_error_line xs [] (NoDup_nil _)) as H.
      now rewrite Hrep in H. }
    pose proof (@forecast_records_rows utcoffset _ _ Hnd Hrecs c) as Hrows.
    assert (Hl : lookup c (store (payloads xs) []) = last_payload c (payloads xs)).
    { rewrite lookup_store. now destruct (last_payload c (payloads xs)). }
    split; [exact Hl|]. split.
    + intros Ha. apply (last_payload_answered xs c Hu) in Ha.
      destruct Ha as [data Hdata]. rewrite Hl, Hdata in Hrows.
      destruct Hrows as [l [Hgl Hlen]]. exists data, l. auto.
    + intros Hn.
      assert (Hnone : lookup c (store (payloads xs) []) = None).
      { pose proof (@replay_unanswered forecast_error_line xs [] c Hn) as H.
        now rewrite Hrep in H. }
      split; [exact Hnone|]. rewrite Hnone in Hrows. now rewrite Hrows.
  - intros Hu Hw Hf. subst run. unfold bind at 1. rewrite fetch_forecast_replay.
    fold xs. rewrite (replay_usable forecast_error_line xs [] Hu).
    cbn [after_forecast_loop]. rewrite prepare_data_run.
    cbn [self set_forecast_data weather_data forecast_data].
    destruct (@mapM_all_ok _ _ (fun cd => weather_record utcoffset (fst cd) (snd cd))
                (weather_data (self p))) as [recs Hrecs].
    { intros [c v] Hin. eauto. }
    unfold current_weather_records. rewrite Hrecs.
    destruct (@mapM_all_ok _ _
                (fun cd => city_forecast_records utcoffset (fst cd) (snd cd))
                (store (payloads xs) [])) as [frecs Hfrecs].
    { intros [c v] Hin. apply store_in in Hin. destruct Hin as [[]|Hin]. eauto. }
    unfold forecast_records, rbind. rewrite Hfrecs. reflexivity.
Qed.

End Rows.

(** C1 as stated fails on a new dashboard when a city is listed twice and
    the server answers 200, then 404: the city has a fetch that returned a
    non-200 status and it has its row.  The two conditions on the dashboard
    are needed as well: on one that fetched before, a city whose only
    request of this call returned 404 keeps the row of its earlier payload;
    on one that built a table before, a [prepare_data] that raises in its
    first loop leaves the earlier table, without a row for a city answered
    200. *)
Lemma current_table_counterexample :
  ~ (forall p df,
       weather_data (self p) = [] -> current_df (self p) = None ->
       current_df (self (snd ((fetch_current_weather ;; prepare_data utc) p))) = Some df ->
       forall c, answered_other (weather_exchanges p) c ->
                 List.length (rows_of c df) = 0%nat)
  /\
  ~ (forall p df,
       current_df (self p) = None ->
       current_df (self (snd ((fetch_current_weather ;; prepare_data utc) p))) = Some df ->
       forall c, ~ answered_200 (weather_exchanges p) c ->
                 List.length (rows_of c df) = 0%nat)
  /\
  ~ (forall p df,
       weather_data (self p) = [] ->
       current_df (self (snd ((fetch_current_weather ;; prepare_data utc) p))) = Some df ->
       forall c, answered_200 (weather_exchanges p) c ->
                 List.length (rows_of c df) = 1%nat).
Proof.
  split; [|split]; intros H.
  - destruct (current_df (self (snd ((fetch_current_weather ;; prepare_data utc)
                                       twice_paris)))) as [df|] eqn:E;
      [|vm_compute in E; discriminate].
    assert (Ho : answered_other (weather_exchanges twice_paris) "Paris").
    { exists 404, None. split; [|discriminate]. vm_compute. right. left. reflexivity. }
    specialize (H twice_paris df eq_refl eq_refl E "Paris" Ho).
    vm_compute in E. inversion E; subst. vm_compute in H. discriminate.
  - destruct (current_df (self (snd ((fetch_current_weather ;; prepare_data utc)
                                       after_first_call)))) as [df|] eqn:E;
      [|vm_compute in E; discriminate].
    assert (Hn : ~ answered_200 (weather_exchanges after_first_call) "Paris").
    { intros [b Hb]. vm_compute in Hb. destruct Hb as [Hb|[]]. discriminate. }
    specialize (H after_first_call df eq_refl E "Paris" Hn).
    vm_compute in E. inversion E; subst. vm_compute in H. discriminate.
  - destruct (current_df (self (snd ((fetch_current_weather ;; prepare_data utc)
                                       stale_table)))) as [df|] eqn:E;
      [|vm_compute in E; discriminate].
    assert (Ha : answered_200 (weather_exchanges stale_table) "Paris").
    { exists (Some (weather_payload (PyStr "soon"))). vm_compute. left. reflexivity. }
    specialize (H stale_table df eq_refl E "Paris" Ha).
    vm_compute in E. inversion E; subst. vm_compute in H. discriminate.
Qed.

Lemma current_table_rows_witness :
  exists df,
    current_df (self (snd ((fetch_current_weather ;; prepare_data utc) rome_refused)))
      = Some df /\
    List.length (rows_of "Paris" df) = 1%nat /\
    List.length (rows_of "Rome" df) = 0%nat.
Proof.
  destruct (current_table_rows utc (PyInt 5) rome_refused eq_refl eq_refl)
    as [Hrows Hbuilt].
  destruct Hbuilt as [df Hdf].
  - reflexivity.
  - intros c v Hin. vm_compute in Hin.
    destruct Hin as [Hin|[]]; inversion Hin; subst;
      eexists; vm_compute; reflexivity.
  - exists df. split; [exact Hdf|]. split.
    + apply (Hrows df (or_introl Hdf) "Paris").
      exists (Some (weather_payload (PyInt 1700000000))).
      vm_compute. left. reflexivity.
    + apply (Hrows df (or_introl Hdf) "Rome"). intros [b Hb]. vm_compute in Hb.
      destruct Hb as [Hb|[Hb|[]]]; discriminate.
Defined.

(** C2 as stated fails when a city is listed twice and the server answers
    200, then 404: the city's forecast fetch returned a non-200 status and
    it has the two rows of its first answer. *)
Lemma forecast_table_counterexample :
  ~ (forall p df,
       let run := (fetch_forecast (PyInt 5) ;; prepare_data utc) p in
       fst run = Ok tt -> forecast_df (self (snd run)) = Some df ->
       forall c, answered_other (forecast_exchanges p) c ->
                 List.length (forecast_rows_of c df) = 0%nat).
Proof.
  intros H.
  destruct (forecast_df (self (snd ((fetch_forecast (PyInt 5) ;; prepare_data utc)
                                      twice_paris)))) as [df|] eqn:E;
    [|vm_compute in E; discriminate].
  assert (Ho : answered_other (forecast_exchanges twice_paris) "Paris").
  { exists 404, None. split; [|discriminate]. vm_compute. right. left. reflexivity. }
  specialize (H twice_paris df eq_refl E "Paris" Ho).
  vm_compute in E. inversion E; subst. vm_compute in H. discriminate.
Qed.

Lemma forecast_table_rows_witness :
  let run := (fetch_forecast (PyInt 5) ;; prepare_data utc) twice_paris in
  fst run = Ok tt /\
  exists df,
    forecast_df (self (snd run)) = Some df /\
    List.length (forecast_rows_of "Paris" df) = 2%nat /\
    List.length (forecast_rows_of "Rome" df) = 0%nat.
Proof.
  intros run.
  destruct (forecast_table_rows utc (PyInt 5) twice_paris) as [Hrows Hreturns].
  assert (Hret : fst run = Ok tt).
  { apply Hreturns.
    - reflexivity.
    - intros c v [].
    - intros c v Hin. vm_compute in Hin.
      destruct Hin as [Hin|[]]; inversion Hin; subst;
        eexists; vm_compute; reflexivity. }
  split; [exact Hret|].
  destruct (Hrows Hret) as [fd [df [Hfd [Hdf Hc]]]].
  exists df. split; [exact Hdf|]. split.
  - destruct (Hc "Paris") as [_ [Hlen _]].
    destruct Hlen as [data [l [Hlast [Hl Hn]]]].
    { exists (Some (forecast_payload [1700000000; 1700010800])).
      vm_compute. left. reflexivity. }
    vm_compute in Hlast. injection Hlast as <-.
    injection Hl as <-. injection Hn as Hn. symmetry. exact Hn.
  - destruct (Hc "Rome") as [_ [_ Hzero]]. apply Hzero.
    intros [b Hb]. vm_compute in Hb.
    destruct Hb as [Hb|[Hb|[]]]; discriminate.
Defined.

End Tables.

(** ** Re-running the transform; the unused parameter *)

Module Reruns.
Import Py Builtins Datetime Runtime Dashboard Spec DictFacts FetchFacts TransformFacts.
Import Examples.
Local Open Scope monad_scope.

(** C9.  In every state of the dashboard and the world, two calls of
    [fetch_forecast] that differ only in [days] do the same thing: the same
    outcome, the same requests sent, the same [forecast_data]. *)
Theorem fetch_forecast_ignores_days (d1 d2 : value) (p : Process) :
  fetch_forecast d1 p = fetch_forecast d2 p /\
  sent (world (snd (fetch_forecast d1 p))) = sent (world (snd (fetch_forecast d2 p))) /\
  forecast_data (self (snd (fetch_forecast d1 p))) =
  forecast_data (self (snd (fetch_forecast d2 p))).
Proof. repeat split; reflexivity. Qed.

Section Idempotence.
Variable utcoffset : Z -> Z.

Lemma prepare_data_again p :
  prepare_data utcoffset (snd (prepare_data utcoffset p)) = prepare_data utcoffset p.
Proof.
  rewrite (prepare_data_run utcoffset p).
  destruct (current_weather_records utcoffset (weather_data (self p))) as [recs|e] eqn:Ec.
  - destruct (forecast_data (self p)) as [fd|] eqn:Ef.
    + destruct (forecast_records utcoffset fd) as [frecs|e] eqn:Efr;
        cbn [snd]; rewrite prepare_data_run;
        cbn [self on_self set_current_df set_forecast_df weather_data forecast_data];
        rewrite Ec, Ef, Efr; reflexivity.
    + cbn [snd]; rewrite prepare_data_run;
        cbn [self on_self set_current_df set_forecast_df weather_data forecast_data];
        rewrite Ec, Ef; reflexivity.
  - cbn [snd]; rewrite prepare_data_run; rewrite Ec; reflexivity.
Qed.

Lemma rerun_prepare_data_fixed n p :
  rerun_prepare_data utcoffset n (snd (prepare_data utcoffset p)) =
  snd (prepare_data utcoffset p).
Proof.
  unfold rerun_prepare_data. induction n as [|n IH]; simpl; [reflexivity|].
  rewrite IH. now rewrite prepare_data_again.
Qed.

(** C5.  With the raw mappings fixed, every further run of [prepare_data]
    returns what the first returned and leaves the object as the first left
    it, so the two tables are the same after any number of runs; and the
    tables depend on the raw mappings only, not on what the object held
    before. *)
Theorem prepare_data_idempotent p :
  let once := prepare_data utcoffset p in
  (forall n,
     prepare_data utcoffset (rerun_prepare_data utcoffset n (snd once)) = once) /\
  (forall n,
     current_df (self (rerun_prepare_data utcoffset (S n) p)) = current_df (self (snd once)) /\
     forecast_df (self (rerun_prepare_data utcoffset (S n) p)) = forecast_df (self (snd once))) /\
  (forall q,
     weather_data (self q) = weather_data (self p) ->
     forecast_data (self q) = forecast_data (self p) ->
     fst (prepare_data utcoffset q) = fst once /\
     (fst once = Ok tt ->
      current_df (self (snd (prepare_data utcoffset q))) = current_df (self (snd once)) /\
      forecast_df (self (snd (prepare_data utcoffset q))) = forecast_df (self (snd once)))).
Proof.
  intros once. unfold once. clear once. split; [|split].
  - intros n. rewrite rerun_prepare_data_fixed. apply prepare_data_again.
  - intros n.
    assert (E : rerun_prepare_data utcoffset (S n) p = snd (prepare_data utcoffset p)).
    { induction n as [|n IH]; [reflexivity|].
      change (rerun_prepare_data utcoffset (S (S n)) p)
        with (snd (prepare_data utcoffset (rerun_prepare_data utcoffset (S n) p))).
      rewrite IH. now rewrite prepare_data_again. }
    rewrite E. split; reflexivity.
  - intros q Hw Hf. rewrite !prepare_data_run. rewrite Hw, Hf.
    destruct (current_weather_records utcoffset (weather_data (self p))) as [recs|e].
    + destruct (forecast_data (self p)) as [fd|].
      * destruct (forecast_records utcoffset fd); cbn; split; auto; discriminate.
      * cbn; split; auto; discriminate.
    + cbn; split; auto; discriminate.
Qed.
End Idempotence.

Lemma prepare_data_idempotent_witness :
  let p := snd (fetch_forecast (PyInt 5) (snd (fetch_current_weather paris_rome))) in
  fst (prepare_data utc p) = Ok tt /\
  forecast_df (self (rerun_prepare_data utc 3 p)) =
  forecast_df (self (snd (prepare_data utc p))).
Proof.
  intros p. split; [vm_compute; reflexivity|].
  destruct (prepare_data_idempotent utc p) as [_ [Htables _]].
  exact (proj2 (Htables 2%nat)).
Defined.

End Reruns.

(** ** Refused requests and stale entries *)

Module Fetching.
Import Py Builtins Datetime Runtime Dashboard Spec DictFacts FetchFacts TransformFacts.
Import Examples.
Local Open Scope monad_scope.


Lemma Forall2_in_left {A B} (R : A -> B -> Prop) l l' a :
  Forall2 R l l' -> In a l -> exists b, R a b /\ In b l'.
Proof.
  induction 1 as [|x y l l' Hxy _ IH]; simpl; [tauto|].
  intros [<-|Hin]; eauto.
  destruct (IH Hin) as [b [Hb Hin']]. eauto.
Qed.

Lemma weather_data_after_fetch p :
  weather_data (self (snd (fetch_current_weather p))) =
  snd (fst (fst (replay weather_error_line (weather_exchanges p)
                   (weather_data (self p))))).
Proof.
  rewrite fetch_current_weather_replay.
  destruct (replay _ _ _) as [[[r d] out] k]. reflexivity.
Qed.

Lemma forecast_data_after_fetch days p :
  forecast_data (self (snd (fetch_forecast days p))) =
  Some (snd (fst (fst (replay forecast_error_line (forecast_exchanges p) [])))).
Proof.
  rewrite fetch_forecast_replay.
  destruct (replay _ _ _) as [[[r d] out] k]. reflexivity.
Qed.

Lemma unanswered_not_in_forecast_data days p c fd :
  ~ answered_200 (forecast_exchanges p) c ->
  forecast_data (self (snd (fetch_forecast days p))) = Some fd ->
  lookup c fd = None.
Proof.
  intros Hn. rewrite forecast_data_after_fetch. intros H. inversion H; subst.
  now rewrite replay_unanswered.
Qed.

Lemma unanswered_keeps_weather_data p c :
  ~ answered_200 (weather_exchanges p) c ->
  lookup c (weather_data (self (snd (fetch_current_weather p)))) =
  lookup c (weather_data (self p)).
Proof.
  intros Hn. rewrite weather_data_after_fetch. now apply replay_unanswered.
Qed.

Section Stale.
Variable utcoffset : Z -> Z.

End Stale.


Lemma refused_weather_step p c status body :
  status <> 200 ->
  net (world p) (List.length (sent (world p))) (weather_url (self p) c)
    = Response status body ->
  fetch_current_weather_step c p =
  (Ok tt, after_refusal p (weather_url (self p) c) (weather_error_line c status)).
Proof.
  intros Hs Hnet. apply Z.eqb_neq in Hs.
  unfold fetch_current_weather_step, bind, gets, requests_get.
  rewrite Hnet. cbn [fst snd]. rewrite Hs. reflexivity.
Qed.

Lemma refused_forecast_step p c status body :
  status <> 200 ->
  net (world p) (List.length (sent (world p))) (forecast_url (self p) c)
    = Response status body ->
  fetch_forecast_step c p =
  (Ok tt, after_refusal p (forecast_url (self p) c) (forecast_error_line c status)).
Proof.
  intros Hs Hnet. apply Z.eqb_neq in Hs.
  unfold fetch_forecast_step, bind, gets, requests_get.
  rewrite Hnet. cbn [fst snd]. rewrite Hs. reflexivity.
Qed.

Lemma error_lines_in line xs c status body :
  In (c, Response status body) xs -> status <> 200 ->
  In (line c status) (error_lines line xs).
Proof.
  intros Hin Hs. induction xs as [|[c0 o] xs IH]; simpl in *; [tauto|].
  destruct Hin as [Heq|Hin].
  - inversion Heq; subst. apply Z.eqb_neq in Hs. rewrite Hs. now left.
  - destruct o as [s b|]; auto. destruct (s =? 200); simpl; auto.
Qed.

(** C3 (amended).  A request answered with a status other than 200 makes
    the fetcher print [Error fetching data for {city}: {status}] (current
    weather) or [Error fetching forecast for {city}: {status}] (forecast),
    store nothing and go on with the next city without raising, whatever
    the body of the answer; when every request of the loop is answered, the
    loop returns normally, the line is on standard output and every city
    has been requested.  A city with no 200 answer in the call keeps what
    [weather_data] held for it before the call (nothing, on a new
    dashboard) and has no entry in [forecast_data]. *)
Theorem refused_fetch_is_logged p c status body :
  status <> 200 ->
  (net (world p) (List.length (sent (world p))) (weather_url (self p) c)
     = Response status body ->
   let p1 := after_refusal p (weather_url (self p) c) (weather_error_line c status) in
   fetch_current_weather_step c p = (Ok tt, p1) /\
   forall cs, for_each (c :: cs) fetch_current_weather_step p =
              for_each cs fetch_current_weather_step p1) /\
  (net (world p) (List.length (sent (world p))) (forecast_url (self p) c)
     = Response status body ->
   let p1 := after_refusal p (forecast_url (self p) c) (forecast_error_line c status) in
   fetch_forecast_step c p = (Ok tt, p1) /\
   forall cs, for_each (c :: cs) fetch_forecast_step p =
              for_each cs fetch_forecast_step p1) /\
  (forallb usable (map snd (weather_exchanges p)) = true ->
   In (c, Response status body) (weather_exchanges p) ->
   let r := fetch_current_weather p in
   fst r = Ok tt /\
   In (weather_error_line c status) (stdout (world (snd r))) /\
   sent (world (snd r)) =
     (sent (world p) ++ map (weather_url (self p)) (cities (self p)))%list) /\
  (forall days,
   forallb usable (map snd (forecast_exchanges p)) = true ->
   In (c, Response status body) (forecast_exchanges p) ->
   let r := fetch_forecast days p in
   fst r = Ok tt /\
   In (forecast_error_line c status) (stdout (world (snd r))) /\
   sent (world (snd r)) =
     (sent (world p) ++ map (forecast_url (self p)) (cities (self p)))%list) /\
  (~ answered_200 (weather_exchanges p) c ->
   lookup c (weather_data (self (snd (fetch_current_weather p)))) =
   lookup c (weather_data (self p))) /\
  (forall days fd,
   ~ answered_200 (forecast_exchanges p) c ->
   forecast_data (self (snd (fetch_forecast days p))) = Some fd ->
   lookup c fd = None).
Proof.
  intros Hs. repeat split.
  - eapply refused_weather_step; eauto.
  - intros cs. cbn [for_each]. unfold bind at 1.
    erewrite refused_weather_step by eauto. reflexivity.
  - eapply refused_forecast_step; eauto.
  - intros cs. cbn [for_each]. unfold bind at 1.
    erewrite refused_forecast_step by eauto. reflexivity.
  - rewrite fetch_current_weather_replay, replay_usable by assumption. reflexivity.
  - rewrite fetch_current_weather_replay, replay_usable by assumption.
    cbn [after_weather_loop snd world stdout with_stdout].
    apply in_or_app. right.
    apply (@error_lines_in weather_error_line _ c status body); assumption.
  - rewrite fetch_current_weather_replay, replay_usable by assumption.
    cbn [after_weather_loop snd world sent with_stdout with_sent].
    f_equal. unfold weather_exchanges.
    assert (L : forall net n url cs, List.length (exchanges net n url cs) = List.length cs).
    { intros net n url cs. revert n. induction cs; simpl; auto. }
    rewrite L, <- (length_map (weather_url (self p))). apply firstn_all.
  - rewrite fetch_forecast_replay, replay_usable by assumption. reflexivity.
  - rewrite fetch_forecast_replay, replay_usable by assumption.
    cbn [after_forecast_loop snd world stdout with_stdout].
    apply in_or_app. right.
    apply (@error_lines_in forecast_error_line _ c status body); assumption.
  - rewrite fetch_forecast_replay, replay_usable by assumption.
    cbn [after_forecast_loop snd world sent with_stdout with_sent].
    f_equal. unfold forecast_exchanges.
    assert (L : forall net n url cs, List.length (exchanges net n url cs) = List.length cs).
    { intros net n url cs. revert n. induction cs; simpl; auto. }
    rewrite L, <- (length_map (forecast_url (self p))). apply firstn_all.
  - apply unanswered_keeps_weather_data.
  - intros. eapply unanswered_not_in_forecast_data; eauto.
Qed.

(** C3 as stated fails on the text of the forecast line: the fetcher does
    not print [Error fetching forecast data for Rome: 404]. *)
Lemma forecast_error_line_counterexample :
  let p1 := snd (fetch_current_weather rome_refused) in
  let p2 := snd (fetch_forecast (PyInt 5) p1) in
  In ("Rome", Response 404 None) (forecast_exchanges p1) /\
  fst (fetch_forecast (PyInt 5) p1) = Ok tt /\
  ~ In "Error fetching forecast data for Rome: 404" (stdout (world p2)).
Proof.
  intros p1 p2. split; [|split].
  - vm_compute. right. left. reflexivity.
  - vm_compute. reflexivity.
  - vm_compute. intros [H|[H|[]]]; discriminate.
Qed.

Lemma refused_fetch_is_logged_witness :
  let p1 := snd (fetch_current_weather rome_refused) in
  let r := fetch_forecast (PyInt 5) p1 in
  fst r = Ok tt /\
  In "Error fetching forecast for Rome: 404" (stdout (world (snd r))) /\
  (forall fd, forecast_data (self (snd r)) = Some fd -> lookup "Rome" fd = None).
Proof.
  intros p1 r.
  assert (Hs : 404 <> 200) by discriminate.
  destruct (@refused_fetch_is_logged p1 "Rome" 404 None Hs)
    as [_ [_ [_ [Hloop [_ Habsent]]]]].
  destruct (Hloop (PyInt 5)) as [Hok [Hline _]].
  - vm_compute. reflexivity.
  - vm_compute. right. left. reflexivity.
  - split; [exact Hok|]. split; [exact Hline|].
    intros fd Hfd. apply (Habsent (PyInt 5) fd); [|exact Hfd].
    intros [b Hb]. vm_compute in Hb.
    destruct Hb as [Hb|[Hb|[]]]; discriminate.
Defined.

End Fetching.

(** ** Missing fields *)

Module Fields.
Import Py Builtins Datetime Runtime Dashboard Spec DictFacts FetchFacts TransformFacts.
Import Examples.
Local Open Scope monad_scope.

Lemma getitem_error v k e : getitem v k = Raise e -> subscript_error e.
Proof.
  unfold subscript_error.
  destruct v, k; simpl; intros H;
    repeat match type of H with
           | match ?x with _ => _ end = _ => destruct x
           end;
    inversion H; subst; eauto.
Qed.

Lemma getpath_error path : forall v e,
  getpath v path = Raise e -> subscript_error e.
Proof.
  induction path as [|k path IH]; simpl; intros v e H; [discriminate|].
  unfold rbind in H. destruct (getitem v k) as [x|e'] eqn:E.
  - eauto.
  - inversion H; subst. eauto using getitem_error.
Qed.

Section Fields.
Variable utcoffset : Z -> Z.

Lemma weather_record_missing c v :
  ~ has_fields weather_fields v ->
  exists e, weather_record utcoffset c v = Raise e /\ subscript_error e.
Proof.
  intros Hmiss.
  destruct (getpath v [KStr "main"; KStr "temp"]) as [x1|e] eqn:E1;
    [|exists e; split; [unfold weather_record, rbind; now rewrite E1
                       | eauto using getpath_error]].
  destruct (getpath v [KStr "main"; KStr "feels_like"]) as [x2|e] eqn:E2;
    [|exists e; split; [unfold weather_record, rbind; now rewrite E1, E2
                       | eauto using getpath_error]].
  destruct (getpath v [KStr "main"; KStr "humidity"]) as [x3|e] eqn:E3;
    [|exists e; split; [unfold weather_record, rbind; now rewrite E1, E2, E3
                       | eauto using getpath_error]].
  destruct (getpath v [KStr "main"; KStr "pressure"]) as [x4|e] eqn:E4;
    [|exists e; split; [unfold weather_record, rbind; now rewrite E1, E2, E3, E4
                       | eauto using getpath_error]].
  destruct (getpath v [KStr "wind"; KStr "speed"]) as [x5|e] eqn:E5;
    [|exists e; split; [unfold weather_record, rbind; now rewrite E1, E2, E3, E4, E5
                       | eauto using getpath_error]].
  destruct (getpath v [KStr "weather"; KInt 0; KStr "description"]) as [x6|e] eqn:E6;
    [|exists e; split; [unfold weather_record, rbind; now rewrite E1, E2, E3, E4, E5, E6
                       | eauto using getpath_error]].
  destruct (getpath v [KStr "dt"]) as [x7|e] eqn:E7;
    [|exists e; split; [unfold weather_record, rbind;
                        now rewrite E1, E2, E3, E4, E5, E6, E7
                       | eauto using getpath_error]].
  exfalso. apply Hmiss. intros path Hin. unfold present.
  simpl in Hin.
  repeat (destruct Hin as [<-|Hin]; [eauto|]). contradiction.
Qed.

Lemma weather_record_complete c v :
  complete_weather utcoffset v -> exists r, weather_record utcoffset c v = Ok r.
Proof.
  intros [Hf [dt [ts [Hdt Hts]]]].
  unfold weather_record, rbind.
  destruct (Hf [KStr "main"; KStr "temp"]) as [x1 ->]; [simpl; tauto|].
  destruct (Hf [KStr "main"; KStr "feels_like"]) as [x2 ->]; [simpl; tauto|].
  destruct (Hf [KStr "main"; KStr "humidity"]) as [x3 ->]; [simpl; tauto|].
  destruct (Hf [KStr "main"; KStr "pressure"]) as [x4 ->]; [simpl; tauto|].
  destruct (Hf [KStr "wind"; KStr "speed"]) as [x5 ->]; [simpl; tauto|].
  destruct (Hf [KStr "weather"; KInt 0; KStr "description"]) as [x6 ->]; [simpl; tauto|].
  rewrite Hdt, Hts. eauto.
Qed.

Lemma weather_record_ok_complete c v r :
  weather_record utcoffset c v = Ok r -> complete_weather utcoffset v.
Proof.
  intros H. split.
  - intros path Hin.
    destruct (getpath v path) as [x|e] eqn:E; [now exists x|].
    exfalso. unfold weather_record, rbind in H. simpl in Hin.
    repeat (destruct Hin as [<-|Hin];
            [ repeat match type of H with
                     | match ?x with _ => _ end = _ =>
                         destruct x eqn:?; try discriminate
                     end; congruence |]).
    contradiction.
  - unfold weather_record, rbind in H.
    repeat match type of H with
           | match ?x with _ => _ end = _ => destruct x eqn:?; try discriminate
           end.
    unfold timestamp_ok. eauto.
Qed.

Lemma forecast_record_missing c item :
  ~ has_fields slot_fields item ->
  exists e, forecast_record utcoffset c item = Raise e.
Proof.
  intros Hmiss. unfold forecast_record, rbind.
  destruct (weather_record utcoffset c item) as [r|e] eqn:Er; [|eauto].
  destruct (getpath item [KStr "dt_txt"]) as [x|e] eqn:Et; [|eauto].
  exfalso. apply Hmiss. apply weather_record_ok_complete in Er.
  destruct Er as [Hf _]. intros path Hin. unfold slot_fields in Hin.
  apply in_app_or in Hin. destruct Hin as [Hin|[<-|[]]]; [auto|].
  now exists x.
Qed.

Lemma forecast_record_complete c item :
  complete_slot utcoffset item -> exists r, forecast_record utcoffset c item = Ok r.
Proof.
  intros [Hf Hts]. unfold forecast_record, rbind.
  destruct (@weather_record_complete c item) as [r ->].
  { split; [|exact Hts]. intros path Hin. apply Hf.
    unfold slot_fields. apply in_or_app. now left. }
  destruct (Hf [KStr "dt_txt"]) as [x ->]; [|eauto].
  unfold slot_fields. apply in_or_app. right. now left.
Qed.

Lemma city_forecast_records_complete c data :
  complete_forecast utcoffset data ->
  exists rs, city_forecast_records utcoffset c data = Ok rs.
Proof.
  intros [l [items [Hl [Hi Hall]]]].
  unfold city_forecast_records, rbind. rewrite Hl, Hi.
  apply mapM_all_ok. intros item Hin. apply forecast_record_complete. auto.
Qed.

Lemma city_forecast_records_missing c data :
  forecast_field_missing data ->
  exists e, city_forecast_records utcoffset c data = Raise e.
Proof.
  unfold city_forecast_records, rbind.
  intros [Hno|[l [items [item [Hl [Hi [Hin Hmiss]]]]]]].
  - destruct (getpath data [KStr "list"]) as [l|e] eqn:El; [|eauto].
    exfalso. apply Hno. now exists l.
  - rewrite Hl, Hi.
    destruct (forecast_record_missing c Hmiss) as [e He].
    eapply mapM_some_raise; eauto.
Qed.

(** C4 (amended).  If a stored current-weather payload lacks one of the
    fields, or a stored forecast payload lacks [list] or has a slot that
    lacks one, [prepare_data] raises; what it raises is, unchanged, what
    reading one of the stored payloads raised (or [AttributeError] when
    [fetch_forecast] was never called), and for a payload with a missing
    field that is the exception of the failing subscript: [KeyError],
    [IndexError] or [TypeError].  If every stored payload has all the
    fields and, in addition, every [dt] is a number that
    [datetime.fromtimestamp] converts and every [list] can be iterated,
    [prepare_data] returns normally. *)
Theorem prepare_data_field_presence p :
  ((exists c data, In (c, data) (weather_data (self p)) /\
                   ~ has_fields weather_fields data) \/
   (exists fd c data, forecast_data (self p) = Some fd /\ In (c, data) fd /\
                      forecast_field_missing data) ->
   exists e, fst (prepare_data utcoffset p) = Raise e) /\
  (forall e, fst (prepare_data utcoffset p) = Raise e ->
     (exists c data, In (c, data) (weather_data (self p)) /\
                     weather_record utcoffset c data = Raise e) \/
     (forecast_data (self p) = None /\ e = AttributeError "forecast_data") \/
     (exists fd c data, forecast_data (self p) = Some fd /\ In (c, data) fd /\
                        city_forecast_records utcoffset c data = Raise e)) /\
  (forall c data, ~ has_fields weather_fields data ->
     exists e, weather_record utcoffset c data = Raise e /\ subscript_error e) /\
  ((forall c data, In (c, data) (weather_data (self p)) ->
                   complete_weather utcoffset data) ->
   (exists fd, forecast_data (self p) = Some fd /\
               forall c data, In (c, data) fd -> complete_forecast utcoffset data) ->
   fst (prepare_data utcoffset p) = Ok tt).
Proof.
  rewrite prepare_data_run. repeat split.
  - intros [[c [data [Hin Hmiss]]]|[fd [c [data [Hfd [Hin Hmiss]]]]]].
    + destruct (weather_record_missing c Hmiss) as [e [He _]].
      destruct (@mapM_some_raise _ _
                  (fun cd => weather_record utcoffset (fst cd) (snd cd))
                  (weather_data (self p)) (c, data) e Hin He) as [e' He'].
      unfold current_weather_records. rewrite He'. eexists. reflexivity.
    + destruct (current_weather_records utcoffset (weather_data (self p)));
        [|eexists; reflexivity].
      rewrite Hfd.
      destruct (city_forecast_records_missing c Hmiss) as [e He].
      destruct (@mapM_some_raise _ _
                  (fun cd => city_forecast_records utcoffset (fst cd) (snd cd))
                  fd (c, data) e Hin He) as [e' He'].
      unfold forecast_records, rbind. rewrite He'. eexists. reflexivity.
  - intros e.
    destruct (current_weather_records utcoffset (weather_data (self p))) as [recs|e1] eqn:Ec.
    + destruct (forecast_data (self p)) as [fd|] eqn:Ef.
      * destruct (forecast_records utcoffset fd) as [frecs|e2] eqn:Efr;
          cbn; intros H; inversion H; subst.
        right. right. unfold forecast_records, rbind in Efr.
        destruct (mapM _ fd) as [x|e3] eqn:Em; inversion Efr; subst.
        apply mapM_raise in Em. destruct Em as [[c data] [Hin He]].
        exists fd, c, data. auto.
      * cbn. intros H. inversion H; subst. right. left. auto.
    + cbn. intros H. inversion H; subst. left.
      apply mapM_raise in Ec. destruct Ec as [[c data] [Hin He]].
      exists c, data. auto.
  - intros c data. apply weather_record_missing.
  - intros Hw [fd [Hfd Hf]].
    destruct (@mapM_all_ok _ _ (fun cd => weather_record utcoffset (fst cd) (snd cd))
                (weather_data (self p))) as [recs Hrecs].
    { intros [c data] Hin. apply weather_record_complete. eauto. }
    unfold current_weather_records. rewrite Hrecs, Hfd.
    destruct (@mapM_all_ok _ _
                (fun cd => city_forecast_records utcoffset (fst cd) (snd cd)) fd)
      as [frecs Hfrecs].
    { intros [c data] Hin. apply city_forecast_records_complete. eauto. }
    unfold forecast_records, rbind. rewrite Hfrecs. reflexivity.
Qed.
End Fields.

Lemma has_fields_weather_payload dt : has_fields weather_fields (weather_payload dt).
Proof.
  intros path Hin. simpl in Hin. unfold present.
  repeat (destruct Hin as [<-|Hin]; [eexists; reflexivity|]). contradiction.
Qed.

(** C4 as stated fails in its second half: a payload with every field
    present, and a text where the epoch number should be, makes
    [prepare_data] raise [TypeError]. *)
Lemma text_timestamp_counterexample :
  let p := snd ((fetch_current_weather ;; fetch_forecast (PyInt 5)) text_time) in
  (forall c data, In (c, data) (weather_data (self p)) ->
                  has_fields weather_fields data) /\
  (exists fd, forecast_data (self p) = Some fd /\
              forall c data, In (c, data) fd -> complete_forecast utc data) /\
  fst (prepare_data utc p) = Raise TypeError.
Proof.
  intros p. split; [|split].
  - intros c data Hin. vm_compute in Hin. destruct Hin as [Hin|[]].
    inversion Hin; subst.
    apply (has_fields_weather_payload (PyStr "soon")).
  - eexists. split; [vm_compute; reflexivity|].
    intros c data Hin. destruct Hin as [Hin|[]]. inversion Hin; subst.
    eexists. eexists. split; [reflexivity|]. split; [reflexivity|].
    intros item Hitem. 
    repeat (destruct Hitem as [<-|Hitem];
       [split;
         [ intros path Hp; simpl in Hp; unfold present;
           repeat (destruct Hp as [<-|Hp]; [eexists; reflexivity|]); contradiction
         | eexists; eexists; split; reflexivity ] |]).
    contradiction.
  - vm_compute. reflexivity.
Qed.

Lemma complete_weather_payload t :
  Datetime.min_seconds + Datetime.max_fold_seconds <= t <= Datetime.max_seconds ->
  complete_weather utc (weather_payload (PyInt t)).
Proof.
  intros Ht. split; [apply has_fields_weather_payload|].
  exists (PyInt t), (t * 1000000 + 0). split; [reflexivity|].
  unfold Datetime.max_fold_seconds in Ht.
  unfold fromtimestamp, of_timeval, local, in_range, max_fold_seconds, utc.
  rewrite !Z.add_0_r.
  replace (t - (t - 24 * 3600) - 24 * 3600) with 0 by lia.
  assert (H1 : (Datetime.min_seconds <=? t) = true) by (apply Z.leb_le; lia).
  assert (H2 : (t <=? Datetime.max_seconds) = true) by (apply Z.leb_le; lia).
  assert (H3 : (Datetime.min_seconds <=? t - 24 * 3600) = true)
    by (apply Z.leb_le; lia).
  assert (H4 : (t - 24 * 3600 <=? Datetime.max_seconds) = true)
    by (apply Z.leb_le; lia).
  rewrite H1, H2, H3, H4. reflexivity.
Qed.

Lemma prepare_data_field_presence_witness :
  let p := snd ((fetch_current_weather ;; fetch_forecast (PyInt 5)) paris_rome) in
  fst (prepare_data utc p) = Ok tt.
Proof.
  intros p.
  apply (proj2 (proj2 (proj2 (prepare_data_field_presence utc p)))).
  - intros c data Hin. vm_compute in Hin.
    destruct Hin as [Hin|[Hin|[]]]; inversion Hin; subst;
      apply (@complete_weather_payload 1700000000); vm_compute; split; discriminate.
  - eexists. split; [vm_compute; reflexivity|].
    intros c data Hin.
    destruct Hin as [Hin|[Hin|[]]]; inversion Hin; subst;
      (eexists; eexists; split; [reflexivity|]; split; [reflexivity|];
       intros item Hitem;
       repeat (destruct Hitem as [<-|Hitem];
         [split;
           [ intros path Hp; simpl in Hp; unfold present;
             repeat (destruct Hp as [<-|Hp]; [eexists; reflexivity|]); contradiction
           | eexists; eexists; split; reflexivity ] |]);
       contradiction).
Defined.

(** A payload without [wind]: the exception is the [KeyError] of that key. *)
Example missing_wind_raises_KeyError :
  weather_record utc "Paris"
    (PyDict [("main", PyDict [("temp", PyInt 1); ("feels_like", PyInt 1);
                              ("humidity", PyInt 1); ("pressure", PyInt 1)]);
             ("dt", PyInt 0)])
  = Raise (KeyError (KStr "wind")).
Proof. reflexivity. Qed.

(** An empty [weather] array: [weather[0]] raises [IndexError]. *)
Example empty_weather_raises_IndexError :
  weather_record utc "Paris"
    (PyDict [("main", PyDict [("temp", PyInt 1); ("feels_like", PyInt 1);
                              ("humidity", PyInt 1); ("pressure", PyInt 1)]);
             ("wind", PyDict [("speed", PyInt 1)]);
             ("weather", PyList []);
             ("dt", PyInt 0)])
  = Raise IndexError.
Proof. reflexivity. Qed.

End Fields.

(** ** The forecast trend chart *)

Module Chart.
Import Py Builtins Datetime Runtime Dashboard Spec DictFacts FetchFacts TransformFacts.
Import Examples.
Local Open Scope monad_scope.

Lemma column_nonempty {A} (name : string) (df : list A) :
  df <> [] -> column name df = Ok df.
Proof. destruct df; [congruence|reflexivity]. Qed.

Lemma plotted_iff cs df now r :
  (forall r, In r df -> In (city (slot r)) cs) ->
  plotted cs df now r <->
  In r df /\ timestamp (slot r) <= now + timedelta_days 5.
Proof.
  intros Htracked. unfold plotted, forecast_trend_series, rbind. split.
  - intros [series [c [rows [Hs [Hin Hr]]]]].
    destruct (column "timestamp" df); [|discriminate].
    inversion Hs; subst; clear Hs.
    apply in_map_iff in Hin. destruct Hin as [c' [Heq Hc']].
    inversion Heq; subst; clear Heq.
    apply filter_In in Hr. destruct Hr as [Hr _].
    apply filter_In in Hr. destruct Hr as [Hr Hle].
    split; [exact Hr|]. now apply Z.leb_le.
  - intros [Hin Hle].
    rewrite column_nonempty by (intros ->; destruct Hin).
    eexists. exists (city (slot r)). eexists.
    split; [reflexivity|]. split.
    + apply in_map_iff. exists (city (slot r)). split; [reflexivity|].
      now apply Htracked.
    + apply filter_In. split; [|apply String.eqb_refl].
      apply filter_In. split; [exact Hin|]. now apply Z.leb_le.
Qed.

Section Chart.
Variable render_error : figure -> option exn.

Lemma visualize_forecast_trends_run p df :
  forecast_df (self p) = Some df ->
  let now := clock (world p) (clock_reads (world p)) in
  let p1 := on_world (fun w => with_clock_reads w (S (clock_reads w))) p in
  visualize_forecast_trends render_error p =
  match forecast_trend_series (cities (self p)) df now with
  | Raise e => (Raise e, p1)
  | Ok series =>
      match render_error (ForecastTrends series) with
      | Some e => (Raise e, p1)
      | None =>
          match fs_error (world p) "output/forecast_trends.png" with
          | Some e => (Raise e, p1)
          | None =>
              (Ok tt,
               on_world (fun w => with_files w
                           (files w ++ [("output/forecast_trends.png",
                                         Image (ForecastTrends series))])) p1)
          end
      end
  end.
Proof.
  intros Hdf now p1.
  unfold visualize_forecast_trends, bind, datetime_now, getattr, gets, lift.
  cbn [self on_world]. rewrite Hdf.
  fold now. fold p1. change (self p1) with (self p).
  destruct (forecast_trend_series (cities (self p)) df now) as [series|e]; [|reflexivity].
  unfold savefig. destruct (render_error (ForecastTrends series)); [reflexivity|].
  unfold write_file. cbn [world p1 on_world with_clock_reads fs_error].
  destruct (fs_error (world p) "output/forecast_trends.png"); reflexivity.
Qed.

(** C6.  For every forecast table whose rows belong to tracked cities (as
    the rows of a table built by [prepare_data] do) and every reading of
    the clock at render time, the rows that [visualize_forecast_trends]
    plots are exactly the rows of the table whose timestamp is at most
    [now + 5 days]; later rows are left out.  The figure written by a call
    that returns is drawn from these series, and the call returns whenever
    the table is not empty, the plotting library draws the figure and the
    file can be written. *)
Theorem trend_chart_rows p df :
  forecast_df (self p) = Some df ->
  (forall r, In r df -> In (city (slot r)) (cities (self p))) ->
  let now := clock (world p) (clock_reads (world p)) in
  (forall r, plotted (cities (self p)) df now r <->
             In r df /\ timestamp (slot r) <= now + timedelta_days 5) /\
  (forall p', visualize_forecast_trends render_error p = (Ok tt, p') ->
     exists series,
       forecast_trend_series (cities (self p)) df now = Ok series /\
       files (world p') =
         (files (world p) ++
            [("output/forecast_trends.png", Image (ForecastTrends series))])%list) /\
  (df <> [] ->
   (forall series, render_error (ForecastTrends series) = None) ->
   fs_error (world p) "output/forecast_trends.png" = None ->
   fst (visualize_forecast_trends render_error p) = Ok tt).
Proof.
  intros Hdf Htracked now. split; [|split].
  - intros r. now apply plotted_iff.
  - intros p'. rewrite (visualize_forecast_trends_run p Hdf). fold now.
    destruct (forecast_trend_series (cities (self p)) df now) as [series|e]; [|discriminate].
    destruct (render_error (ForecastTrends series)); [discriminate|].
    destruct (fs_error (world p) "output/forecast_trends.png"); [discriminate|].
    intros H. inversion H; subst. exists series. split; reflexivity.
  - intros Hne Hrender Hfs. rewrite (visualize_forecast_trends_run p Hdf). fold now.
    unfold forecast_trend_series, rbind.
    rewrite column_nonempty by assumption.
    rewrite Hrender, Hfs. reflexivity.
Qed.
End Chart.

(** A frame built from no records has no [timestamp] column: the method
    raises before anything is plotted. *)
Lemma empty_frame_has_no_timestamp_column cs now :
  forecast_trend_series cs [] now = Raise (KeyError (KStr "timestamp")).
Proof. reflexivity. Qed.

(** A city whose requests were all refused is still given a series in the
    chart, an empty one: the method loops over the tracked cities. *)
Example refused_city_keeps_its_series :
  let p := snd ((fetch_current_weather ;; fetch_forecast (PyInt 5) ;;
                 prepare_data utc) rome_refused) in
  exists df series,
    forecast_df (self p) = Some df /\
    forecast_trend_series (cities (self p)) df
      (clock (world p) (clock_reads (world p))) = Ok series /\
    In ("Rome", []) series.
Proof.
  intros p. eexists. eexists. split; [vm_compute; reflexivity|].
  split; [vm_compute; reflexivity|]. right. left. reflexivity.
Qed.

Lemma exchanges_cities net url cs : forall n,
  map fst (exchanges net n url cs) = cs.
Proof. induction cs as [|c cs IH]; intros n; simpl; [reflexivity|]. now rewrite IH. Qed.

Section Tracked.
Variable utcoffset : Z -> Z.

Lemma forecast_records_cities fd : forall df r,
  forecast_records utcoffset fd = Ok df -> In r df -> In (city (slot r)) (keys fd).
Proof.
  unfold forecast_records, rbind.
  induction fd as [|[c data] fd IH]; intros df r H Hin.
  - simpl in H. inversion H; subst. destruct Hin.
  - simpl in H.
    destruct (city_forecast_records utcoffset c data) as [rs|] eqn:E; [|discriminate].
    destruct (mapM _ fd) as [rest|] eqn:Er; [|discriminate].
    inversion H; subst; clear H. simpl in Hin. apply in_app_or in Hin.
    destruct Hin as [Hin|Hin].
    + left. apply city_forecast_records_spec in E. destruct E as [Hall _].
      rewrite Forall_forall in Hall. symmetry. now apply Hall.
    + right. apply (IH (List.concat rest) r); [reflexivity|assumption].
Qed.

Lemma pipeline_rows_tracked days p df :
  forecast_df (self p) = None ->
  let p' := snd ((fetch_forecast days ;; prepare_data utcoffset) p) in
  forecast_df (self p') = Some df ->
  forall r, In r df -> In (city (slot r)) (cities (self p')).
Proof.
  intros Hnone p' Hdf r Hin.
  assert (Hc : cities (self p') = cities (self p)).
  { subst p'. unfold bind. rewrite fetch_forecast_replay.
    destruct (replay _ _ _) as [[[r2 d2] out2] k2]. cbn [after_forecast_loop].
    destruct r2 as [[]|]; [|reflexivity].
    rewrite prepare_data_run.
    cbn [self set_forecast_data weather_data forecast_data].
    destruct (current_weather_records _ _); [|reflexivity].
    destruct (forecast_records _ _); reflexivity. }
  rewrite Hc.
  apply (@Tables.forecast_run_df utcoffset days p df Hnone) in Hdf.
  destruct Hdf as [Hu [_ Hrecs]].
  pose proof (@forecast_records_cities _ _ _ Hrecs Hin) as Hk.
  pose proof (@replay_keys_origin forecast_error_line (forecast_exchanges p) []
                (city (slot r))) as Ho.
  rewrite (replay_usable forecast_error_line _ [] Hu) in Ho.
  destruct (Ho Hk) as [[]|[b Hb]].
  apply (in_map fst) in Hb. unfold forecast_exchanges in Hb.
  now rewrite exchanges_cities in Hb.
Qed.
End Tracked.

Lemma trend_chart_rows_witness :
  let now := clock (world long_range) (clock_reads (world long_range)) in
  exists df,
    forecast_df (self long_range) = Some df /\
    (exists r, In r df /\ timestamp (slot r) = 1700000000000000 /\
               plotted (cities (self long_range)) df now r) /\
    (exists r, In r df /\ timestamp (slot r) = 1700518400000000 /\
               ~ plotted (cities (self long_range)) df now r).
Proof.
  intros now.
  destruct (forecast_df (self long_range)) as [df|] eqn:E;
    [|vm_compute in E; discriminate].
  exists df. split; [reflexivity|].
  assert (Htracked : forall r, In r df -> In (city (slot r)) (cities (self long_range))).
  { intros r Hin. vm_compute in E. injection E as <-.
    destruct Hin as [<-|[<-|[]]]; vm_compute; left; reflexivity. }
  destruct (@trend_chart_rows (fun _ => None) long_range df E Htracked) as [Hiff _].
  fold now in Hiff.
  vm_compute in E. injection E as E. 
  split.
  - eexists. split; [rewrite <- E; left; reflexivity|].
    split; [reflexivity|]. apply Hiff. split.
    + rewrite <- E. left. reflexivity.
    + vm_compute. discriminate.
  - eexists. split; [rewrite <- E; right; left; reflexivity|].
    split; [reflexivity|]. intros Hp. apply Hiff in Hp.
    destruct Hp as [_ Hle]. vm_compute in Hle. apply Hle. reflexivity.
Defined.

End Chart.

(** ** The Markdown report *)

Module Report.
Import Py Builtins Datetime Runtime Dashboard Spec DictFacts FetchFacts TransformFacts.
Import Examples.
Local Open Scope monad_scope.

Lemma append_assoc (a b c : string) : (a ++ b) ++ c = a ++ (b ++ c).
Proof. induction a as [|x a IH]; simpl; [reflexivity|]. now rewrite IH. Qed.

Lemma append_nil_r (a : string) : a ++ "" = a.
Proof. induction a as [|x a IH]; simpl; [reflexivity|]. now rewrite IH. Qed.

Lemma occurs_in_refl s : occurs_in s s.
Proof. exists "", "". simpl. now rewrite append_nil_r. Qed.

Lemma occurs_in_trans a b c : occurs_in a b -> occurs_in b c -> occurs_in a c.
Proof.
  intros [p1 [q1 ->]] [p2 [q2 ->]].
  exists (p2 ++ p1), (q1 ++ q2). now rewrite !append_assoc.
Qed.

Lemma occurs_in_append_l a s t : occurs_in a t -> occurs_in a (s ++ t).
Proof. intros [p [q ->]]. exists (s ++ p), q. now rewrite append_assoc. Qed.

Lemma occurs_in_append_r a s t : occurs_in a s -> occurs_in a (s ++ t).
Proof. intros [p [q ->]]. exists p, (q ++ t). now rewrite !append_assoc. Qed.

Lemma occurs_in_concat s l : In s l -> occurs_in s (String.concat "" l).
Proof.
  induction l as [|x l IH]; simpl; [tauto|].
  intros [->|Hin].
  - destruct l; [apply occurs_in_refl|].
    apply occurs_in_append_r, occurs_in_refl.
  - destruct l as [|y l]; [destruct Hin|].
    apply occurs_in_append_l. simpl (_ ++ _). apply IH. exact Hin.
Qed.

Section Report.
Variable py_str : value -> string.
Variable capitalize_text : string -> string.
Variable strftime : datetime -> string.

Lemma report_text_sections df now report row text :
  report_text py_str capitalize_text strftime df now = Ok report ->
  In row df -> report_section py_str capitalize_text row = Ok text ->
  occurs_in text report.
Proof.
  unfold report_text, rbind. intros H Hin Hsec.
  destruct (mapM (report_section py_str capitalize_text) df) as [sections|] eqn:E; [|discriminate].
  assert (Hr : report = report_header strftime now ++ String.concat "" sections)
    by congruence.
  rewrite Hr. clear H Hr.
  apply mapM_ok_Forall2 in E.
  destruct (@Fetching.Forall2_in_left _ _ _ _ _ _ E Hin) as [b [Hb Hbin]].
  assert (b = text) by congruence. subst b.
  apply (@occurs_in_append_l text (report_header strftime now)).
  now apply occurs_in_concat.
Qed.

Lemma create_weather_report_run p :
  let now := clock (world p) (clock_reads (world p)) in
  let p1 := on_world (fun w => with_clock_reads w (S (clock_reads w))) p in
  create_weather_report py_str capitalize_text strftime p =
  match current_df (self p) with
  | None => (Raise (AttributeError "current_df"), p1)
  | Some df =>
      match report_text py_str capitalize_text strftime df now with
      | Raise e => (Raise e, p1)
      | Ok report =>
          match fs_error (world p) "output/weather_report.md" with
          | Some e => (Raise e, p1)
          | None =>
              (Ok tt,
               on_world (fun w => with_stdout w (stdout w ++ [report_line]))
                 (on_world (fun w => with_files w
                              (files w ++ [("output/weather_report.md", Text report)]))
                    p1))
          end
      end
  end.
Proof.
  intros now p1.
  unfold create_weather_report, bind, datetime_now, getattr, lift.
  cbn [self on_world]. fold now. fold p1. change (self p1) with (self p).
  destruct (current_df (self p)) as [df|]; [|reflexivity].
  destruct (report_text py_str capitalize_text strftime df now) as [report|e]; [|reflexivity].
  unfold write_file. cbn [world p1 on_world with_clock_reads fs_error].
  destruct (fs_error (world p) "output/weather_report.md"); reflexivity.
Qed.

Lemma scenario_section row :
  temperature row = PyFloat (float_lit 205 1) ->
  feels_like row = PyFloat (float_lit 198 1) ->
  description row = PyStr "clear sky" ->
  exists text,
    report_section py_str capitalize_text row = Ok text /\
    (exists rest, text = "## " ++ city row ++ nl ++ nl ++ rest) /\
    occurs_in "Temperature**: 20.5°C (Feels like: 19.8°C)" text /\
    occurs_in "Description**: Clear sky" text.
Proof.
  intros Ht Hf Hd. unfold report_section, rbind.
  rewrite Ht, Hf, Hd.
  change (format_1f (PyFloat (float_lit 205 1))) with (@Ok string "20.5").
  change (format_1f (PyFloat (float_lit 198 1))) with (@Ok string "19.8").
  change (capitalize capitalize_text (PyStr "clear sky"))
    with (@Ok string "Clear sky").
  eexists. split; [reflexivity|]. split; [|split].
  - eexists. reflexivity.
  - exists ("## " ++ city row ++ nl ++ nl ++ "- **").
    eexists. rewrite !append_assoc. reflexivity.
  - exists ("## " ++ city row ++ nl ++ nl ++
            "- **Temperature**: 20.5°C (Feels like: 19.8°C)" ++ nl ++ "- **").
    eexists. rewrite !append_assoc. reflexivity.
Qed.

(** C7.  For a current-weather table that holds a row with temperature
    20.5, feels_like 19.8, humidity 60, wind_speed 3.2 and description
    "clear sky", whatever its city, pressure and timestamp: the file
    [output/weather_report.md] that a returning [create_weather_report]
    writes holds a report with the section of the row, which starts with
    the heading of its city and contains
    [Temperature**: 20.5°C (Feels like: 19.8°C)] and
    [Description**: Clear sky].  The call returns whenever every row of
    the table can be formatted and the file can be written. *)
Theorem report_section_scenario p df row :
  current_df (self p) = Some df -> In row df ->
  temperature row = PyFloat (float_lit 205 1) ->
  feels_like row = PyFloat (float_lit 198 1) ->
  humidity row = PyInt 60 ->
  wind_speed row = PyFloat (float_lit 32 1) ->
  description row = PyStr "clear sky" ->
  let r := create_weather_report py_str capitalize_text strftime p in
  (fst r = Ok tt ->
   exists report section,
     files (world (snd r)) =
       (files (world p) ++ [("output/weather_report.md", Text report)])%list /\
     occurs_in section report /\
     (exists rest, section = "## " ++ city row ++ nl ++ nl ++ rest) /\
     occurs_in "Temperature**: 20.5°C (Feels like: 19.8°C)" section /\
     occurs_in "Description**: Clear sky" section) /\
  (forallb (fun x => is_ok (report_section py_str capitalize_text x)) df = true ->
   fs_error (world p) "output/weather_report.md" = None ->
   fst r = Ok tt).
Proof.
  intros Hdf Hin Ht Hf Hh Hw Hd r. subst r.
  rewrite create_weather_report_run, Hdf.
  destruct (scenario_section row Ht Hf Hd) as [section [Hsec [Hhead [Htemp Hdesc]]]].
  split.
  - destruct (report_text py_str capitalize_text strftime df _) as [report|e] eqn:E;
      [|discriminate].
    destruct (fs_error (world p) "output/weather_report.md"); [discriminate|].
    intros _. exists report, section. cbn.
    split; [reflexivity|]. split; [|auto].
    eapply report_text_sections; eauto.
  - intros Hrows Hfs. rewrite Hfs.
    destruct (@mapM_all_ok _ _ (report_section py_str capitalize_text) df) as [ss Hss].
    { intros x Hx. rewrite forallb_forall in Hrows. specialize (Hrows x Hx).
      destruct (report_section py_str capitalize_text x); [eauto|discriminate]. }
    unfold report_text. rewrite Hss. reflexivity.
Qed.
End Report.

Lemma report_section_scenario_witness :
  let r := create_weather_report plain_str no_recasing fixed_strftime prepared in
  fst r = Ok tt /\
  exists report,
    In ("output/weather_report.md", Text report) (files (world (snd r))) /\
    occurs_in "Temperature**: 20.5°C (Feels like: 19.8°C)" report /\
    occurs_in "Description**: Clear sky" report.
Proof.
  intros r.
  destruct (@report_section_scenario plain_str no_recasing fixed_strftime prepared
              _ paris_row eq_refl (or_introl eq_refl)
              eq_refl eq_refl eq_refl eq_refl eq_refl)
    as [Hfile Hret].
  assert (Hok : fst r = Ok tt) by (apply Hret; reflexivity).
  split; [exact Hok|].
  destruct (Hfile Hok) as [report [section [Hf [Hin [_ [Htemp Hdesc]]]]]].
  exists report. split.
  - fold r in Hf. rewrite Hf. apply in_or_app. right. left. reflexivity.
  - split; eapply occurs_in_trans; eauto.
Defined.

End Report.

(** ** The entry point *)

Module Entry.
Import Py Builtins Datetime Runtime Dashboard Main Spec DictFacts FetchFacts TransformFacts.
Import Examples.
Local Open Scope monad_scope.

Lemma init_without_key k w :
  no_key k w -> init k w = (Raise (ValueError missing_key_message), w).
Proof. unfold init. intros [H|H]; rewrite H; reflexivity. Qed.

Section Entry.
Variable utcoffset : Z -> Z.
Variable render_error : figure -> option exn.
Variable py_str : value -> string.
Variable capitalize_text : string -> string.
Variable strftime : datetime -> string.
Variable exn_message : exn -> string.

Lemma main_except_prints e w :
  main_except exn_message e w =
  (Ok tt, with_stdout w (stdout w ++ recovery_lines (str_exn exn_message e))).
Proof.
  unfold main_except, bind, print, modify. cbn.
  rewrite <- !app_assoc. destruct w. reflexivity.
Qed.

Lemma main_parsed_returns_zero cs k w :
  fst (main_parsed utcoffset render_error py_str capitalize_text strftime exn_message
         (Namespace cs k) w) = 0.
Proof.
  unfold main_parsed.
  destruct (main_try _ _ _ _ _ cs k w) as [[[]|e] w']; reflexivity.
Qed.

(** C8 (amended).  If neither [--api-key] nor [OPENWEATHER_API_KEY]
    supplies a non-empty key, constructing the dashboard raises
    [ValueError].  This and every other exception raised inside the [try]
    block of [main] is caught there: [Error: ...] and the four recovery
    lines are printed and the process ends with status 0.  A status other
    than 0 comes from argparse alone, which exits before the [try] block is
    entered (status 2 on a usage error), leaving the world untouched. *)
Theorem main_exit_status :
  (forall k w, no_key k w ->
     init k w = (Raise (ValueError missing_key_message), w)) /\
  (forall cs k w, fst (main_parsed utcoffset render_error py_str capitalize_text strftime exn_message
       (Namespace cs k) w) = 0) /\
  (forall cs k w e w',
     main_try utcoffset render_error py_str capitalize_text strftime cs k w = (Raise e, w') ->
     main_parsed utcoffset render_error py_str capitalize_text strftime exn_message
       (Namespace cs k) w =
     (0, with_stdout w' (stdout w' ++ recovery_lines (str_exn exn_message e)))) /\
  (forall cs k w,
     no_key k w ->
     main_parsed utcoffset render_error py_str capitalize_text strftime exn_message
       (Namespace cs k) w =
     (0, with_stdout w (stdout w ++ recovery_lines missing_key_message))) /\
  (forall argv w code w',
     main utcoffset render_error py_str capitalize_text strftime exn_message argv w
       = Some (code, w') ->
     code <> 0 ->
     parse_args argv = Some (SystemExit code) /\ w' = w).
Proof.
  split; [|split; [|split; [|split]]].
  - apply init_without_key.
  - apply main_parsed_returns_zero.
  - intros cs k w e w' H. unfold main_parsed. rewrite H.
    rewrite main_except_prints. reflexivity.
  - intros cs k w Hk. unfold main_parsed, main_try, bind.
    rewrite (init_without_key Hk). rewrite main_except_prints. reflexivity.
  - intros argv w code w' H Hne. unfold main in H.
    destruct (parse_args argv) as [[cs k|c]|]; [| |discriminate].
    + exfalso. apply Hne.
      pose proof (main_parsed_returns_zero cs k w) as Hz.
      assert (E : main_parsed utcoffset render_error py_str capitalize_text strftime exn_message
                    (Namespace cs k) w = (code, w')) by congruence.
      rewrite E in Hz. exact Hz.
    + assert (E : (c, w) = (code, w')) by (cbn [main_parsed] in H; congruence).
      injection E as -> ->. split; reflexivity.
Qed.
End Entry.

(** C8 as stated fails on a command line that argparse rejects: the
    process ends with status 2. *)
Lemma usage_error_counterexample :
  parse_args ["--bogus"] = Some (SystemExit 2) /\
  option_map fst
    (main utc (fun _ => None) plain_str no_recasing fixed_strftime (fun _ => "")
          ["--bogus"] (world_of good_server)) = Some 2.
Proof. split; reflexivity. Qed.

Lemma main_exit_status_witness :
  main utc (fun _ => None) plain_str no_recasing fixed_strftime (fun _ => "") [] keyless_world =
  Some (0, with_stdout keyless_world (recovery_lines missing_key_message)).
Proof.
  destruct (main_exit_status utc (fun _ => None) plain_str no_recasing fixed_strftime (fun _ => ""))
    as [_ [_ [_ [Hkey _]]]].
  unfold main. cbn [parse_args classify_all scan].
  rewrite (Hkey default_cities None keyless_world); [reflexivity|].
  left. reflexivity.
Defined.

End Entry.

(** * Further properties *)

(** ** The fetch loops: failures, order, what is left untouched *)

Module Requests.
Import Py Builtins Datetime Runtime Dashboard Main Spec DictFacts FetchFacts TransformFacts.
Import Examples.
Local Open Scope monad_scope.

Lemma replay_app line pre : forall rest d,
  forallb usable (map snd pre) = true ->
  replay line (pre ++ rest) d =
  let '(r, d', out, k) := replay line rest (store (payloads pre) d) in
  (r, d', (error_lines line pre ++ out)%list, (List.length pre + k)%nat).
Proof.
  induction pre as [|[c o] pre IH]; intros rest d Hu.
  - simpl. destruct (replay line rest d) as [[[r d'] out] k]. reflexivity.
  - simpl in Hu. apply andb_true_iff in Hu. destruct Hu as [Ho Hu].
    destruct o as [status body|]; [|discriminate]. simpl in Ho.
    cbn [app replay error_lines].
    destruct (status =? 200) eqn:E.
    + destruct body as [v|]; [|discriminate].
      rewrite (IH rest (setitem c v d) Hu). cbn [payloads]. rewrite E.
      cbn [store fold_left fst snd].
      destruct (replay line rest _) as [[[r d'] out] k]. reflexivity.
    + assert (Hp : payloads ((c, Response status body) :: pre) = payloads pre).
      { simpl. destruct body; rewrite ?E; reflexivity. }
      rewrite Hp, (IH rest d Hu).
      destruct (replay line rest _) as [[[r d'] out] k]. reflexivity.
Qed.

Lemma replay_failure line c o rest d :
  usable o = false ->
  replay line ((c, o) :: rest) d = (Raise (failure_of o), d, [], 1%nat).
Proof.
  destruct o as [status body|]; simpl; [|reflexivity].
  destruct (status =? 200); [|discriminate].
  destruct body; [discriminate|reflexivity].
Qed.

Lemma exchanges_length net url cs : forall n,
  List.length (exchanges net n url cs) = List.length cs.
Proof. induction cs; intros n; simpl; auto. Qed.

Lemma exchanges_split_length net url cs n pre x rest :
  exchanges net n url cs = (pre ++ x :: rest)%list ->
  (List.length pre < List.length cs)%nat.
Proof.
  intros H. apply (f_equal (@List.length _)) in H.
  rewrite exchanges_length, length_app in H. simpl in H. lia.
Qed.

(** X1.  A fetch loop ends at the first request that gets no response, or
    a 200 answer whose body is not JSON: it raises [ConnectionError] or
    [JSONDecodeError]; the payloads stored and the lines printed before it
    stay, the failing request is the last one sent, and the cities after it
    are never requested. *)
Theorem fetch_stops_at_first_failure p pre c o rest :
  forallb usable (map snd pre) = true ->
  usable o = false ->
  (weather_exchanges p = (pre ++ (c, o) :: rest)%list ->
   let r := fetch_current_weather p in
   fst r = Raise (failure_of o) /\
   weather_data (self (snd r)) = store (payloads pre) (weather_data (self p)) /\
   stdout (world (snd r)) =
     (stdout (world p) ++ error_lines weather_error_line pre)%list /\
   sent (world (snd r)) =
     (sent (world p) ++
      map (weather_url (self p)) (firstn (S (List.length pre)) (cities (self p))))%list) /\
  (forall days,
   forecast_exchanges p = (pre ++ (c, o) :: rest)%list ->
   let r := fetch_forecast days p in
   fst r = Raise (failure_of o) /\
   forecast_data (self (snd r)) = Some (store (payloads pre) []) /\
   stdout (world (snd r)) =
     (stdout (world p) ++ error_lines forecast_error_line pre)%list /\
   sent (world (snd r)) =
     (sent (world p) ++
      map (forecast_url (self p)) (firstn (S (List.length pre)) (cities (self p))))%list).
Proof.
  intros Hu Ho. split.
  - intros Hx r. subst r. rewrite fetch_current_weather_replay, Hx.
    rewrite (@replay_app _ _ _ _ Hu), (@replay_failure _ _ _ _ _ Ho).
    cbn [after_weather_loop fst snd self world set_weather_data weather_data
         stdout sent with_stdout with_sent].
    rewrite app_nil_r. repeat split.
    f_equal. rewrite firstn_map. f_equal. f_equal. lia.
  - intros days Hx r. subst r. rewrite fetch_forecast_replay, Hx.
    rewrite (@replay_app _ _ _ _ Hu), (@replay_failure _ _ _ _ _ Ho).
    cbn [after_forecast_loop fst snd self world set_forecast_data forecast_data
         stdout sent with_stdout with_sent].
    rewrite app_nil_r. repeat split.
    f_equal. rewrite firstn_map. f_equal. f_equal. lia.
Qed.

Lemma existsb_eqb_in x l : existsb (String.eqb x) l = true <-> In x l.
Proof.
  rewrite existsb_exists. split.
  - intros [y [Hin E]]. apply String.eqb_eq in E. now subst.
  - intros Hin. exists x. split; [assumption|apply String.eqb_refl].
Qed.

Lemma keys_store ps : forall d,
  keys (store ps d) = (keys d ++ first_seen (keys d) (map fst ps))%list.
Proof.
  unfold store. induction ps as [|[c0 v0] ps IH]; intros d; simpl.
  - now rewrite app_nil_r.
  - rewrite IH. destruct (existsb (String.eqb c0) (keys d)) eqn:E.
    + apply existsb_eqb_in in E. now rewrite keys_setitem_present.
    + assert (Hn : ~ In c0 (keys d)).
      { intros Hin. apply existsb_eqb_in in Hin. congruence. }
      rewrite keys_setitem_absent by assumption.
      now rewrite <- app_assoc.
Qed.

(** X2.  When a fetch loop returns, the payload a mapping holds for a city
    is that of the city's last 200 answer in the call (for
    [weather_data], the earlier payload if there was none), and the keys
    keep the order in which the cities were first stored. *)
Theorem last_answer_is_stored p :
  (forallb usable (map snd (weather_exchanges p)) = true ->
   let ps := payloads (weather_exchanges p) in
   let d := weather_data (self p) in
   let d' := weather_data (self (snd (fetch_current_weather p))) in
   (forall c, lookup c d' =
              match last_payload c ps with
              | Some v => Some v
              | None => lookup c d
              end) /\
   keys d' = (keys d ++ first_seen (keys d) (map fst ps))%list) /\
  (forall days,
   forallb usable (map snd (forecast_exchanges p)) = true ->
   let ps := payloads (forecast_exchanges p) in
   exists d',
     forecast_data (self (snd (fetch_forecast days p))) = Some d' /\
     (forall c, lookup c d' = last_payload c ps) /\
     keys d' = first_seen [] (map fst ps)).
Proof.
  split.
  - intros Hu ps d d'. subst d'.
    rewrite Fetching.weather_data_after_fetch, replay_usable by assumption.
    cbn [fst snd]. split; [intros c; apply lookup_store|apply keys_store].
  - intros days Hu ps. eexists. split.
    + rewrite Fetching.forecast_data_after_fetch, replay_usable by assumption.
      reflexivity.
    + cbn [fst snd]. split.
      * intros c. rewrite lookup_store. now destruct (last_payload c _).
      * apply keys_store.
Qed.

(** X3.  [fetch_current_weather] changes nothing but [weather_data], the
    request log and standard output; [fetch_forecast] nothing but
    [forecast_data], the log and the output, and what it leaves does not
    depend on what [forecast_data] held before. *)
Theorem fetchers_touch_one_mapping p :
  (exists d out urls,
     snd (fetch_current_weather p) =
     {| self := set_weather_data d (self p);
        world := with_stdout (with_sent (world p) (sent (world p) ++ urls))
                             (stdout (world p) ++ out) |}) /\
  (forall days, exists d out urls,
     snd (fetch_forecast days p) =
     {| self := set_forecast_data d (self p);
        world := with_stdout (with_sent (world p) (sent (world p) ++ urls))
                             (stdout (world p) ++ out) |}) /\
  (forall days fd0,
     fetch_forecast days (on_self (set_forecast_data fd0) p) =
     fetch_forecast days p).
Proof.
  split; [|split].
  - rewrite fetch_current_weather_replay.
    destruct (replay _ _ _) as [[[r d] out] k]. cbn. eauto.
  - intros days. rewrite fetch_forecast_replay.
    destruct (replay _ _ _) as [[[r d] out] k]. cbn. eauto.
  - intros days fd0. rewrite !fetch_forecast_replay. reflexivity.
Qed.

Lemma exchanges_in net url cs c : forall n,
  In c cs -> exists o, In (c, o) (exchanges net n url cs).
Proof.
  induction cs as [|c0 cs IH]; intros n; simpl; [tauto|].
  intros [->|Hin]; [eauto|].
  destruct (IH (S n) Hin) as [o Ho]. eauto.
Qed.

(** X4.  When a fetch loop returns, what it has printed is exactly one
    error line per refused request, in request order, and every listed
    city either has an entry in the mapping or an error line with a
    status other than 200. *)
Theorem every_city_is_stored_or_reported p :
  (forallb usable (map snd (weather_exchanges p)) = true ->
   let r := fetch_current_weather p in
   stdout (world (snd r)) =
     (stdout (world p) ++ error_lines weather_error_line (weather_exchanges p))%list /\
   forall c, In c (cities (self p)) ->
     In c (keys (weather_data (self (snd r)))) \/
     exists status, status <> 200 /\
                    In (weather_error_line c status) (stdout (world (snd r)))) /\
  (forall days,
   forallb usable (map snd (forecast_exchanges p)) = true ->
   let r := fetch_forecast days p in
   stdout (world (snd r)) =
     (stdout (world p) ++ error_lines forecast_error_line (forecast_exchanges p))%list /\
   forall c, In c (cities (self p)) ->
     (exists fd, forecast_data (self (snd r)) = Some fd /\ In c (keys fd)) \/
     exists status, status <> 200 /\
                    In (forecast_error_line c status) (stdout (world (snd r)))).
Proof.
  split.
  - intros Hu r. subst r.
    assert (Hout : stdout (world (snd (fetch_current_weather p))) =
      (stdout (world p) ++ error_lines weather_error_line (weather_exchanges p))%list).
    { rewrite fetch_current_weather_replay, replay_usable by assumption. reflexivity. }
    split; [exact Hout|]. intros c Hin.
    destruct (@exchanges_in (net (world p)) (weather_url (self p)) _ c
                (List.length (sent (world p))) Hin) as [o Ho].
    fold (weather_exchanges p) in Ho.
    assert (Huo : usable o = true).
    { rewrite forallb_forall in Hu. apply Hu.
      change o with (snd (c, o)). now apply in_map. }
    destruct o as [status body|]; [|discriminate].
    destruct (Z.eq_dec status 200) as [->|Hne].
    + left. rewrite Fetching.weather_data_after_fetch.
      apply replay_answered.
      * now apply replay_ok_iff.
      * now exists body.
    + right. exists status. split; [assumption|]. rewrite Hout.
      apply in_or_app. right.
      apply (@Fetching.error_lines_in weather_error_line _ c status body); assumption.
  - intros days Hu r. subst r.
    assert (Hout : stdout (world (snd (fetch_forecast days p))) =
      (stdout (world p) ++ error_lines forecast_error_line (forecast_exchanges p))%list).
    { rewrite fetch_forecast_replay, replay_usable by assumption. reflexivity. }
    split; [exact Hout|]. intros c Hin.
    destruct (@exchanges_in (net (world p)) (forecast_url (self p)) _ c
                (List.length (sent (world p))) Hin) as [o Ho].
    fold (forecast_exchanges p) in Ho.
    assert (Huo : usable o = true).
    { rewrite forallb_forall in Hu. apply Hu.
      change o with (snd (c, o)). now apply in_map. }
    destruct o as [status body|]; [|discriminate].
    destruct (Z.eq_dec status 200) as [->|Hne].
    + left. eexists. split; [apply Fetching.forecast_data_after_fetch|].
      apply replay_answered.
      * now apply replay_ok_iff.
      * now exists body.
    + right. exists status. split; [assumption|]. rewrite Hout.
      apply in_or_app. right.
      apply (@Fetching.error_lines_in forecast_error_line _ c status body); assumption.
Qed.

Lemma fetch_stops_at_first_failure_witness :
  let r := fetch_current_weather three_cities in
  fst r = Raise JSONDecodeError /\
  keys (weather_data (self (snd r))) = ["Paris"] /\
  List.length (sent (world (snd r))) = 2%nat.
Proof.
  intros r.
  destruct (@fetch_stops_at_first_failure three_cities
              [("Paris", Response 200 (Some (weather_payload (PyInt 1700000000))))]
              "Rome" (Response 200 None)
              [("Oslo", Response 200 (Some (weather_payload (PyInt 1700000000))))]
              eq_refl eq_refl) as [Hw _].
  destruct (Hw eq_refl) as [Hr [Hd [_ Hs]]].
  split; [exact Hr|]. split.
  - fold r in Hd. rewrite Hd. reflexivity.
  - fold r in Hs. rewrite Hs. reflexivity.
Defined.

Lemma last_answer_is_stored_witness :
  keys (weather_data (self (snd (fetch_current_weather twice_paris)))) = ["Paris"] /\
  lookup "Paris" (weather_data (self (snd (fetch_current_weather twice_paris))))
  = Some (weather_payload (PyInt 1700000000)).
Proof.
  destruct (last_answer_is_stored twice_paris) as [Hw _].
  destruct (Hw eq_refl) as [Hl Hk]. split.
  - rewrite Hk. reflexivity.
  - rewrite Hl. reflexivity.
Defined.

Lemma every_city_is_stored_or_reported_witness :
  In "Error fetching data for Rome: 404"
     (stdout (world (snd (fetch_current_weather rome_refused)))).
Proof.
  destruct (every_city_is_stored_or_reported rome_refused) as [Hw _].
  destruct (Hw eq_refl) as [Hout _].
  rewrite Hout. vm_compute. left. reflexivity.
Defined.

End Requests.

(** ** What the methods leave alone; the tracked-city invariant *)

Module Invariants.
Import Py Builtins Datetime Runtime Dashboard Main Spec DictFacts FetchFacts TransformFacts.
Import Examples.
Local Open Scope monad_scope.

Lemma preserves_bind {A B} P (m : M Process A) (k : A -> M Process B) :
  preserves P m -> (forall a, preserves P (k a)) -> preserves P (bind m k).
Proof.
  intros Hm Hk p HP. unfold bind.
  specialize (Hm p HP). destruct (m p) as [[a|e] p1]; cbn [snd] in *.
  - now apply Hk.
  - exact Hm.
Qed.

Lemma preserves_same_object {A} P (m : M Process A) :
  (forall p, self (snd (m p)) = self p) -> preserves P m.
Proof. intros H p HP. now rewrite H. Qed.

Ltac crush_method :=
  repeat match goal with
         | |- context [match ?x with _ => _ end] =>
             lazymatch x with
             | context [match _ with _ => _ end] => fail
             | _ => destruct x; cbn
             end
         end; try reflexivity.

Section Output.
Variable render_error : figure -> option exn.
Variable py_str : value -> string.
Variable capitalize_text : string -> string.
Variable strftime : datetime -> string.

Lemma temperature_comparison_object p :
  self (snd (visualize_temperature_comparison render_error p)) = self p /\
  sent (world (snd (visualize_temperature_comparison render_error p))) = sent (world p).
Proof.
  unfold visualize_temperature_comparison, bind, getattr, savefig, write_file, raise.
  split; crush_method.
Qed.

Lemma weather_parameters_object p :
  self (snd (visualize_weather_parameters render_error p)) = self p /\
  sent (world (snd (visualize_weather_parameters render_error p))) = sent (world p).
Proof.
  unfold visualize_weather_parameters, bind, getattr, savefig, write_file, raise.
  split; crush_method.
Qed.

Lemma forecast_trends_object p :
  self (snd (visualize_forecast_trends render_error p)) = self p /\
  sent (world (snd (visualize_forecast_trends render_error p))) = sent (world p).
Proof.
  unfold visualize_forecast_trends, bind, getattr, datetime_now, gets, lift,
    savefig, write_file, raise.
  cbn. split; crush_method.
Qed.

Lemma weather_report_object p :
  self (snd (create_weather_report py_str capitalize_text strftime p)) = self p /\
  sent (world (snd (create_weather_report py_str capitalize_text strftime p))) = sent (world p).
Proof.
  unfold create_weather_report, bind, getattr, datetime_now, lift, write_file,
    print, modify.
  cbn. split; crush_method.
Qed.

Lemma export_data_object p :
  self (snd (export_data p)) = self p /\
  sent (world (snd (export_data p))) = sent (world p).
Proof.
  unfold export_data, bind, getattr, write_file. cbn.
  split; crush_method.
Qed.

(** X5.  The three chart methods, [create_weather_report] and
    [export_data] never change an attribute of the dashboard and never
    send an HTTP request, whether they return or raise. *)
Theorem output_methods_keep_object p :
  (self (snd (visualize_temperature_comparison render_error p)) = self p /\
   sent (world (snd (visualize_temperature_comparison render_error p))) = sent (world p)) /\
  (self (snd (visualize_forecast_trends render_error p)) = self p /\
   sent (world (snd (visualize_forecast_trends render_error p))) = sent (world p)) /\
  (self (snd (visualize_weather_parameters render_error p)) = self p /\
   sent (world (snd (visualize_weather_parameters render_error p))) = sent (world p)) /\
  (self (snd (create_weather_report py_str capitalize_text strftime p)) = self p /\
   sent (world (snd (create_weather_report py_str capitalize_text strftime p))) = sent (world p)) /\
  (self (snd (export_data p)) = self p /\
   sent (world (snd (export_data p))) = sent (world p)).
Proof.
  split; [apply temperature_comparison_object|].
  split; [apply forecast_trends_object|].
  split; [apply weather_parameters_object|].
  split; [apply weather_report_object|apply export_data_object].
Qed.
End Output.

Lemma tracked_grow d cs :
  tracked d -> tracked (set_cities (cities d ++ cs) d).
Proof.
  intros [H1 [H2 [H3 [H4 H5]]]]. unfold tracked. cbn.
  repeat split; auto.
  - intros c Hc. apply in_or_app. left. auto.
  - now apply H3.
  - intros c Hc. apply in_or_app. left. destruct (H3 fd H); auto.
  - intros df Hdf r Hr. apply in_or_app. left. eauto.
  - intros df Hdf r Hr. apply in_or_app. left. eauto.
Qed.

Lemma answered_is_listed net n url cs c :
  answered_200 (exchanges net n url cs) c -> In c cs.
Proof.
  intros [b Hb]. apply (in_map fst) in Hb.
  now rewrite Chart.exchanges_cities in Hb.
Qed.

Lemma tracked_add_city c : preserves tracked (add_city c).
Proof. intros p Hp. cbn. now apply tracked_grow. Qed.

Lemma tracked_fetch_current_weather : preserves tracked fetch_current_weather.
Proof.
  intros p [H1 [H2 [H3 [H4 H5]]]].
  rewrite fetch_current_weather_replay.
  pose proof (@replay_NoDup weather_error_line (weather_exchanges p) _ H1) as Hnd.
  pose proof (@replay_keys_origin weather_error_line (weather_exchanges p)
                (weather_data (self p))) as Ho.
  destruct (replay _ _ _) as [[[r d] out] k]. cbn in *.
  repeat split; auto.
  - intros c Hc. destruct (Ho c Hc) as [Hin|Ha]; [auto|].
    now apply answered_is_listed in Ha.
  - now apply H3.
  - intros c Hc. destruct (H3 fd H); auto.
Qed.

Lemma tracked_fetch_forecast days : preserves tracked (fetch_forecast days).
Proof.
  intros p [H1 [H2 [H3 [H4 H5]]]].
  rewrite fetch_forecast_replay.
  pose proof (@replay_NoDup forecast_error_line (forecast_exchanges p) []
                (NoDup_nil _)) as Hnd.
  pose proof (@replay_keys_origin forecast_error_line (forecast_exchanges p) []) as Ho.
  destruct (replay _ _ _) as [[[r d] out] k]. cbn in *.
  repeat split; auto.
  - inversion H; subst. exact Hnd.
  - intros c Hc. inversion H; subst. destruct (Ho c Hc) as [[]|Ha].
    now apply answered_is_listed in Ha.
Qed.

Lemma tracked_set_current_df d recs :
  tracked d -> (forall r, In r recs -> In (city r) (cities d)) ->
  tracked (set_current_df recs d).
Proof.
  intros [H1 [H2 [H3 [H4 H5]]]] Hr. unfold tracked. cbn.
  split; [exact H1|]. split; [exact H2|]. split; [exact H3|].
  split; [|exact H5]. intros df Hdf. inversion Hdf; subst. exact Hr.
Qed.

Lemma tracked_set_forecast_df d frecs :
  tracked d -> (forall r, In r frecs -> In (city (slot r)) (cities d)) ->
  tracked (set_forecast_df frecs d).
Proof.
  intros [H1 [H2 [H3 [H4 H5]]]] Hr. unfold tracked. cbn.
  split; [exact H1|]. split; [exact H2|]. split; [exact H3|].
  split; [exact H4|]. intros df Hdf. inversion Hdf; subst. exact Hr.
Qed.

Section Inv.
Variable utcoffset : Z -> Z.
Variable render_error : figure -> option exn.
Variable py_str : value -> string.
Variable capitalize_text : string -> string.
Variable strftime : datetime -> string.

Lemma tracked_prepare_data : preserves tracked (prepare_data utcoffset).
Proof.
  intros p Ht. rewrite prepare_data_run.
  destruct (current_weather_records utcoffset (weather_data (self p)))
    as [recs|e] eqn:Ec; [|exact Ht].
  assert (Hrecs : forall r, In r recs -> In (city r) (cities (self p))).
  { intros r Hr. destruct Ht as [_ [H2 _]]. apply H2.
    rewrite <- (@current_weather_records_cities utcoffset _ _ Ec). now apply in_map. }
  pose proof (@tracked_set_current_df _ recs Ht Hrecs) as Ht1.
  destruct (forecast_data (self p)) as [fd|] eqn:Ef; [|exact Ht1].
  destruct (forecast_records utcoffset fd) as [frecs|e] eqn:Efr; [|exact Ht1].
  cbn. apply (@tracked_set_forecast_df _ frecs Ht1).
  intros r Hr. cbn. destruct Ht as [_ [_ [H3 _]]].
  destruct (H3 fd Ef) as [_ Hk]. apply Hk.
  eapply Chart.forecast_records_cities; eauto.
Qed.

Lemma tracked_run_dashboard :
  preserves tracked (run_dashboard utcoffset render_error py_str capitalize_text strftime).
Proof.
  unfold run_dashboard.
  apply preserves_bind; [apply tracked_fetch_current_weather|intros _].
  apply preserves_bind; [apply tracked_fetch_forecast|intros _].
  apply preserves_bind; [apply tracked_prepare_data|intros _].
  apply preserves_bind;
    [apply preserves_same_object; intros p; apply temperature_comparison_object
    |intros _].
  apply preserves_bind;
    [apply preserves_same_object; intros p; apply forecast_trends_object|intros _].
  apply preserves_bind;
    [apply preserves_same_object; intros p; apply weather_parameters_object
    |intros _].
  apply preserves_bind;
    [apply preserves_same_object; intros p; apply weather_report_object|intros _].
  apply preserves_bind;
    [apply preserves_same_object; intros p; apply export_data_object|intros _].
  apply preserves_bind; [apply preserves_same_object; reflexivity|intros _].
  apply preserves_same_object; reflexivity.
Qed.

(** X6.  In every dashboard built by [__init__] and changed only through
    its methods, no mapping holds a city twice and every stored payload and
    every table row belongs to a city of [self.cities]: [__init__]
    establishes this and [add_city], both fetchers, [prepare_data] and
    [run_dashboard] keep it, whether they return or raise.  In particular
    the rows of any forecast table found in such a dashboard belong to
    tracked cities. *)
Theorem tracked_is_invariant :
  (forall k w d w', init k w = (Ok d, w') -> tracked d) /\
  (forall c, preserves tracked (add_city c)) /\
  preserves tracked fetch_current_weather /\
  (forall days, preserves tracked (fetch_forecast days)) /\
  preserves tracked (prepare_data utcoffset) /\
  preserves tracked (run_dashboard utcoffset render_error py_str capitalize_text strftime) /\
  (forall p df, tracked (self p) -> forecast_df (self p) = Some df ->
     forall r, In r df -> In (city (slot r)) (cities (self p))).
Proof.
  split; [|split; [|split; [|split; [|split; [|split]]]]].
  - intros k w d w' H. unfold init in H.
    destruct (or_else k _) as [[|a s]|]; try discriminate.
    destruct (fs_error w "output"); [discriminate|].
    inversion H; subst. unfold tracked. cbn.
    repeat split; try constructor; try discriminate; intros; contradiction.
  - apply tracked_add_city.
  - apply tracked_fetch_current_weather.
  - apply tracked_fetch_forecast.
  - apply tracked_prepare_data.
  - apply tracked_run_dashboard.
  - intros p df [_ [_ [_ [_ H5]]]] Hdf. now apply H5.
Qed.
End Inv.

Lemma tracked_is_invariant_witness :
  tracked (self (snd (run_dashboard utc (fun _ => None) plain_str no_recasing fixed_strftime
                        rome_refused))).
Proof.
  destruct (tracked_is_invariant utc (fun _ => None) plain_str no_recasing fixed_strftime)
    as [Hinit [Hadd [_ [_ [_ [Hrun _]]]]]].
  apply Hrun.
  assert (H0 : tracked (dashboard [])).
  { apply (Hinit None (world_of good_server) (dashboard []) (world_of good_server)).
    reflexivity. }
  pose proof (Hadd "Paris" {| self := dashboard []; world := world_of flaky_server |} H0)
    as H1.
  exact (Hadd "Rome" _ H1).
Defined.

End Invariants.

(** ** Construction, call order and the entry point *)

Module Construction.
Import Py Builtins Datetime Runtime Dashboard Main Spec DictFacts FetchFacts TransformFacts.
Import Examples.
Local Open Scope monad_scope.

Lemma add_cities_run cs : forall p,
  for_each cs add_city p =
  (Ok tt, on_self (fun d => set_cities (cities d ++ cs) d) p).
Proof.
  induction cs as [|c cs IH]; intros [[] w].
  - unfold ret, on_self, set_cities. cbn. now rewrite app_nil_r.
  - cbn [for_each]. unfold bind at 1. cbn [add_city modify].
    rewrite IH. unfold on_self, set_cities. cbn. now rewrite <- app_assoc.
Qed.

Section Construction.
Variable utcoffset : Z -> Z.
Variable render_error : figure -> option exn.
Variable py_str : value -> string.
Variable capitalize_text : string -> string.
Variable strftime : datetime -> string.

Lemma init_world k w : snd (init k w) = w.
Proof.
  unfold init. destruct (or_else k _) as [[|a s]|]; try reflexivity.
  destruct (fs_error w "output"); reflexivity.
Qed.

(** X7.  The loop of [main] over [args.cities] appends the cities to
    [self.cities] in order, duplicates included, and changes nothing else;
    so when [__init__] succeeds, the [try] block of [main] is
    [run_dashboard] on the new object with exactly the cities of the command
    line. *)
Theorem main_runs_listed_cities cs k w d w' :
  init k w = (Ok d, w') ->
  (forall p, for_each cs add_city p =
             (Ok tt, on_self (fun d0 => set_cities (cities d0 ++ cs) d0) p)) /\
  main_try utcoffset render_error py_str capitalize_text strftime cs k w =
  outcome_of (run_dashboard utcoffset render_error py_str capitalize_text strftime
                {| self := set_cities cs d; world := w |}).
Proof.
  intros Hi. split; [apply add_cities_run|].
  assert (Hw : w' = w) by (now rewrite <- (init_world k w), Hi).
  subst w'.
  assert (Hc : cities d = []).
  { unfold init in Hi. destruct (or_else k _) as [[|a s]|]; try discriminate.
    destruct (fs_error w "output"); [discriminate|]. now inversion Hi. }
  unfold main_try, bind. rewrite Hi. unfold call at 1.
  rewrite add_cities_run. cbn [on_self self world fst snd].
  rewrite Hc. cbn [app]. unfold call, outcome_of.
  destruct (run_dashboard _ _ _ _ _) as [[[]|e] p1]; reflexivity.
Qed.

(** X8.  [__init__] takes a non-empty [api_key] argument whatever the
    environment holds; an empty or absent argument falls back to
    [OPENWEATHER_API_KEY]; a dashboard that it returns has a non-empty key,
    no city, no stored data and no table, the output directory could be
    created, and the world is as before. *)
Theorem init_prefers_argument :
  (forall a s w,
     init (Some (String a s)) w =
     match fs_error w "output" with
     | Some e => (Raise e, w)
     | None => (Ok (fresh (String a s)), w)
     end) /\
  (forall w, init (Some "") w = init None w /\
             init None w = init (lookup "OPENWEATHER_API_KEY" (environ w)) w) /\
  (forall k w d w', init k w = (Ok d, w') ->
     w' = w /\ d = fresh (api_key d) /\ api_key d <> "" /\
     fs_error w "output" = None).
Proof.
  split; [|split].
  - intros a s w. unfold init. cbn [or_else].
    destruct (fs_error w "output"); reflexivity.
  - intros w. split; [reflexivity|]. unfold init. cbn [or_else].
    destruct (lookup "OPENWEATHER_API_KEY" (environ w)) as [[|a s]|]; reflexivity.
  - intros k w d w' H. unfold init in H.
    destruct (or_else k _) as [[|a s]|]; try discriminate.
    destruct (fs_error w "output") eqn:E; [discriminate|].
    inversion H; subst. cbn. repeat split. discriminate.
Qed.

End Construction.

Lemma main_runs_listed_cities_witness :
  main_try utc (fun _ => None) plain_str no_recasing fixed_strftime ["Paris"; "Rome"] None
    (world_of good_server) =
  outcome_of (run_dashboard utc (fun _ => None) plain_str no_recasing fixed_strftime paris_rome).
Proof.
  exact (proj2 (@main_runs_listed_cities utc (fun _ => None) plain_str no_recasing fixed_strftime
                  ["Paris"; "Rome"] None (world_of good_server) (dashboard [])
                  (world_of good_server) eq_refl)).
Defined.

Lemma init_prefers_argument_witness :
  api_key (dashboard []) <> "" /\ fs_error (world_of good_server) "output" = None.
Proof.
  destruct init_prefers_argument as [_ [_ H]].
  destruct (H None (world_of good_server) (dashboard []) (world_of good_server) eq_refl)
    as [_ [_ [Hk Hf]]].
  split; [exact Hk|exact Hf].
Defined.


End Construction.

(** ** The tables and the payloads they are built from *)

Module Records.
Import Py Builtins Datetime Runtime Dashboard Main Spec DictFacts FetchFacts TransformFacts.
Import Examples.
Local Open Scope monad_scope.

Lemma rbind_ok {A B} (r : result A) (k : A -> result B) b :
  rbind r k = Ok b -> exists a, r = Ok a /\ k a = Ok b.
Proof. destruct r as [a|e]; cbn; [eauto|discriminate]. Qed.

Section Records.
Variable utcoffset : Z -> Z.

Lemma weather_record_row c v r :
  weather_record utcoffset c v = Ok r <-> record_of_payload utcoffset c v r.
Proof.
  unfold weather_record, record_of_payload. split.
  - intros H.
    repeat (apply rbind_ok in H; destruct H as [? [? H]]).
    inversion H; subst; cbn. repeat split; try assumption. eauto.
  - intros [Hc [H1 [H2 [H3 [H4 [H5 [H6 [dt [H7 H8]]]]]]]]].
    rewrite H1, H2, H3, H4, H5, H6, H7. cbn [rbind]. rewrite H8. cbn [rbind].
    destruct r; cbn in *. now subst.
Qed.

Lemma forecast_record_row c item r :
  forecast_record utcoffset c item = Ok r <-> record_of_slot utcoffset c item r.
Proof.
  unfold forecast_record, record_of_slot. split.
  - intros H. apply rbind_ok in H. destruct H as [w [Hw H]].
    apply rbind_ok in H. destruct H as [ft [Hft H]].
    inversion H; subst; cbn. split; [now apply weather_record_row|assumption].
  - intros [Hs Hft]. apply weather_record_row in Hs. rewrite Hs. cbn [rbind].
    rewrite Hft. cbn [rbind]. now destruct r.
Qed.

Lemma mapM_Forall2 {A B} (f : A -> result B) (R : A -> B -> Prop) :
  (forall a b, f a = Ok b <-> R a b) ->
  forall l bs, mapM f l = Ok bs <-> Forall2 R l bs.
Proof.
  intros Hf. induction l as [|a l IH]; intros bs; cbn.
  - split; intros H; [inversion H; constructor|inversion H; reflexivity].
  - split.
    + destruct (f a) as [b|e] eqn:Ea; [|discriminate].
      destruct (mapM f l) as [bs'|e] eqn:El; [|discriminate].
      intros H; inversion H; subst. constructor; [now apply Hf|now apply IH].
    + intros H. inversion H as [|a' b l' bs' Hab Hl]; subst.
      apply Hf in Hab. rewrite Hab. apply IH in Hl. rewrite Hl. reflexivity.
Qed.

Lemma city_forecast_records_rows c data rows :
  city_forecast_records utcoffset c data = Ok rows <->
  records_of_forecast utcoffset (c, data) rows.
Proof.
  unfold city_forecast_records, records_of_forecast. cbn [fst snd]. split.
  - intros H. apply rbind_ok in H. destruct H as [l [Hl H]].
    apply rbind_ok in H. destruct H as [items [Hi H]].
    exists l, items. split; [assumption|]. split; [assumption|].
    now apply (@mapM_Forall2 _ _ _ _ (forecast_record_row c)).
  - intros [l [items [Hl [Hi H]]]]. rewrite Hl. cbn [rbind]. rewrite Hi. cbn [rbind].
    now apply (@mapM_Forall2 _ _ _ _ (forecast_record_row c)).
Qed.

(** X10.  The records that the first loop of [prepare_data] builds, before
    [pd.DataFrame] makes a table of them: the loop completes exactly when
    every entry of [weather_data] yields a record, and it builds one record
    per entry, in the order of the mapping, holding the city and the seven
    fields read from the city's payload, with [dt] converted by
    [datetime.fromtimestamp].  The table of a [prepare_data] that returns
    has one row per record, in the same order and for the same city. *)
Theorem current_records_mirror_weather_data p :
  (forall recs,
     current_weather_records utcoffset (weather_data (self p)) = Ok recs <->
     Forall2 (fun cv r => record_of_payload utcoffset (fst cv) (snd cv) r)
             (weather_data (self p)) recs) /\
  (fst (prepare_data utcoffset p) = Ok tt ->
   exists recs df,
     current_weather_records utcoffset (weather_data (self p)) = Ok recs /\
     current_df (self (snd (prepare_data utcoffset p))) = Some df /\
     map city df = map city recs /\
     map city df = keys (weather_data (self p))).
Proof.
  split.
  - intros recs. unfold current_weather_records. apply mapM_Forall2.
    intros [c v] r. apply weather_record_row.
  - rewrite prepare_data_run.
    destruct (current_weather_records utcoffset (weather_data (self p)))
      as [recs|e] eqn:Ec; [|discriminate].
    destruct (forecast_data (self p)) as [fd|]; [|discriminate].
    destruct (forecast_records utcoffset fd) as [frecs|e]; [|discriminate].
    intros _. exists recs, recs. cbn. split; [reflexivity|].
    split; [reflexivity|]. split; [reflexivity|].
    now apply current_weather_records_cities in Ec.
Qed.

(** X11.  The records that the second loop of [prepare_data] builds, before
    [pd.DataFrame] makes a table of them: the loop completes exactly when
    every entry of [forecast_data] yields its records, and what it builds
    is the concatenation, in the order of the mapping, of one group per
    city; a group has one record per item of the city's [list], in list
    order, holding the fields read from that item and its [dt_txt].  The
    table of a [prepare_data] that returns has one row per record, in the
    same order and for the same city. *)
Theorem forecast_records_mirror_forecast_data p :
  (forall fd recs,
     forecast_records utcoffset fd = Ok recs <->
     exists groups,
       Forall2 (records_of_forecast utcoffset) fd groups /\
       recs = List.concat groups) /\
  (fst (prepare_data utcoffset p) = Ok tt ->
   exists fd recs df,
     forecast_data (self p) = Some fd /\
     forecast_records utcoffset fd = Ok recs /\
     forecast_df (self (snd (prepare_data utcoffset p))) = Some df /\
     map (fun r => city (slot r)) df = map (fun r => city (slot r)) recs).
Proof.
  assert (Hg : forall fd groups,
     mapM (fun cd => city_forecast_records utcoffset (fst cd) (snd cd)) fd = Ok groups <->
     Forall2 (records_of_forecast utcoffset) fd groups).
  { intros fd groups. apply mapM_Forall2.
    intros [c d] rows. apply city_forecast_records_rows. }
  split.
  - intros fd recs. unfold forecast_records. split.
    + intros H. apply rbind_ok in H. destruct H as [groups [Hm Hc]].
      inversion Hc; subst. exists groups. split; [now apply Hg|reflexivity].
    + intros [groups [HF ->]]. apply Hg in HF. now rewrite HF.
  - rewrite prepare_data_run.
    destruct (current_weather_records utcoffset (weather_data (self p)))
      as [recs|e] eqn:Ec; [|discriminate].
    destruct (forecast_data (self p)) as [fd|]; [|discriminate].
    destruct (forecast_records utcoffset fd) as [frecs|e] eqn:Ef; [|discriminate].
    intros _. exists fd, frecs, frecs. cbn.
    split; [reflexivity|]. split; [exact Ef|]. split; reflexivity.
Qed.

End Records.

Lemma current_records_mirror_weather_data_witness :
  exists df,
    current_df (self (snd (prepare_data utc fetched))) = Some df /\
    map city df = ["Paris"; "Rome"].
Proof.
  destruct (current_records_mirror_weather_data utc fetched) as [_ H].
  destruct (H eq_refl) as [recs [df [_ [Hdf [_ Hc]]]]].
  exists df. split; [exact Hdf|]. rewrite Hc. reflexivity.
Defined.

Lemma forecast_records_mirror_forecast_data_witness :
  exists df,
    forecast_df (self (snd (prepare_data utc fetched))) = Some df /\
    map (fun r => city (slot r)) df = ["Paris"; "Paris"; "Rome"; "Rome"].
Proof.
  destruct (forecast_records_mirror_forecast_data utc fetched) as [_ H].
  destruct (H eq_refl) as [fd [recs [df [Hfd [Hrecs [Hdf Hc]]]]]].
  exists df. split; [exact Hdf|]. rewrite Hc.
  assert (E : Some fd = forecast_data (self fetched)) by (symmetry; exact Hfd).
  vm_compute in E. injection E as ->.
  vm_compute in Hrecs. injection Hrecs as <-. reflexivity.
Defined.

Lemma mapM_first_raise {A B} (f : A -> result B) pre a rest e :
  forallb (fun x => is_ok (f x)) pre = true ->
  f a = Raise e ->
  mapM f (pre ++ a :: rest) = Raise e.
Proof.
  intros Hp Ha. induction pre as [|x pre IH]; cbn in *.
  - now rewrite Ha.
  - apply andb_true_iff in Hp. destruct Hp as [Hx Hp].
    destruct (f x); [|discriminate]. now rewrite (IH Hp).
Qed.

Section Failures.
Variable utcoffset : Z -> Z.

(** X12.  [prepare_data] never touches the world, [cities], [weather_data]
    or [forecast_data].  It raises the exception of the first entry, in
    mapping order, that does not yield its rows: if that entry is in
    [weather_data] the object is left as it was; if it is in
    [forecast_data], [current_df] has already been replaced and
    [forecast_df] keeps its earlier value. *)
Theorem prepare_data_first_failure p :
  (world (snd (prepare_data utcoffset p)) = world p /\
   cities (self (snd (prepare_data utcoffset p))) = cities (self p) /\
   weather_data (self (snd (prepare_data utcoffset p))) = weather_data (self p) /\
   forecast_data (self (snd (prepare_data utcoffset p))) = forecast_data (self p)) /\
  (forall pre c v rest e,
     weather_data (self p) = (pre ++ (c, v) :: rest)%list ->
     forallb (fun cv => is_ok (weather_record utcoffset (fst cv) (snd cv))) pre = true ->
     weather_record utcoffset c v = Raise e ->
     prepare_data utcoffset p = (Raise e, p)) /\
  (forall recs pre c data rest e,
     current_weather_records utcoffset (weather_data (self p)) = Ok recs ->
     forecast_data (self p) = Some (pre ++ (c, data) :: rest)%list ->
     forallb (fun cd => is_ok (city_forecast_records utcoffset (fst cd) (snd cd))) pre
       = true ->
     city_forecast_records utcoffset c data = Raise e ->
     prepare_data utcoffset p = (Raise e, on_self (set_current_df recs) p) /\
     forecast_df (self (snd (prepare_data utcoffset p))) = forecast_df (self p)).
Proof.
  split; [|split].
  - rewrite prepare_data_run.
    destruct (current_weather_records _ _); [|repeat split].
    destruct (forecast_data (self p)) eqn:Ef; [|repeat split; cbn; now rewrite Ef].
    destruct (forecast_records _ _); repeat split; cbn; now rewrite Ef.
  - intros pre c v rest e Hwd Hpre Hv. rewrite prepare_data_run.
    unfold current_weather_records. rewrite Hwd.
    rewrite (@mapM_first_raise _ _
               (fun cv => weather_record utcoffset (fst cv) (snd cv))
               pre (c, v) rest e Hpre Hv).
    reflexivity.
  - intros recs pre c data rest e Hr Hfd Hpre Hd.
    assert (E : prepare_data utcoffset p = (Raise e, on_self (set_current_df recs) p)).
    { rewrite prepare_data_run, Hr, Hfd. unfold forecast_records.
      rewrite (@mapM_first_raise _ _
                 (fun cd => city_forecast_records utcoffset (fst cd) (snd cd))
                 pre (c, data) rest e Hpre Hd).
      reflexivity. }
    split; [exact E|]. rewrite E. reflexivity.
Qed.

(** X13.  How the shape of a payload decides: a forecast payload that is not
    an object raises [TypeError], one without [list] raises [KeyError]; a
    [list] that is an array gives one row per item, an empty string or empty
    object gives no rows and no error, anything else raises [TypeError].  A
    current-weather payload that is not an object raises [TypeError], one
    without [main] raises [KeyError]. *)
Theorem payload_shapes c :
  (forall data,
     city_forecast_records utcoffset c data =
     match data with
     | PyDict d =>
         match lookup "list" d with
         | None => Raise (KeyError (KStr "list"))
         | Some (PyList items) => mapM (forecast_record utcoffset c) items
         | Some (PyDict []) => Ok []
         | Some (PyStr "") => Ok []
         | Some _ => Raise TypeError
         end
     | _ => Raise TypeError
     end) /\
  (forall v, (forall d, v <> PyDict d) ->
     weather_record utcoffset c v = Raise TypeError) /\
  (forall d, lookup "main" d = None ->
     weather_record utcoffset c (PyDict d) = Raise (KeyError (KStr "main"))).
Proof.
  split; [|split].
  - intros data. unfold city_forecast_records.
    destruct data as [| | | | |items|d]; try reflexivity.
    cbn [getpath getitem rbind].
    destruct (lookup "list" d) as [l|]; [|reflexivity]. cbn [rbind].
    destruct l as [| | | |s|items|d']; try reflexivity.
    + destruct s; reflexivity.
    + destruct d' as [|[k x] d']; reflexivity.
  - intros v Hv. destruct v; try reflexivity. now destruct (Hv entries).
  - intros d Hd. unfold weather_record. cbn [getpath getitem rbind].
    now rewrite Hd.
Qed.
End Failures.


Lemma prepare_data_first_failure_witness :
  prepare_data utc text_time_fetched = (Raise TypeError, text_time_fetched).
Proof.
  destruct (prepare_data_first_failure utc text_time_fetched) as [_ [H _]].
  apply (H [] "Paris" (weather_payload (PyStr "soon")) []); reflexivity.
Defined.

Lemma payload_shapes_witness :
  weather_record utc "Paris" (PyList []) = Raise TypeError /\
  weather_record utc "Paris" (PyDict [("wind", PyDict [])]) = Raise (KeyError (KStr "main")).
Proof.
  destruct (payload_shapes utc "Paris") as [_ [H1 H2]]. split.
  - apply H1. discriminate.
  - apply H2. reflexivity.
Defined.

End Records.

(** ** Files, output and the whole run *)

Module Outputs.
Import Py Builtins Datetime Runtime Dashboard Main Spec DictFacts FetchFacts TransformFacts.
Import Examples.
Local Open Scope monad_scope.

Lemma writes_bind {A B} ps1 ps2 (m : M Process A) (k : A -> M Process B) :
  writes ps1 m -> (forall a, writes ps2 (k a)) -> writes (ps1 ++ ps2) (bind m k).
Proof.
  intros Hm Hk p. unfold bind.
  destruct (Hm p) as [k1 [new1 [Hle1 [Hf1 [Hn1 Hok1]]]]].
  destruct (m p) as [[a|e] p1]; cbn [fst snd is_ok] in *.
  - specialize (Hok1 eq_refl). subst k1.
    destruct (Hk a p1) as [k2 [new2 [Hle2 [Hf2 [Hn2 Hok2]]]]].
    exists (List.length ps1 + k2)%nat, (new1 ++ new2)%list.
    split; [rewrite length_app; lia|].
    split; [rewrite Hf2, Hf1; now rewrite app_assoc|].
    split.
    + rewrite map_app, Hn1, Hn2, firstn_all, firstn_app_2. reflexivity.
    + intros H. rewrite (Hok2 H), length_app. reflexivity.
  - exists k1, new1. split; [rewrite length_app; lia|].
    split; [exact Hf1|]. split; [|discriminate].
    rewrite Hn1, firstn_app.
    replace (k1 - List.length ps1)%nat with 0%nat by lia.
    cbn [firstn]. now rewrite app_nil_r.
Qed.

Lemma writes_nothing {A} (m : M Process A) :
  (forall p, files (world (snd (m p))) = files (world p)) -> writes [] m.
Proof.
  intros H p. exists 0%nat, []. rewrite H, app_nil_r.
  split; [cbn; lia|]. split; [reflexivity|]. split; reflexivity.
Qed.

Lemma writes_one {A} path (m : M Process A) :
  (forall p, (files (world (snd (m p))) = files (world p) /\ is_ok (fst (m p)) = false) \/
             exists c, files (world (snd (m p))) = (files (world p) ++ [(path, c)])%list) ->
  writes [path] m.
Proof.
  intros H p. destruct (H p) as [[Hf Hr]|[c Hf]].
  - exists 0%nat, []. rewrite Hf, app_nil_r. cbn. repeat split; [lia|congruence].
  - exists 1%nat, [(path, c)]. rewrite Hf. cbn. repeat split. lia.
Qed.

Section Steps.
Variable utcoffset : Z -> Z.
Variable render_error : figure -> option exn.
Variable py_str : value -> string.
Variable capitalize_text : string -> string.
Variable strftime : datetime -> string.

Lemma visualize_temperature_comparison_run p :
  visualize_temperature_comparison render_error p =
  match current_df (self p) with
  | None => (Raise (AttributeError "current_df"), p)
  | Some df =>
      match render_error (TemperatureComparison df) with
      | Some e => (Raise e, p)
      | None =>
          match fs_error (world p) "output/temperature_comparison.png" with
          | Some e => (Raise e, p)
          | None =>
              (Ok tt,
               on_world (fun w => with_files w
                           (files w ++ [("output/temperature_comparison.png",
                                         Image (TemperatureComparison df))])) p)
          end
      end
  end.
Proof.
  unfold visualize_temperature_comparison, bind, getattr.
  destruct (current_df (self p)) as [df|]; [|reflexivity].
  unfold savefig. destruct (render_error _); [reflexivity|].
  unfold write_file. destruct (fs_error _ _); reflexivity.
Qed.

Lemma visualize_weather_parameters_run p :
  visualize_weather_parameters render_error p =
  match current_df (self p) with
  | None => (Raise (AttributeError "current_df"), p)
  | Some df =>
      let fig := WeatherParameters ["temperature"; "humidity"; "wind_speed"; "pressure"] df in
      match render_error fig with
      | Some e => (Raise e, p)
      | None =>
          match fs_error (world p) "output/weather_parameters.png" with
          | Some e => (Raise e, p)
          | None =>
              (Ok tt,
               on_world (fun w => with_files w
                           (files w ++ [("output/weather_parameters.png", Image fig)])) p)
          end
      end
  end.
Proof.
  unfold visualize_weather_parameters, bind, getattr.
  destruct (current_df (self p)) as [df|]; [|reflexivity].
  cbv zeta. unfold savefig. destruct (render_error _); [reflexivity|].
  unfold write_file. destruct (fs_error _ _); reflexivity.
Qed.

Lemma export_data_run p :
  export_data p =
  match current_df (self p) with
  | None => (Raise (AttributeError "current_df"), p)
  | Some cur =>
      match fs_error (world p) "output/current_weather.csv" with
      | Some e => (Raise e, p)
      | None =>
          let p1 := on_world (fun w => with_files w
                      (files w ++ [("output/current_weather.csv", CsvCurrent cur)])) p in
          match forecast_df (self p) with
          | None => (Raise (AttributeError "forecast_df"), p1)
          | Some fc =>
              match fs_error (world p) "output/forecast_weather.csv" with
              | Some e => (Raise e, p1)
              | None =>
                  let p2 := on_world (fun w => with_files w
                              (files w ++ [("output/forecast_weather.csv", CsvForecast fc)]))
                              p1 in
                  match fs_error (world p) "output/current_weather.json" with
                  | Some e => (Raise e, p2)
                  | None =>
                      (Ok tt,
                       on_world (fun w => with_files w
                          (files w ++ [("output/current_weather.json", JsonRecords cur)]))
                          p2)
                  end
              end
          end
      end
  end.
Proof.
  unfold export_data, bind, getattr.
  destruct (current_df (self p)) as [cur|] eqn:Ec; [|reflexivity].
  unfold write_file at 1.
  destruct (fs_error (world p) "output/current_weather.csv"); [reflexivity|].
  cbn [self on_world].
  destruct (forecast_df (self p)) as [fc|]; [|reflexivity].
  unfold write_file at 1. cbn [world on_world with_files fs_error].
  destruct (fs_error (world p) "output/forecast_weather.csv"); [reflexivity|].
  cbn [self on_world]. rewrite Ec.
  unfold write_file. cbn [world on_world with_files fs_error].
  destruct (fs_error (world p) "output/current_weather.json"); reflexivity.
Qed.

End Steps.

Lemma bind_ok {A B} (m : M Process A) (k : A -> M Process B) p b p' :
  bind m k p = (Ok b, p') ->
  exists a p1, m p = (Ok a, p1) /\ k a p1 = (Ok b, p').
Proof.
  unfold bind. destruct (m p) as [[a|e] p1]; [eauto|discriminate].
Qed.

Lemma adds_trans p p1 p2 o1 t1 n1 o2 t2 n2 :
  adds p p1 o1 t1 n1 -> adds p1 p2 o2 t2 n2 ->
  adds p p2 (o1 ++ o2) (t1 + t2) (n1 ++ n2).
Proof.
  intros [Hs1 [Ho1 [Ht1 Hf1]]] [Hs2 [Ho2 [Ht2 Hf2]]].
  split; [congruence|]. split; [rewrite Ho2, Ho1; now rewrite app_assoc|].
  split; [lia|]. rewrite Hf2, Hf1. now rewrite app_assoc.
Qed.

Lemma fetch_current_weather_ok p a p1 :
  fetch_current_weather p = (Ok a, p1) ->
  forallb usable (map snd (weather_exchanges p)) = true /\
  p1 = {| self := set_weather_data
                    (store (payloads (weather_exchanges p)) (weather_data (self p)))
                    (self p);
          world := with_stdout
                     (with_sent (world p)
                        (sent (world p) ++ map (weather_url (self p)) (cities (self p))))
                     (stdout (world p) ++
                      error_lines weather_error_line (weather_exchanges p)) |}.
Proof.
  intros H.
  assert (Hu : forallb usable (map snd (weather_exchanges p)) = true).
  { apply (@replay_ok_iff weather_error_line _ (weather_data (self p))).
    rewrite fetch_current_weather_replay in H.
    destruct (replay _ _ _) as [[[r d] out] k]. cbn in H. inversion H; subst.
    cbn. now destruct a. }
  split; [exact Hu|].
  rewrite fetch_current_weather_replay, (replay_usable _ _ _ Hu) in H.
  cbn in H. inversion H; subst.
  replace (List.length (weather_exchanges p))
    with (List.length (map (weather_url (self p)) (cities (self p))))
    by (unfold weather_exchanges; now rewrite Requests.exchanges_length, length_map).
  now rewrite firstn_all.
Qed.

Lemma fetch_forecast_ok days p a p1 :
  fetch_forecast days p = (Ok a, p1) ->
  forallb usable (map snd (forecast_exchanges p)) = true /\
  p1 = {| self := set_forecast_data (store (payloads (forecast_exchanges p)) []) (self p);
          world := with_stdout
                     (with_sent (world p)
                        (sent (world p) ++ map (forecast_url (self p)) (cities (self p))))
                     (stdout (world p) ++
                      error_lines forecast_error_line (forecast_exchanges p)) |}.
Proof.
  intros H.
  assert (Hu : forallb usable (map snd (forecast_exchanges p)) = true).
  { apply (@replay_ok_iff forecast_error_line _ []).
    rewrite fetch_forecast_replay in H.
    destruct (replay _ _ _) as [[[r d] out] k]. cbn in H. inversion H; subst.
    cbn. now destruct a. }
  split; [exact Hu|].
  rewrite fetch_forecast_replay, (replay_usable _ _ _ Hu) in H.
  cbn in H. inversion H; subst.
  replace (List.length (forecast_exchanges p))
    with (List.length (map (forecast_url (self p)) (cities (self p))))
    by (unfold forecast_exchanges; now rewrite Requests.exchanges_length, length_map).
  now rewrite firstn_all.
Qed.

Lemma fetchers_write_nothing :
  writes [] fetch_current_weather /\ forall days, writes [] (fetch_forecast days).
Proof.
  split; [|intros days]; apply writes_nothing; intros p.
  - rewrite fetch_current_weather_replay.
    now destruct (replay _ _ _) as [[[r d] out] k].
  - rewrite fetch_forecast_replay.
    now destruct (replay _ _ _) as [[[r d] out] k].
Qed.

Section Effects.
Variable utcoffset : Z -> Z.
Variable render_error : figure -> option exn.
Variable py_str : value -> string.
Variable capitalize_text : string -> string.
Variable strftime : datetime -> string.

Lemma prepare_data_world p : world (snd (prepare_data utcoffset p)) = world p.
Proof.
  rewrite prepare_data_run.
  destruct (current_weather_records _ _); [|reflexivity].
  destruct (forecast_data (self p)); [|reflexivity].
  destruct (forecast_records _ _); reflexivity.
Qed.

Lemma report_text_ok df now text :
  report_text py_str capitalize_text strftime df now = Ok text <->
  exists sections,
    Forall2 (fun row s => report_section py_str capitalize_text row = Ok s) df sections /\
    text = report_header strftime now ++ String.concat "" sections.
Proof.
  unfold report_text. split.
  - intros H. destruct (mapM (report_section py_str capitalize_text) df) as [sections|e] eqn:E;
      [|discriminate].
    cbn in H. inversion H; subst. exists sections. split; [|reflexivity].
    now apply TransformFacts.mapM_ok_Forall2.
  - intros [sections [HF ->]].
    assert (E : mapM (report_section py_str capitalize_text) df = Ok sections).
    { induction HF as [|row s df' ss Hrow HF IH]; cbn; [reflexivity|].
      now rewrite Hrow, IH. }
    now rewrite E.
Qed.

(** X14.  [create_weather_report] builds the whole text before it opens the
    file and prints its line after writing.  When it returns, the file
    holds the header with the time of the call followed by one section per
    row of the current table, in table order, and the line has been
    printed; it returns whenever every row can be formatted and the file
    can be written.  Without a table, or with a row that cannot be
    formatted, it raises before the file is opened: nothing is written and
    nothing printed.  Whenever it raises, nothing has been printed. *)
Theorem report_built_before_written p :
  let r := create_weather_report py_str capitalize_text strftime p in
  let now := clock (world p) (clock_reads (world p)) in
  (fst r = Ok tt ->
   exists df sections,
     current_df (self p) = Some df /\
     Forall2 (fun row s => report_section py_str capitalize_text row = Ok s)
             df sections /\
     files (world (snd r)) =
       (files (world p) ++
        [("output/weather_report.md",
          Text (report_header strftime now ++ String.concat "" sections))])%list /\
     stdout (world (snd r)) = (stdout (world p) ++ [report_line])%list) /\
  (current_df (self p) = None \/
   (exists df row e,
      current_df (self p) = Some df /\ In row df /\
      report_section py_str capitalize_text row = Raise e) ->
   (exists e, fst r = Raise e) /\
   files (world (snd r)) = files (world p) /\
   stdout (world (snd r)) = stdout (world p)) /\
  (fst r <> Ok tt -> stdout (world (snd r)) = stdout (world p)) /\
  (forall df, current_df (self p) = Some df ->
     forallb (fun row => is_ok (report_section py_str capitalize_text row)) df = true ->
     fs_error (world p) "output/weather_report.md" = None ->
     fst r = Ok tt).
Proof.
  intros r now. subst r. rewrite Report.create_weather_report_run. fold now.
  split; [|split; [|split]].
  - destruct (current_df (self p)) as [df|]; [|discriminate].
    destruct (report_text py_str capitalize_text strftime df now) as [text|e] eqn:E;
      [|discriminate].
    destruct (fs_error (world p) "output/weather_report.md"); [discriminate|].
    intros _. apply report_text_ok in E. destruct E as [sections [HF ->]].
    exists df, sections. repeat split. exact HF.
  - intros [Hnone|[df [row [e [Hdf [Hin Hrow]]]]]].
    + rewrite Hnone. split; [eexists; reflexivity|]. split; reflexivity.
    + rewrite Hdf. unfold report_text.
      destruct (@mapM_some_raise _ _ (report_section py_str capitalize_text)
                  df row e Hin Hrow) as [e' He'].
      rewrite He'. cbn. split; [eexists; reflexivity|]. split; reflexivity.
  - destruct (current_df (self p)) as [df|]; [|reflexivity].
    destruct (report_text py_str capitalize_text strftime df now) as [text|e];
      [|reflexivity].
    destruct (fs_error (world p) "output/weather_report.md"); [reflexivity|].
    intros H. now destruct H.
  - intros df Hdf Hrows Hfs. rewrite Hdf, Hfs.
    assert (E : exists text, report_text py_str capitalize_text strftime df now = Ok text).
    { unfold report_text.
      destruct (@mapM_all_ok _ _ (report_section py_str capitalize_text) df) as [ss Hss].
      - intros row Hin. rewrite forallb_forall in Hrows. specialize (Hrows row Hin).
        destruct (report_section py_str capitalize_text row); [eauto|discriminate].
      - rewrite Hss. cbn. eauto. }
    destruct E as [text ->]. reflexivity.
Qed.

Lemma export_data_writes : writes export_paths export_data.
Proof.
  intros p. rewrite export_data_run.
  destruct (current_df (self p)) as [cur|].
  2:{ exists 0%nat, []. rewrite app_nil_r. cbn. repeat split; [lia|discriminate]. }
  destruct (fs_error (world p) "output/current_weather.csv").
  { exists 0%nat, []. rewrite app_nil_r. cbn. repeat split; [lia|discriminate]. }
  cbv zeta.
  destruct (forecast_df (self p)) as [fc|].
  2:{ exists 1%nat, [("output/current_weather.csv", CsvCurrent cur)].
      cbn. repeat split; [lia|discriminate]. }
  destruct (fs_error (world p) "output/forecast_weather.csv").
  { exists 1%nat, [("output/current_weather.csv", CsvCurrent cur)].
    cbn. repeat split; [lia|discriminate]. }
  destruct (fs_error (world p) "output/current_weather.json").
  { exists 2%nat, [("output/current_weather.csv", CsvCurrent cur);
                   ("output/forecast_weather.csv", CsvForecast fc)].
    cbn. rewrite <- app_assoc. repeat split; [lia|discriminate]. }
  exists 3%nat, [("output/current_weather.csv", CsvCurrent cur);
                 ("output/forecast_weather.csv", CsvForecast fc);
                 ("output/current_weather.json", JsonRecords cur)].
  cbn. rewrite <- !app_assoc. repeat split. lia.
Qed.

(** X15.  [export_data] writes the current CSV, the forecast CSV and the
    JSON file in this order, adds them after the files already written,
    prints nothing, and stops at the first failure without removing what it
    wrote: without [forecast_df] it raises [AttributeError] after the
    current CSV has been written. *)
Theorem export_data_no_rollback p :
  writes export_paths export_data /\
  stdout (world (snd (export_data p))) = stdout (world p) /\
  (fst (export_data p) = Ok tt ->
   exists cur fc,
     current_df (self p) = Some cur /\ forecast_df (self p) = Some fc /\
     files (world (snd (export_data p))) =
       (files (world p) ++
        [("output/current_weather.csv", CsvCurrent cur);
         ("output/forecast_weather.csv", CsvForecast fc);
         ("output/current_weather.json", JsonRecords cur)])%list) /\
  (forall cur,
     current_df (self p) = Some cur -> forecast_df (self p) = None ->
     fs_error (world p) "output/current_weather.csv" = None ->
     fst (export_data p) = Raise (AttributeError "forecast_df") /\
     files (world (snd (export_data p))) =
       (files (world p) ++ [("output/current_weather.csv", CsvCurrent cur)])%list).
Proof.
  split; [apply export_data_writes|]. rewrite export_data_run. split; [|split].
  - destruct (current_df (self p)); [|reflexivity].
    destruct (fs_error (world p) "output/current_weather.csv"); [reflexivity|].
    cbv zeta. destruct (forecast_df (self p)); [|reflexivity].
    destruct (fs_error (world p) "output/forecast_weather.csv"); [reflexivity|].
    destruct (fs_error (world p) "output/current_weather.json"); reflexivity.
  - destruct (current_df (self p)) as [cur|]; [|discriminate].
    destruct (fs_error (world p) "output/current_weather.csv"); [discriminate|].
    cbv zeta. destruct (forecast_df (self p)) as [fc|]; [|discriminate].
    destruct (fs_error (world p) "output/forecast_weather.csv"); [discriminate|].
    destruct (fs_error (world p) "output/current_weather.json"); [discriminate|].
    intros _. exists cur, fc. cbn. rewrite <- !app_assoc. repeat split.
  - intros cur Hc Hf Hfs. rewrite Hc, Hfs. cbv zeta. rewrite Hf. split; reflexivity.
Qed.

End Effects.

Section Run.
Variable utcoffset : Z -> Z.
Variable render_error : figure -> option exn.
Variable py_str : value -> string.
Variable capitalize_text : string -> string.
Variable strftime : datetime -> string.

(** X16.  Whatever happens, the files that [run_dashboard] has written are
    the first few of its seven output files in their fixed order (three
    charts, the report, two CSV files, the JSON file), added after the files
    that were there; all seven when it returns. *)
Theorem run_dashboard_writes_in_order :
  writes dashboard_paths (run_dashboard utcoffset render_error py_str capitalize_text strftime).
Proof.
  unfold run_dashboard.
  change dashboard_paths with
    ([] ++ [] ++ [] ++ ["output/temperature_comparison.png"] ++
     ["output/forecast_trends.png"] ++ ["output/weather_parameters.png"] ++
     ["output/weather_report.md"] ++ export_paths ++ [] ++ [])%list.
  apply writes_bind; [apply fetchers_write_nothing|intros _].
  apply writes_bind; [apply fetchers_write_nothing|intros _].
  apply writes_bind; [apply writes_nothing; intros p; now rewrite prepare_data_world|intros _].
  apply writes_bind; [|intros _].
  { apply writes_one. intros p. rewrite visualize_temperature_comparison_run.
    destruct (current_df (self p)); [|now left].
    destruct (render_error _); [now left|].
    destruct (fs_error _ _); [now left|]. right. eexists. reflexivity. }
  apply writes_bind; [|intros _].
  { apply writes_one. intros p.
    unfold visualize_forecast_trends, bind, datetime_now, getattr, gets, lift.
    cbn [self on_world].
    destruct (forecast_df (self p)); [|now left].
    destruct (forecast_trend_series _ _ _); [|now left].
    unfold savefig. destruct (render_error _); [now left|].
    unfold write_file. destruct (fs_error _ _); [now left|]. right. eexists. reflexivity. }
  apply writes_bind; [|intros _].
  { apply writes_one. intros p. rewrite visualize_weather_parameters_run.
    destruct (current_df (self p)); [|now left]. cbv zeta.
    destruct (render_error _); [now left|].
    destruct (fs_error _ _); [now left|]. right. eexists. reflexivity. }
  apply writes_bind; [|intros _].
  { apply writes_one. intros p. rewrite Report.create_weather_report_run.
    destruct (current_df (self p)); [|now left].
    destruct (report_text _ _ _ _); [|now left].
    destruct (fs_error _ _); [now left|]. right. eexists. reflexivity. }
  apply writes_bind; [apply export_data_writes|intros _].
  apply writes_bind; [|intros _]; apply writes_nothing; reflexivity.
Qed.

Lemma run_dashboard_stages p p' :
  run_dashboard utcoffset render_error py_str capitalize_text strftime p = (Ok tt, p') ->
  exists p1 p2 p3 p4 p5 p6 p7 p8,
    fetch_current_weather p = (Ok tt, p1) /\
    fetch_forecast (PyInt 5) p1 = (Ok tt, p2) /\
    prepare_data utcoffset p2 = (Ok tt, p3) /\
    visualize_temperature_comparison render_error p3 = (Ok tt, p4) /\
    visualize_forecast_trends render_error p4 = (Ok tt, p5) /\
    visualize_weather_parameters render_error p5 = (Ok tt, p6) /\
    create_weather_report py_str capitalize_text strftime p6 = (Ok tt, p7) /\
    export_data p7 = (Ok tt, p8) /\
    p' = on_world (fun w => with_stdout w (stdout w ++ success_lines)) p8.
Proof.
  unfold run_dashboard. intros H.
  apply bind_ok in H. destruct H as [[] [p1 [H1 H]]].
  apply bind_ok in H. destruct H as [[] [p2 [H2 H]]].
  apply bind_ok in H. destruct H as [[] [p3 [H3 H]]].
  apply bind_ok in H. destruct H as [[] [p4 [H4 H]]].
  apply bind_ok in H. destruct H as [[] [p5 [H5 H]]].
  apply bind_ok in H. destruct H as [[] [p6 [H6 H]]].
  apply bind_ok in H. destruct H as [[] [p7 [H7 H]]].
  apply bind_ok in H. destruct H as [[] [p8 [H8 H]]].
  exists p1, p2, p3, p4, p5, p6, p7, p8. repeat (split; [assumption|]).
  unfold bind, print, modify in H. cbn in H. inversion H.
  unfold on_world, success_lines. cbn. now rewrite <- app_assoc.
Qed.

Lemma temperature_comparison_adds p p' :
  visualize_temperature_comparison render_error p = (Ok tt, p') ->
  self p' = self p /\ adds p p' [] 0 ["output/temperature_comparison.png"].
Proof.
  rewrite visualize_temperature_comparison_run.
  destruct (current_df (self p)); [|discriminate].
  destruct (render_error _); [discriminate|].
  destruct (fs_error _ _); [discriminate|].
  intros H; inversion H; subst. unfold adds. cbn.
  rewrite app_nil_r, Nat.add_0_r, map_app. repeat split.
Qed.

Lemma weather_parameters_adds p p' :
  visualize_weather_parameters render_error p = (Ok tt, p') ->
  self p' = self p /\ adds p p' [] 0 ["output/weather_parameters.png"].
Proof.
  rewrite visualize_weather_parameters_run.
  destruct (current_df (self p)); [|discriminate]. cbv zeta.
  destruct (render_error _); [discriminate|].
  destruct (fs_error _ _); [discriminate|].
  intros H; inversion H; subst. unfold adds. cbn.
  rewrite app_nil_r, Nat.add_0_r, map_app. repeat split.
Qed.

Lemma forecast_trends_adds p p' :
  visualize_forecast_trends render_error p = (Ok tt, p') ->
  self p' = self p /\ adds p p' [] 1 ["output/forecast_trends.png"] /\
  exists df, forecast_df (self p) = Some df /\ df <> [].
Proof.
  destruct (forecast_df (self p)) as [df|] eqn:Edf.
  2:{ unfold visualize_forecast_trends, bind, datetime_now, getattr.
      cbn [self on_world]. rewrite Edf. discriminate. }
  rewrite (Chart.visualize_forecast_trends_run render_error p Edf).
  destruct (forecast_trend_series _ _ _) as [series|e] eqn:Es; [|discriminate].
  destruct (render_error _); [discriminate|].
  destruct (fs_error _ _); [discriminate|].
  intros H; inversion H; subst. unfold adds. cbn.
  rewrite app_nil_r, Nat.add_1_r, map_app. repeat split.
  exists df. split; [reflexivity|]. intros ->. discriminate.
Qed.

Lemma weather_report_adds p p' :
  create_weather_report py_str capitalize_text strftime p = (Ok tt, p') ->
  self p' = self p /\ adds p p' [report_line] 1 ["output/weather_report.md"].
Proof.
  rewrite Report.create_weather_report_run.
  destruct (current_df (self p)); [|discriminate].
  destruct (report_text _ _ _ _); [|discriminate].
  destruct (fs_error _ _); [discriminate|].
  intros H; inversion H; subst. unfold adds. cbn.
  rewrite Nat.add_1_r, map_app. repeat split.
Qed.

Lemma export_data_adds p p' :
  export_data p = (Ok tt, p') ->
  self p' = self p /\ adds p p' [] 0 export_paths.
Proof.
  rewrite export_data_run.
  destruct (current_df (self p)); [|discriminate].
  destruct (fs_error _ "output/current_weather.csv"); [discriminate|]. cbv zeta.
  destruct (forecast_df (self p)); [|discriminate].
  destruct (fs_error _ "output/forecast_weather.csv"); [discriminate|].
  destruct (fs_error _ "output/current_weather.json"); [discriminate|].
  intros H; inversion H; subst. unfold adds. cbn.
  rewrite app_nil_r, Nat.add_0_r, !map_app, <- !app_assoc. repeat split.
Qed.

Lemma prepare_data_adds p p' :
  prepare_data utcoffset p = (Ok tt, p') ->
  adds p p' [] 0 [] /\
  exists fd frecs,
    forecast_data (self p) = Some fd /\ forecast_records utcoffset fd = Ok frecs /\
    forecast_df (self p') = Some frecs.
Proof.
  rewrite prepare_data_run.
  destruct (current_weather_records _ _); [|discriminate].
  destruct (forecast_data (self p)) as [fd|]; [|discriminate].
  destruct (forecast_records utcoffset fd) as [frecs|] eqn:E; [|discriminate].
  intros H; inversion H; subst. unfold adds. cbn.
  rewrite !app_nil_r, Nat.add_0_r. repeat split. eauto.
Qed.

Lemma forecast_exchanges_after_weather p a p1 :
  fetch_current_weather p = (Ok a, p1) ->
  forecast_exchanges p1 = run_forecast_exchanges p /\
  cities (self p1) = cities (self p) /\
  forecast_url (self p1) = forecast_url (self p).
Proof.
  intros H. apply fetch_current_weather_ok in H. destruct H as [_ ->].
  unfold forecast_exchanges, run_forecast_exchanges. cbn.
  rewrite length_app, length_map. repeat split.
Qed.

(** X17.  When [run_dashboard] returns it has sent one current-weather
    request per city and then one forecast request per city, in the order of
    [self.cities]; every request was answered, with JSON when the status was
    200; it has printed the error lines of the refused requests, then the
    report line and the two closing lines; it has read the clock twice and
    written the seven files. *)
Theorem run_dashboard_success_trace p :
  let r := run_dashboard utcoffset render_error py_str capitalize_text strftime p in
  fst r = Ok tt ->
  let w := world p in
  let w' := world (snd r) in
  let cs := cities (self p) in
  sent w' = (sent w ++ map (weather_url (self p)) cs
                    ++ map (forecast_url (self p)) cs)%list /\
  stdout w' = (stdout w ++ error_lines weather_error_line (weather_exchanges p)
                        ++ error_lines forecast_error_line (run_forecast_exchanges p)
                        ++ report_line :: success_lines)%list /\
  clock_reads w' = (clock_reads w + 2)%nat /\
  map fst (files w') = (map fst (files w) ++ dashboard_paths)%list /\
  forallb usable (map snd (weather_exchanges p)) = true /\
  forallb usable (map snd (run_forecast_exchanges p)) = true.
Proof.
  intros r Hr w w' cs. subst w' w cs.
  destruct r as [[[]|e] p'] eqn:Er; [|discriminate]. subst r. cbn [snd].
  apply run_dashboard_stages in Er.
  destruct Er as [p1 [p2 [p3 [p4 [p5 [p6 [p7 [p8
    [H1 [H2 [H3 [H4 [H5 [H6 [H7 [H8 ->]]]]]]]]]]]]]]]].
  destruct (@forecast_exchanges_after_weather _ _ _ H1) as [Hx [Hc Hu]].
  apply fetch_current_weather_ok in H1. destruct H1 as [Hu1 E1].
  apply fetch_forecast_ok in H2. destruct H2 as [Hu2 E2].
  rewrite Hx in Hu2, E2. rewrite Hc, Hu in E2.
  apply prepare_data_adds in H3. destruct H3 as [A3 _].
  apply temperature_comparison_adds in H4. destruct H4 as [_ A4].
  apply forecast_trends_adds in H5. destruct H5 as [_ [A5 _]].
  apply weather_parameters_adds in H6. destruct H6 as [_ A6].
  apply weather_report_adds in H7. destruct H7 as [_ A7].
  apply export_data_adds in H8. destruct H8 as [_ A8].
  pose proof (adds_trans (adds_trans (adds_trans (adds_trans (adds_trans A3 A4) A5) A6) A7) A8)
    as [Hs [Ho [Ht Hf]]].
  cbn [app Nat.add] in Hs, Ho, Ht, Hf.
  cbn [on_world world sent stdout clock_reads files with_stdout].
  rewrite Hs, Ho, Ht, Hf. subst p2. subst p1.
  cbn [world self sent stdout clock_reads files with_stdout with_sent
       set_forecast_data set_weather_data].
  rewrite <- !app_assoc. repeat split; assumption.
Qed.

Lemma run_dashboard_ok_rows p :
  fst (run_dashboard utcoffset render_error py_str capitalize_text strftime p) = Ok tt ->
  exists df r,
    forecast_df (self (snd (run_dashboard utcoffset render_error py_str capitalize_text strftime p)))
      = Some df /\
    In r df /\
    In (city (slot r)) (cities (self p)) /\
    answered_200 (run_forecast_exchanges p) (city (slot r)).
Proof.
  intros Hr.
  destruct (run_dashboard utcoffset render_error py_str capitalize_text strftime p)
    as [[[]|e] p'] eqn:Er; [|discriminate]. cbn [snd].
  apply run_dashboard_stages in Er.
  destruct Er as [p1 [p2 [p3 [p4 [p5 [p6 [p7 [p8
    [H1 [H2 [H3 [H4 [H5 [H6 [H7 [H8 ->]]]]]]]]]]]]]]]].
  destruct (@forecast_exchanges_after_weather _ _ _ H1) as [Hx [Hc Hu]].
  apply fetch_forecast_ok in H2. destruct H2 as [Hu2 E2]. rewrite Hx in Hu2, E2.
  apply prepare_data_adds in H3. destruct H3 as [_ [fd [frecs [Hfd [Hfr Hdf]]]]].
  apply temperature_comparison_adds in H4. destruct H4 as [S4 _].
  apply forecast_trends_adds in H5. destruct H5 as [S5 [_ [df [Hdf5 Hne]]]].
  apply weather_parameters_adds in H6. destruct H6 as [S6 _].
  apply weather_report_adds in H7. destruct H7 as [S7 _].
  apply export_data_adds in H8. destruct H8 as [S8 _].
  rewrite S4, Hdf in Hdf5. inversion Hdf5; subst df.
  destruct frecs as [|r frecs]; [now destruct Hne|].
  exists (r :: frecs), r. cbn [on_world self].
  rewrite S8, S7, S6, S5, S4. split; [exact Hdf|]. split; [now left|].
  assert (Hk : In (city (slot r)) (keys fd)).
  { eapply Chart.forecast_records_cities; [exact Hfr|now left]. }
  rewrite E2 in Hfd. cbn in Hfd. inversion Hfd; subst fd.
  assert (Ha : answered_200 (run_forecast_exchanges p) (city (slot r))).
  { pose proof (@replay_keys_origin forecast_error_line (run_forecast_exchanges p) []
                  (city (slot r))) as Ho.
    rewrite (replay_usable _ _ _ Hu2) in Ho. cbn in Ho.
    destruct (Ho Hk) as [[]|Ha]. exact Ha. }
  split; [|exact Ha].
  apply (@Invariants.answered_is_listed _ _ _ _ _ Ha).
Qed.

(** X18.  [run_dashboard] returns only if the forecast table has a row: some
    tracked city got a 200 answer to its forecast request.  With no city, or
    with every forecast request refused, it raises. *)
Theorem run_dashboard_needs_forecast_rows p :
  (fst (run_dashboard utcoffset render_error py_str capitalize_text strftime p) = Ok tt ->
   exists df r,
     forecast_df (self (snd (run_dashboard utcoffset render_error py_str capitalize_text strftime p)))
       = Some df /\
     In r df /\
     In (city (slot r)) (cities (self p)) /\
     answered_200 (run_forecast_exchanges p) (city (slot r))) /\
  (cities (self p) = [] \/ (forall c, ~ answered_200 (run_forecast_exchanges p) c) ->
   exists e, fst (run_dashboard utcoffset render_error py_str capitalize_text strftime p) = Raise e).
Proof.
  split; [apply run_dashboard_ok_rows|].
  intros H.
  destruct (fst (run_dashboard utcoffset render_error py_str capitalize_text strftime p))
    as [[]|e] eqn:E; [|eauto].
  exfalso. destruct (run_dashboard_ok_rows p E) as [df [r [_ [_ [Hin Ha]]]]].
  destruct H as [H|H]; [rewrite H in Hin; exact Hin|exact (H _ Ha)].
Qed.

End Run.

Lemma report_built_before_written_witness :
  stdout (world (snd (create_weather_report plain_str no_recasing fixed_strftime
                        prepared)))
  = [report_line] /\
  fst (create_weather_report plain_str no_recasing fixed_strftime paris_rome)
  = Raise (AttributeError "current_df") /\
  files (world (snd (create_weather_report plain_str no_recasing fixed_strftime
                       paris_rome))) = [].
Proof.
  destruct (report_built_before_written plain_str no_recasing fixed_strftime prepared)
    as [H _].
  destruct (H eq_refl) as [df [sections [_ [_ [_ Ho]]]]].
  split; [rewrite Ho; reflexivity|].
  destruct (report_built_before_written plain_str no_recasing fixed_strftime paris_rome)
    as [_ [H2 _]].
  destruct (H2 (or_introl eq_refl)) as [_ [Hf _]].
  split; [reflexivity|]. rewrite Hf. reflexivity.
Defined.

Lemma export_data_no_rollback_witness :
  fst (export_data half_prepared) = Raise (AttributeError "forecast_df") /\
  map fst (files (world (snd (export_data half_prepared))))
  = ["output/current_weather.csv"].
Proof.
  destruct (export_data_no_rollback half_prepared) as [_ [_ [_ H]]].
  destruct (H _ eq_refl eq_refl eq_refl) as [Hr Hf].
  split; [exact Hr|rewrite Hf; reflexivity].
Defined.

Lemma run_dashboard_success_trace_witness :
  let w' := world (snd (run_dashboard utc (fun _ => None) plain_str no_recasing fixed_strftime
                          paris_rome)) in
  List.length (sent w') = 4%nat /\
  stdout w' = (report_line :: success_lines)%list /\
  clock_reads w' = 2%nat /\
  map fst (files w') = dashboard_paths.
Proof.
  destruct (@run_dashboard_success_trace utc (fun _ => None) plain_str no_recasing fixed_strftime
              paris_rome eq_refl) as [Hs [Ho [Ht [Hf _]]]].
  cbv zeta. rewrite Hs, Ho, Ht, Hf. repeat split.
Defined.

Lemma run_dashboard_needs_forecast_rows_witness :
  exists c, answered_200 (run_forecast_exchanges paris_rome) c.
Proof.
  destruct (run_dashboard_needs_forecast_rows utc (fun _ => None) plain_str no_recasing
              fixed_strftime paris_rome) as [Hok _].
  destruct (Hok eq_refl) as [df [r [_ [_ [_ H]]]]].
  exists (city (slot r)). exact H.
Defined.

End Outputs.

(** ** The trend chart and the figures of the report *)

Module Presentation.
Import Py Builtins Datetime Runtime Dashboard Main Spec DictFacts FetchFacts TransformFacts.
Import Examples.
Local Open Scope monad_scope.

Lemma filter_split_perm {A} (P Q : A -> bool) l :
  (forall x, In x l -> P x && Q x = false) ->
  Permutation (filter P l ++ filter Q l) (filter (fun x => P x || Q x) l).
Proof.
  induction l as [|x l IH]; intros H; cbn; [constructor|].
  assert (Hl : forall y, In y l -> P y && Q y = false) by (intros y Hy; apply H; now right).
  specialize (IH Hl). specialize (H x (or_introl eq_refl)).
  destruct (P x), (Q x); cbn in *; try discriminate.
  - now constructor.
  - apply Permutation_sym. apply Permutation_cons_app. now apply Permutation_sym.
  - exact IH.
Qed.

Lemma filter_all {A} (P : A -> bool) l :
  (forall x, In x l -> P x = true) -> filter P l = l.
Proof.
  induction l as [|x l IH]; intros H; cbn; [reflexivity|].
  rewrite (H x (or_introl eq_refl)). f_equal. apply IH. intros y Hy. apply H. now right.
Qed.

Lemma filter_none {A} (l : list A) : filter (fun _ => false) l = [].
Proof. induction l; cbn; auto. Qed.

Lemma series_perm cs (F : list ForecastRecord) :
  NoDup cs ->
  Permutation
    (List.concat (map (fun c => filter (fun r => String.eqb (city (slot r)) c) F) cs))
    (filter (fun r => existsb (String.eqb (city (slot r))) cs) F).
Proof.
  induction 1 as [|c cs Hn Hnd IH]; cbn [map List.concat existsb].
  - rewrite filter_none. constructor.
  - eapply Permutation_trans; [apply Permutation_app_head; exact IH|].
    apply (filter_split_perm (fun r => String.eqb (city (slot r)) c)
             (fun r => existsb (String.eqb (city (slot r))) cs)).
    intros r _. destruct (String.eqb (city (slot r)) c) eqn:E; [|reflexivity].
    apply String.eqb_eq in E. cbn.
    destruct (existsb (String.eqb (city (slot r))) cs) eqn:Ex; [|reflexivity].
    apply Requests.existsb_eqb_in in Ex. rewrite E in Ex. contradiction.
Qed.

(** X19.  The trend chart gets one series per entry of [self.cities], in
    that order (a city listed twice is drawn twice, a city without rows gets
    an empty series); a series holds the rows of its city that are within
    the five-day horizon, in table order; and when no city is listed twice
    and every row belongs to a listed city, the series together hold each
    row within the horizon exactly once. *)
Theorem trend_series_partition cs df now series :
  forecast_trend_series cs df now = Ok series ->
  let within := fun r => timestamp (slot r) <=? now + timedelta_days 5 in
  map fst series = cs /\
  (forall c rows, In (c, rows) series ->
     rows = filter (fun r => String.eqb (city (slot r)) c) (filter within df)) /\
  (NoDup cs -> (forall r, In r df -> In (city (slot r)) cs) ->
   Permutation (List.concat (map snd series)) (filter within df)).
Proof.
  intros H within. unfold forecast_trend_series in H.
  destruct (column "timestamp" df); [|discriminate]. cbn [rbind] in H.
  inversion H; subst series; clear H. fold within.
  split; [|split].
  - rewrite map_map. cbn. apply map_id.
  - intros c rows Hin. apply in_map_iff in Hin. destruct Hin as [c' [E _]].
    now inversion E.
  - intros Hnd Hall. rewrite map_map. cbn [snd].
    eapply Permutation_trans; [apply series_perm; exact Hnd|].
    rewrite filter_all; [apply Permutation_refl|].
    intros r Hr. apply filter_In in Hr. destruct Hr as [Hr _].
    apply Requests.existsb_eqb_in. now apply Hall.
Qed.

Lemma one_decimal_checked :
  forallb (fun i => let n := Z.of_nat i - 999 in
                    String.eqb (format_float_1f (float_lit n 1)) (decimal_1 n))
          (seq 0 (Z.to_nat 1999)) = true.
Proof. vm_compute. reflexivity. Qed.

Lemma integer_checked :
  forallb (fun i => let n := Z.of_nat i - 999 in
                    match format_1f (PyInt n) with
                    | Ok s => String.eqb s (decimal_1 (10 * n))
                    | Raise _ => false
                    end)
          (seq 0 (Z.to_nat 1999)) = true.
Proof. vm_compute. reflexivity. Qed.

Lemma format_one_decimal n :
  -1000 < n < 1000 -> format_1f (PyFloat (float_lit n 1)) = Ok (decimal_1 n).
Proof.
  intros Hn. pose proof one_decimal_checked as H.
  rewrite forallb_forall in H.
  specialize (H (Z.to_nat (n + 999))).
  cbv zeta in H. replace (Z.of_nat (Z.to_nat (n + 999)) - 999) with n in H by lia.
  cbn [format_1f]. f_equal. apply String.eqb_eq. apply H.
  apply in_seq. lia.
Qed.

Lemma format_integer n :
  -1000 < n < 1000 -> format_1f (PyInt n) = Ok (decimal_1 (10 * n)).
Proof.
  intros Hn. pose proof integer_checked as H.
  rewrite forallb_forall in H.
  specialize (H (Z.to_nat (n + 999))).
  cbv zeta in H. replace (Z.of_nat (Z.to_nat (n + 999)) - 999) with n in H by lia.
  destruct (format_1f (PyInt n)) as [s|e].
  - f_equal. apply String.eqb_eq. apply H. apply in_seq. lia.
  - assert (false = true) by (apply H; apply in_seq; lia). discriminate.
Qed.

Section Readings.
Variable py_str : value -> string.
Variable capitalize_text : string -> string.

Lemma format_tenths v n :
  -1000 < n < 1000 -> holds_tenths v n -> format_1f v = Ok (decimal_1 n).
Proof.
  intros Hn [->|[i [-> ->]]].
  - now apply format_one_decimal.
  - apply format_integer. lia.
Qed.

(** X20.  A row whose temperature cells hold values between -99.9 and 99.9
    with one decimal place (floats decoded from such literals, or
    integers) gets a section that shows exactly these values to one
    decimal ([20.5] as 20.5, [-3] as -3.0): decoding the literal to a float
    and formatting it with [.1f] gives the literal back.  A description in
    ASCII appears with its first letter in upper case and the rest in
    lower case. *)
Theorem report_shows_tenths row t f d :
  -1000 < t < 1000 -> -1000 < f < 1000 ->
  holds_tenths (temperature row) t ->
  holds_tenths (feels_like row) f ->
  description row = PyStr d ->
  exists text,
    report_section py_str capitalize_text row = Ok text /\
    occurs_in ("Temperature**: " ++ decimal_1 t ++ "°C (Feels like: "
                 ++ decimal_1 f ++ "°C)") text /\
    (is_ascii d = true ->
     occurs_in ("Description**: " ++ capitalize_str d) text).
Proof.
  intros Ht Hf Htv Hfv Hd. unfold report_section.
  rewrite (format_tenths Ht Htv), (format_tenths Hf Hfv), Hd.
  cbn [rbind capitalize].
  eexists. split; [reflexivity|]. split.
  - exists ("## " ++ city row ++ nl ++ nl ++ "- **").
    eexists. rewrite !Report.append_assoc. reflexivity.
  - intros Ha. rewrite Ha.
    exists ("## " ++ city row ++ nl ++ nl ++
            "- **Temperature**: " ++ decimal_1 t ++ "°C (Feels like: "
              ++ decimal_1 f ++ "°C)" ++ nl ++ "- **").
    eexists. rewrite !Report.append_assoc. reflexivity.
Qed.
End Readings.

Lemma report_shows_tenths_witness :
  exists text,
    report_section plain_str no_recasing paris_row = Ok text /\
    occurs_in "Temperature**: 20.5°C (Feels like: 19.8°C)" text.
Proof.
  destruct (@report_shows_tenths plain_str no_recasing paris_row 205 198 "clear sky")
    as [text [H1 [H2 _]]]; try lia; try (left; reflexivity); try reflexivity.
  exists text. split; [exact H1|exact H2].
Defined.

Lemma trend_series_partition_witness :
  exists series,
    forecast_trend_series ["Paris"; "Rome"] [paris_slot] 1700000000000000 = Ok series /\
    map fst series = ["Paris"; "Rome"].
Proof.
  eexists. split; [reflexivity|].
  apply (@trend_series_partition ["Paris"; "Rome"] [paris_slot] 1700000000000000 _ eq_refl).
Defined.

End Presentation.

(** ** The command line *)

Module CommandLine.
Import Py Builtins Datetime Runtime Dashboard Main Spec DictFacts FetchFacts TransformFacts.
Import Examples.
Local Open Scope monad_scope.

Lemma plain_is_value t : plain t = true -> classify t = Some (TValue t).
Proof.
  unfold plain, classify. intros H.
  destruct t as [|a t]; [reflexivity|].
  cbn [String.prefix] in H.
  destruct (ascii_dec "-" a) as [<-|Hne]; [destruct t; discriminate|].
  assert (E : Ascii.eqb a "-" = false) by (apply Ascii.eqb_neq; congruence).
  cbn [String.eqb String.prefix]. rewrite E. cbn [andb orb].
  destruct (ascii_dec "-" a); [contradiction|reflexivity].
Qed.

Lemma classify_plain ws :
  forallb plain ws = true -> classify_all ws = Some (map TValue ws).
Proof.
  induction ws as [|w ws IH]; cbn; [reflexivity|].
  intros H. apply andb_true_iff in H. destruct H as [Hw Hws].
  now rewrite (plain_is_value _ Hw), (IH Hws).
Qed.

Lemma classify_all_app a b ta tb :
  classify_all a = Some ta -> classify_all b = Some tb ->
  classify_all (a ++ b) = Some (ta ++ tb)%list.
Proof.
  revert ta. induction a as [|x a IH]; cbn; intros ta Ha Hb.
  - inversion Ha. exact Hb.
  - destruct (classify x); [|discriminate].
    destruct (classify_all a) as [ta'|]; [|discriminate].
    inversion Ha; subst. now rewrite (IH ta' eq_refl Hb).
Qed.

Lemma scan_values ws : forall acc ts cs k e,
  scan (map TValue ws ++ ts) (InCities acc) cs k e =
  scan ts (InCities (acc ++ ws)) cs k e.
Proof.
  induction ws as [|w ws IH]; intros acc ts cs k e; cbn [map app].
  - now rewrite app_nil_r.
  - destruct acc; cbn [scan]; rewrite IH; now rewrite <- app_assoc.
Qed.

(** X21.  Command lines that [main] accepts and rejects: [--cities] followed
    by one or more words gives these words as the cities, with [--api-key
    KEY] before or after them giving the key; without [--cities] the five
    default cities are used; [--cities] with no word, [--api-key] with no
    value and words that no option takes end the process with status 2. *)
Theorem command_line_forms ws k :
  ws <> [] -> forallb plain ws = true -> plain k = true ->
  parse_args ("--cities" :: ws) = Some (Namespace ws None) /\
  parse_args ("--cities" :: ws ++ ["--api-key"; k]) = Some (Namespace ws (Some k)) /\
  parse_args ("--api-key" :: k :: "--cities" :: ws) = Some (Namespace ws (Some k)) /\
  parse_args ["--api-key"; k] = Some (Namespace default_cities (Some k)) /\
  parse_args [] = Some (Namespace default_cities None) /\
  parse_args ["--cities"] = Some (SystemExit 2) /\
  parse_args ("--cities" :: ws ++ ["--api-key"]) = Some (SystemExit 2) /\
  parse_args (ws ++ ["--api-key"; k]) = Some (SystemExit 2).
Proof.
  intros Hne Hws Hk. pose proof (classify_plain _ Hws) as Hc.
  pose proof (plain_is_value _ Hk) as Hkc.
  assert (Hw : exists w ws', ws = w :: ws').
  { destruct ws; [now destruct Hne|eauto]. }
  destruct Hw as [w [ws' Ew]].
  repeat split.
  - unfold parse_args. cbn [classify_all]. rewrite Hc.
    change (classify "--cities") with (Some TCities).
    cbn [scan]. rewrite <- (app_nil_r (map TValue ws)), scan_values.
    cbn [app scan]. rewrite Ew. reflexivity.
  - unfold parse_args. cbn [classify_all].
    rewrite (@classify_all_app ws ["--api-key"; k] (map TValue ws) [TApiKey; TValue k] Hc)
      by (cbn [classify_all]; now rewrite Hkc).
    change (classify "--cities") with (Some TCities).
    cbn [scan]. rewrite scan_values. cbn [app]. rewrite Ew. reflexivity.
  - unfold parse_args. cbn [classify_all]. rewrite Hkc, Hc.
    change (classify "--cities") with (Some TCities).
    change (classify "--api-key") with (Some TApiKey).
    cbn [scan]. rewrite <- (app_nil_r (map TValue ws)), scan_values.
    cbn [app scan]. rewrite Ew. reflexivity.
  - unfold parse_args. cbn [classify_all]. rewrite Hkc. reflexivity.
  - unfold parse_args. cbn [classify_all].
    rewrite (@classify_all_app ws ["--api-key"] (map TValue ws) [TApiKey] Hc eq_refl).
    change (classify "--cities") with (Some TCities).
    cbn [scan]. rewrite scan_values. cbn [app]. rewrite Ew. reflexivity.
  - unfold parse_args.
    rewrite (@classify_all_app ws ["--api-key"; k] (map TValue ws) [TApiKey; TValue k] Hc)
      by (cbn [classify_all]; now rewrite Hkc).
    rewrite Ew. cbn [map app scan].
    clear. induction ws' as [|x ws' IH]; [reflexivity|exact IH].
Qed.

Lemma command_line_forms_witness :
  parse_args ["--cities"; "Paris"; "Saint Petersburg"; "--api-key"; "k"]
  = Some (Namespace ["Paris"; "Saint Petersburg"] (Some "k")).
Proof.
  destruct (@command_line_forms ["Paris"; "Saint Petersburg"] "k") as [_ [H _]];
    [discriminate|reflexivity|reflexivity|exact H].
Defined.

End CommandLine.
